(** * kenchi: outlier detectors (angle based, distance based)

    A shallow embedding of [kenchi/outlier_detection/angle_based.py],
    [kenchi/outlier_detection/distance_based.py] and [kenchi/pipeline.py],
    together with the parts of numpy, itertools, scikit-learn and joblib
    these files call.

    Numbers.  A float64 is idealised as an exact rational ([Qc], the
    rationals in lowest terms, so that equal numbers are equal terms).
    Rounding, overflow and underflow are therefore not modelled.  What is
    kept of IEEE arithmetic is the part the program reacts to: under
    [np.errstate(invalid='raise')] the invalid operation [0/0] raises
    [FloatingPointError], while a non-zero number divided by zero only sets
    the divide flag and yields an infinity.  In float64 a product of tiny
    non-zero numbers can underflow to [0.0], so that a squared norm
    vanishes and [0/0] is raised where the exact quotient exists: on such
    inputs the program raises where this embedding returns a number.

    Exceptions.  A Python call that may raise returns a [result]; a method
    that assigns attributes of [self] returns the final object next to its
    result, also when it raises. *)

From Stdlib Require Import String ZArith QArith Qcanon Qround Bool Arith Lia List.
From Stdlib Require Import Lqa Permutation Sorted.
Import ListNotations.

Close Scope Qc_scope.
Close Scope Q_scope.
Open Scope nat_scope.

(* ------------------------------------------------------------------ *)
(** ** Python: exceptions and the result of a call                     *)
(* ------------------------------------------------------------------ *)

(** An f-string: literal text with formatted values in between. *)
Inductive fragment : Type :=
| Lit (s : string)
| FmtInt (z : Z)
| FmtFloat (q : Qc).

Definition message := list fragment.

(** The exception classes the two files and their callees raise.
    [NonFinite] is not a Python exception: it marks a float64 result that
    is an infinity or a NaN produced without raising, which a rational
    cannot carry; [no_infinity_in_ratio] and [var_no_NonFinite] show that
    the angle-based factor never produces it. *)
Inductive exn : Type :=
| ValueError (msg : message)
| NotFittedError (msg : message)
| NotImplementedError
| TypeError (msg : message)
| AttributeError (attr : string)
| IndexError
| FloatingPointError
| NonFinite.

Inductive result (A : Type) : Type :=
| Ok (a : A)
| Raise (e : exn).

Arguments Ok {A} a.
Arguments Raise {A} e.

Definition bind {A B} (c : result A) (k : A -> result B) : result B :=
  match c with
  | Ok a => k a
  | Raise e => Raise e
  end.

Declare Scope py_scope.
Delimit Scope py_scope with py.
Notation "x <- c ;; k" := (bind c (fun x => k))
  (at level 61, c at next level, right associativity) : py_scope.
Open Scope py_scope.

(** A list comprehension whose body may raise: elements are evaluated in
    order and the first exception ends the comprehension. *)
Fixpoint mapM {A B} (f : A -> result B) (l : list A) : result (list B) :=
  match l with
  | [] => Ok []
  | a :: t => b <- f a ;; bs <- mapM f t ;; Ok (b :: bs)
  end.

(** [obj.attr] for an attribute that is assigned only by [fit]. *)
Definition getattr {A} (name : string) (v : option A) : result A :=
  match v with
  | Some a => Ok a
  | None => Raise (AttributeError name)
  end.

Definition is_NotFitted (e : exn) : bool :=
  match e with NotFittedError _ => true | _ => false end.

Definition is_NotImplemented (e : exn) : bool :=
  match e with NotImplementedError => true | _ => false end.

(* ------------------------------------------------------------------ *)
(** ** Arrays                                                          *)
(* ------------------------------------------------------------------ *)

Definition OneDimArray := list Qc.
Definition TwoDimArray := list OneDimArray.

Definition of_Z (z : Z) : Qc := Q2Qc (inject_Z z).
Definition of_nat (n : nat) : Qc := of_Z (Z.of_nat n).

Definition Qc_leb (x y : Qc) : bool := Qle_bool x y.
Definition Qc_ltb (x y : Qc) : bool := negb (Qle_bool y x).
Definition Qc_eqb (x y : Qc) : bool := if Qc_eq_dec x y then true else false.

(** [X.shape] of a two-dimensional array: every row has the length of the
    first; a ragged nest of lists is not a 2-D array. *)
Definition shape (X : TwoDimArray) : option (nat * nat) :=
  match X with
  | [] => Some (0, 0)
  | r :: _ =>
      if forallb (fun r' => length r' =? length r) X
      then Some (length X, length r) else None
  end.

(** [X[s]] for a slice [s = slice(start, stop)]. *)
Definition slice_of {A} (X : list A) (s : nat * nat) : list A :=
  firstn (snd s - fst s) (skipn (fst s) X).

(** [X[ind]] with an integer index array: out of range raises. *)
Definition take {A} (X : list A) (ind : list nat) : result (list A) :=
  mapM (fun i => match nth_error X i with
                 | Some r => Ok r
                 | None => Raise IndexError
                 end) ind.

(** [a - p], elementwise on two vectors of one length. *)
Definition vsub (a p : OneDimArray) : OneDimArray :=
  map (fun xy => (fst xy - snd xy)%Qc) (combine a p).

(** [pa @ pb] on two vectors of one length. *)
Definition dot (pa pb : OneDimArray) : Qc :=
  fold_right Qcplus 0%Qc (map (fun xy => (fst xy * snd xy)%Qc) (combine pa pb)).

Module np.

(** Float division under [np.errstate(invalid='raise')]: [0/0] is the
    invalid operation and raises; a non-zero number over zero sets the
    divide flag only, which is left at its default, and yields an
    infinity. *)
Definition div (x y : Qc) : result Qc :=
  if Qc_eq_dec y 0%Qc then
    if Qc_eq_dec x 0%Qc then Raise FloatingPointError else Raise NonFinite
  else Ok (x / y)%Qc.

Definition sum (l : OneDimArray) : Qc := fold_right Qcplus 0%Qc l.

(** [np.var] of one row, as numpy's [_var] computes it with [ddof=0]:
    the mean is the sum divided by the item count, then the squared
    deviations are summed and divided by the count again.  For a row
    without items the first division is [0/0]. *)
Definition var (l : OneDimArray) : result Qc :=
  let rcount := of_nat (length l) in
  arrmean <- div (sum l) rcount ;;
  let x := map (fun v => (v - arrmean)%Qc) l in
  let x := map (fun v => (v * v)%Qc) x in
  div (sum x) rcount.

(** [np.var(rows, axis=1)]. *)
Definition var_axis1 (rows : TwoDimArray) : result OneDimArray :=
  mapM var rows.

(** [np.max(row)] and [np.min(row)]: a zero-size row has no maximum. *)
Definition max (l : OneDimArray) : result Qc :=
  match l with
  | [] => Raise (ValueError [Lit "zero-size array to reduction operation maximum which has no identity"])
  | x :: t => Ok (fold_left (fun m v => if Qc_leb m v then v else m) t x)
  end.

Definition min (l : OneDimArray) : result Qc :=
  match l with
  | [] => Raise (ValueError [Lit "zero-size array to reduction operation minimum which has no identity"])
  | x :: t => Ok (fold_left (fun m v => if Qc_leb v m then v else m) t x)
  end.

(** [np.concatenate]: needs at least one array. *)
Definition concatenate {A} (arrays : list (list A)) : result (list A) :=
  match arrays with
  | [] => Raise (ValueError [Lit "need at least one array to concatenate"])
  | _ => Ok (concat arrays)
  end.

Definition array_equal (X Y : TwoDimArray) : bool :=
  if list_eq_dec (list_eq_dec Qc_eq_dec) X Y then true else false.

(** [np.sort]: ascending, here by insertion. *)
Fixpoint insert (x : Qc) (l : OneDimArray) : OneDimArray :=
  match l with
  | [] => [x]
  | y :: t => if Qc_leb x y then x :: l else y :: insert x t
  end.

Definition sort (l : OneDimArray) : OneDimArray := fold_right insert [] l.

(** [np.percentile(a, q)] with the default linear interpolation: the
    position [q/100 * (N-1)] in the sorted array, the two order
    statistics around it, and the weights of its fractional part. *)
Definition percentile (a : OneDimArray) (q : Qc) : result Qc :=
  if Qc_ltb q 0%Qc || Qc_ltb (of_Z 100) q then
    Raise (ValueError [Lit "Percentiles must be in the range [0,100]"])
  else
    match sort a with
    | [] => Raise NonFinite
    | ap =>
        let Nx := length ap in
        let indices := (q / of_Z 100 * of_nat (Nx - 1))%Qc in
        let below := Z.to_nat (Qfloor indices) in
        let above := Nat.min (below + 1) (Nx - 1) in
        let weights_above := (indices - of_nat below)%Qc in
        let weights_below := (1 - weights_above)%Qc in
        Ok (nth below ap 0 * weights_below + nth above ap 0 * weights_above)%Qc
    end.

End np.

(* ------------------------------------------------------------------ *)
(** ** itertools                                                       *)
(* ------------------------------------------------------------------ *)

(** [itertools.combinations(l, r)]: the [r]-element subsequences of [l],
    in lexicographic order of their positions. *)
Fixpoint combinations {A} (l : list A) (r : nat) : list (list A) :=
  match l with
  | [] => match r with 0 => [[]] | S _ => [] end
  | x :: t =>
      match r with
      | 0 => [[]]
      | S r' => map (cons x) (combinations t r') ++ combinations t r
      end
  end.

(* ------------------------------------------------------------------ *)
(** ** scikit-learn and joblib                                         *)
(* ------------------------------------------------------------------ *)

Module sklearn.

(** [check_is_fitted(self, attr)]: the attribute must have been
    assigned. *)
Definition check_is_fitted {A} (estimator : string) (attr : option A)
  : result A :=
  match attr with
  | Some a => Ok a
  | None =>
      Raise (NotFittedError
        [Lit "This "; Lit estimator;
         Lit " instance is not fitted yet. Call 'fit' with appropriate arguments before using this method."])
  end.

(** [check_array(X)]: a 2-D array with at least one sample and one
    feature. *)
Definition check_array (X : TwoDimArray) : result TwoDimArray :=
  match shape X with
  | None => Raise (ValueError [Lit "setting an array element with a sequence."])
  | Some (n, d) =>
      if n =? 0 then
        Raise (ValueError [Lit "Found array with "; FmtInt 0;
                           Lit " sample(s) while a minimum of 1 is required."])
      else if d =? 0 then
        Raise (ValueError [Lit "Found array with "; FmtInt 0;
                           Lit " feature(s) while a minimum of 1 is required."])
      else Ok X
  end.

(** [gen_even_slices(n, n_packs)]: the loop over [pack_num], with the
    running [start]; a pack of size zero yields nothing. *)
Fixpoint gen_even_slices_loop (n n_packs : nat) (packs : list nat)
  (start : nat) : list (nat * nat) :=
  match packs with
  | [] => []
  | pack_num :: rest =>
      let this_n :=
        n / n_packs + (if pack_num <? n mod n_packs then 1 else 0) in
      if 0 <? this_n then
        let stop := start + this_n in
        (start, stop) :: gen_even_slices_loop n n_packs rest stop
      else gen_even_slices_loop n n_packs rest start
  end.

Definition gen_even_slices (n : nat) (n_packs : Z)
  : result (list (nat * nat)) :=
  if (n_packs <? 1)%Z then
    Raise (ValueError [Lit "gen_even_slices got n_packs="; FmtInt n_packs;
                       Lit ", must be >=1"])
  else
    let k := Z.to_nat n_packs in
    Ok (gen_even_slices_loop n k (seq 0 k) 0).

(** [Parallel(n_jobs)(delayed(f)(s) for s in slices)]: the calls are
    independent and their results come back in the order of the slices;
    an exception of the generator or of a call is raised to the caller. *)
Definition Parallel {A B} (n_jobs : Z) (f : A -> result B)
  (slices : result (list A)) : result (list B) :=
  if (n_jobs =? 0)%Z then
    Raise (ValueError [Lit "n_jobs == 0 in Parallel has no meaning"])
  else ss <- slices ;; mapM f ss.

Module NearestNeighbors.

(** The estimator: its neighbour count, its metric (resolved from
    [metric], [p] and [metric_params]) and, once fitted, the
    reference set.  The search backend ([algorithm], [leaf_size]) does
    not change the answer and is left out. *)
Record t : Type := {
  n_neighbors : nat;
  metric : OneDimArray -> OneDimArray -> Qc;
  _fit_X : option TwoDimArray
}.

(** [fit(X)]: the data is validated and stored, and only then is
    [n_neighbors] checked, so that a [fit] which raises there has already
    assigned the reference set; a [fit] whose data is rejected leaves the
    estimator as it was.  The estimator after the call is returned with
    the outcome. *)
Definition fit (self : t) (X : TwoDimArray) : result unit * t :=
  match check_array X with
  | Raise e => (Raise e, self)
  | Ok X =>
      let self := {| n_neighbors := n_neighbors self;
                     metric := metric self;
                     _fit_X := Some X |} in
      if n_neighbors self =? 0 then
        (Raise (ValueError [Lit "Expected n_neighbors > 0. Got "; FmtInt 0]),
         self)
      else (Ok tt, self)
  end.

(** Candidates in ascending distance, earlier rows first on ties. *)
Fixpoint insert (x : Qc * nat) (l : list (Qc * nat)) : list (Qc * nat) :=
  match l with
  | [] => [x]
  | y :: t => if Qc_leb (fst x) (fst y) then x :: l else y :: insert x t
  end.

Definition sort_by_distance (l : list (Qc * nat)) : list (Qc * nat) :=
  fold_right insert [] l.

(** The [k] nearest reference rows of one query row, as pairs of
    distance and row index. *)
Definition nearest (self : t) (train : TwoDimArray) (k : nat)
  (q : OneDimArray) : list (Qc * nat) :=
  firstn k (sort_by_distance
              (combine (map (metric self q) train) (seq 0 (length train)))).

(** When the query is the reference set: drop the sample itself from
    its [k + 1] nearest, or the first of them when the sample is not
    among them. *)
Definition drop_self (i : nat) (cand : list (Qc * nat)) : list (Qc * nat) :=
  if existsb (fun c => snd c =? i) cand
  then filter (fun c => negb (snd c =? i)) cand
  else tl cand.

Definition kneighbors (self : t) (X : option TwoDimArray)
  : result (list (list (Qc * nat))) :=
  match _fit_X self with
  | None => Raise (NotFittedError [Lit "Must fit neighbors before querying."])
  | Some train =>
      let train_size := length train in
      match X with
      | Some X =>
          X <- check_array X ;;
          if train_size <? n_neighbors self then
            Raise (ValueError
              [Lit "Expected n_neighbors <= n_samples,  but n_samples = ";
               FmtInt (Z.of_nat train_size); Lit ", n_neighbors = ";
               FmtInt (Z.of_nat (n_neighbors self))])
          else if negb (forallb
                    (fun r => forallb (fun r' => length r =? length r') train) X)
          then
            Raise (ValueError
              [Lit "Incompatible dimension for X and Y matrices"])
          else Ok (map (nearest self train (n_neighbors self)) X)
      | None =>
          let n_neighbors := n_neighbors self + 1 in
          if train_size <? n_neighbors then
            Raise (ValueError
              [Lit "Expected n_neighbors <= n_samples,  but n_samples = ";
               FmtInt (Z.of_nat train_size); Lit ", n_neighbors = ";
               FmtInt (Z.of_nat n_neighbors)])
          else
            Ok (map (fun iq => drop_self (fst iq)
                                 (nearest self train n_neighbors (snd iq)))
                    (combine (seq 0 train_size) train))
      end
  end.

End NearestNeighbors.

Module DistanceMetric.

(** [metric.pairwise(X, Y)]: the matrix of distances between the rows
    of [X] and the rows of [Y], which must have one width. *)
Definition pairwise (m : OneDimArray -> OneDimArray -> Qc)
  (X Y : TwoDimArray) : result TwoDimArray :=
  if forallb (fun x => forallb (fun y => length x =? length y) Y) X
  then Ok (map (fun x => map (m x) Y) X)
  else Raise (ValueError [Lit "X and Y must have the same second dimension"]).

End DistanceMetric.

End sklearn.

(* ------------------------------------------------------------------ *)
(** ** Python: binding the arguments of a call                         *)
(* ------------------------------------------------------------------ *)

Module Call.

(** A function [def f(p1, ..., pn)] whose parameters are positional or
    keyword, some with a default. *)
Record signature : Type := {
  fname : string;
  params : list (string * bool)   (* name, has a default *)
}.

Definition required (sig : signature) : nat :=
  length (filter (fun p => negb (snd p)) (params sig)).

Fixpoint assoc {V} (k : string) (l : list (string * V)) : option V :=
  match l with
  | [] => None
  | (k', v) :: t => if String.eqb k k' then Some v else assoc k t
  end.

(** Keywords go to the parameter of their name, which must exist and
    must not have been filled already. *)
Fixpoint bind_keywords {V} (sig : signature) (bound : list (string * V))
  (kwargs : list (string * V)) : result (list (string * V)) :=
  match kwargs with
  | [] => Ok bound
  | (k, v) :: rest =>
      match assoc k (params sig) with
      | None =>
          Raise (TypeError [Lit (fname sig);
                            Lit "() got an unexpected keyword argument '";
                            Lit k; Lit "'"])
      | Some _ =>
          match assoc k bound with
          | Some _ =>
              Raise (TypeError [Lit (fname sig);
                                Lit "() got multiple values for argument '";
                                Lit k; Lit "'"])
          | None => bind_keywords sig (bound ++ [(k, v)]) rest
          end
      end
  end.

(** The binding of a call of [f] with positional and keyword arguments:
    the positional arguments fill the parameters from the left, then the
    keywords are placed; more positional arguments than parameters, or a
    parameter without default left unfilled, is a [TypeError].  The
    result lists the parameters that received an argument. *)
Definition bind_arguments {V} (sig : signature) (args : list V)
  (kwargs : list (string * V)) : result (list (string * V)) :=
  let names := map fst (params sig) in
  bound <- bind_keywords sig (combine names args) kwargs ;;
  if length names <? length args then
    Raise (TypeError [Lit (fname sig); Lit "() takes from ";
                      FmtInt (Z.of_nat (required sig)); Lit " to ";
                      FmtInt (Z.of_nat (length names));
                      Lit " positional arguments but ";
                      FmtInt (Z.of_nat (length args)); Lit " were given"])
  else
    match filter (fun p => negb (snd p) &&
                    match assoc (fst p) bound with Some _ => false | None => true end)
                 (params sig) with
    | [] => Ok bound
    | p :: _ =>
        Raise (TypeError [Lit (fname sig);
                          Lit "() missing required positional argument: '";
                          Lit (fst p); Lit "'"])
    end.

(** A call [obj.f(...)] for a function [f] found in the class of
    [obj]: the object is passed as the first positional argument. *)
Definition bound_method {V R} (sig : signature)
  (body : list (string * V) -> result R)
  (self : V) (args : list V) (kwargs : list (string * V)) : result R :=
  bound <- bind_arguments sig (self :: args) kwargs ;; body bound.

End Call.

(* ------------------------------------------------------------------ *)
(** ** kenchi/outlier_detection/angle_based.py                         *)
(* ------------------------------------------------------------------ *)

Import sklearn.

(** The generator element [(pa @ pb) / (pa @ pa) / (pb @ pb)] for one
    tuple [pa, pb] of [combinations(..., 2)].  The products are exact
    here: a zero difference vector gives [0/0] as in float64, while the
    [0/0] that float64 reaches when the squared norm of a tiny non-zero
    vector underflows is not reproduced. *)
Definition abof_ratio (c : list OneDimArray) : result Qc :=
  match c with
  | [pa; pb] =>
      r <- np.div (dot pa pb) (dot pa pa) ;;
      np.div r (dot pb pb)
  | _ => Raise (ValueError [Lit "not enough values to unpack"])
  end.

(** The inner list of [_abof] for one sample [p] and its neighbour
    indices [ind_p]. *)
Definition abof_row (X_train : TwoDimArray) (p_ind : OneDimArray * list nat)
  : result OneDimArray :=
  let (p, ind_p) := p_ind in
  neigh <- take X_train ind_p ;;
  mapM abof_ratio (combinations (map (fun a => vsub a p) neigh) 2).

(** [_abof(X_train, X, ind)]: the nested comprehension is built first,
    then [np.var(..., axis=1)] is applied to it, all of it under
    [np.errstate(invalid='raise')]. *)
Definition _abof (X_train X : TwoDimArray) (ind : list (list nat))
  : result OneDimArray :=
  rows <- mapM (abof_row X_train) (combine X ind) ;;
  np.var_axis1 rows.

Module FastABOD.

Record t : Type := {
  fpr : Qc;
  n_jobs : Z;
  _knn : NearestNeighbors.t;
  threshold_ : option Qc
}.

Definition X_ (self : t) : result TwoDimArray :=
  getattr "_fit_X" (NearestNeighbors._fit_X (_knn self)).

Definition check_params (self : t) : result unit :=
  if Qc_ltb (fpr self) 0%Qc || Qc_ltb 1%Qc (fpr self) then
    Raise (ValueError [Lit "fpr must be between 0.0 and 1.0 inclusive but was ";
                       FmtFloat (fpr self)])
  else Ok tt.

(** [FastABOD(fpr, n_jobs, ...)]; the other keyword arguments configure
    the [NearestNeighbors] object. *)
Definition __init__ (fpr : Qc) (n_jobs : Z)
  (n_neighbors : nat) (metric : OneDimArray -> OneDimArray -> Qc)
  : result t :=
  let self := {| fpr := fpr; n_jobs := n_jobs;
                 _knn := {| NearestNeighbors.n_neighbors := n_neighbors;
                            NearestNeighbors.metric := metric;
                            NearestNeighbors._fit_X := None |};
                 threshold_ := None |} in
  _ <- check_params self ;; Ok self.

Definition anomaly_score (self : t) (X : option TwoDimArray)
  : result OneDimArray :=
  nb <- NearestNeighbors.kneighbors (_knn self) X ;;
  let ind := map (map snd) nb in
  X <- match X with
       | None => X_ self
       | Some X => Ok X
       end ;;
  X_train <- X_ self ;;
  match shape X with
  | None => Raise (ValueError [Lit "not enough values to unpack"])
  | Some (n_samples, _) =>
      result <-
        match Parallel (n_jobs self)
                (fun s => _abof X_train (slice_of X s) (slice_of ind s))
                (gen_even_slices n_samples (n_jobs self)) with
        | Raise FloatingPointError =>
            Raise (ValueError [Lit "X must not contain training samples"])
        | r => r
        end ;;
      c <- np.concatenate result ;;
      Ok (map Qcopp c)
  end.

(** [fit(X)]: [self._knn.fit(X)] changes the index in place, also when
    it raises. *)
Definition fit (self : t) (X : TwoDimArray) : result unit * t :=
  match NearestNeighbors.fit (_knn self) X with
  | (Raise e, knn) =>
      (Raise e, {| fpr := fpr self; n_jobs := n_jobs self; _knn := knn;
                   threshold_ := threshold_ self |})
  | (Ok _, knn) =>
      let self := {| fpr := fpr self; n_jobs := n_jobs self; _knn := knn;
                     threshold_ := threshold_ self |} in
      match anomaly_score self None with
      | Raise e => (Raise e, self)
      | Ok anomaly_score =>
          match np.percentile anomaly_score
                  (of_Z 100 * (1 - fpr self))%Qc with
          | Raise e => (Raise e, self)
          | Ok th =>
              (Ok tt, {| fpr := fpr self; n_jobs := n_jobs self;
                         _knn := _knn self; threshold_ := Some th |})
          end
      end
  end.

(** [def score(X, y=None)], written in the class without [self]. *)
Definition score_signature : Call.signature :=
  {| Call.fname := "score";
     Call.params := [("X"%string, false); ("y"%string, true)] |}.

Definition score {V} (self : V) (args : list V) (kwargs : list (string * V))
  : result Qc :=
  Call.bound_method score_signature
    (fun _ => Raise NotImplementedError) self args kwargs.

End FastABOD.

(* ------------------------------------------------------------------ *)
(** ** The base classes ([base.py], not part of the sources at hand)    *)
(* ------------------------------------------------------------------ *)

Inductive label : Type := Outlier | Inlier.

Module BaseOutlierDetector.

(** Modelled from the spec: [BaseOutlierDetector._check_params] is not
    among the sources; the spec has [fit] fail with an
    invalid-configuration error for a rate not in [0, 1]. *)
Definition _check_params (contamination : Qc) : result unit :=
  if Qc_ltb contamination 0%Qc || Qc_ltb 1%Qc contamination then
    Raise (ValueError [Lit "contamination must be between 0.0 and 1.0 inclusive but was ";
                       FmtFloat contamination])
  else Ok tt.

(** Modelled from the spec: the threshold of [fit] is not among the
    sources for the distance-based detectors; the spec sets it to the
    value at the [100 * (1 - rate)] percentile of the anomaly scores of
    the training set. *)
Definition threshold_of (anomaly_score : OneDimArray) (rate : Qc)
  : result Qc :=
  np.percentile anomaly_score (of_Z 100 * (1 - rate))%Qc.

(** Modelled from the spec: [BaseOutlierDetector.fit] is not among the
    sources; the spec has it validate the configuration, delegate to
    the engine's own fit logic, then compute [threshold_] from the
    anomaly scores of the training set. *)
Definition fit {T} (contamination : T -> Qc)
  (_check_params : T -> result unit)
  (_fit : T -> TwoDimArray -> result unit * T)
  (anomaly_score : T -> TwoDimArray -> result OneDimArray)
  (set_threshold_ : T -> Qc -> T)
  (self : T) (X : TwoDimArray) : result unit * T :=
  match _check_params self with
  | Raise e => (Raise e, self)
  | Ok _ =>
      match _fit self X with
      | (Raise e, self) => (Raise e, self)
      | (Ok _, self) =>
          match s <- anomaly_score self X ;;
                threshold_of s (contamination self) with
          | Raise e => (Raise e, self)
          | Ok th => (Ok tt, set_threshold_ self th)
          end
      end
  end.

(** Modelled from the spec: [predict] is not among the sources; the
    spec has it label a row an outlier if its anomaly score exceeds
    [threshold_], and fail not-fitted before [fit]. *)
Definition predict (anomaly_score : result OneDimArray)
  (threshold_ : option Qc) : result (list label) :=
  s <- anomaly_score ;;
  th <- check_is_fitted "detector" threshold_ ;;
  Ok (map (fun v => if Qc_ltb th v then Outlier else Inlier) s).

End BaseOutlierDetector.

(* ------------------------------------------------------------------ *)
(** ** kenchi/outlier_detection/distance_based.py                      *)
(* ------------------------------------------------------------------ *)

Module KNN.

(** The parameters that decide the scores, and the attributes that
    [fit] assigns.  [algorithm], [leaf_size], [n_jobs], [verbose] choose
    how the search runs, not its answer; [metric] stands for the metric
    resolved from [metric], [p] and [metric_params]. *)
Record t : Type := {
  contamination : Qc;
  metric : OneDimArray -> OneDimArray -> Qc;
  n_neighbors : nat;
  weight : bool;
  _knn : option NearestNeighbors.t;
  threshold_ : option Qc
}.

Definition __init__ (contamination : Qc)
  (metric : OneDimArray -> OneDimArray -> Qc) (n_neighbors : nat)
  (weight : bool) : t :=
  {| contamination := contamination; metric := metric;
     n_neighbors := n_neighbors; weight := weight;
     _knn := None; threshold_ := None |}.

Definition X_ (self : t) : result TwoDimArray :=
  knn <- getattr "_knn" (_knn self) ;;
  getattr "_fit_X" (NearestNeighbors._fit_X knn).

Definition _fit (self : t) (X : TwoDimArray) : result unit * t :=
  match NearestNeighbors.fit
          {| NearestNeighbors.n_neighbors := n_neighbors self;
             NearestNeighbors.metric := metric self;
             NearestNeighbors._fit_X := None |} X with
  | (Raise e, _) => (Raise e, self)
  | (Ok _, knn) =>
      (Ok tt, {| contamination := contamination self; metric := metric self;
                 n_neighbors := n_neighbors self; weight := weight self;
                 _knn := Some knn; threshold_ := threshold_ self |})
  end.

Definition anomaly_score (self : t) (X : TwoDimArray) : result OneDimArray :=
  knn <- check_is_fitted "KNN" (_knn self) ;;
  X <- check_array X ;;
  X_train <- X_ self ;;
  nb <- (if np.array_equal X X_train
         then NearestNeighbors.kneighbors knn None
         else NearestNeighbors.kneighbors knn (Some X)) ;;
  let dist := map (map fst) nb in
  if weight self then Ok (map np.sum dist) else mapM np.max dist.

Definition set_threshold_ (self : t) (th : Qc) : t :=
  {| contamination := contamination self; metric := metric self;
     n_neighbors := n_neighbors self; weight := weight self;
     _knn := _knn self; threshold_ := Some th |}.

Definition fit : t -> TwoDimArray -> result unit * t :=
  BaseOutlierDetector.fit contamination
    (fun self => BaseOutlierDetector._check_params (contamination self))
    _fit anomaly_score set_threshold_.

Definition predict (self : t) (X : TwoDimArray) : result (list label) :=
  BaseOutlierDetector.predict (anomaly_score self X) (threshold_ self).

End KNN.

Module OneTimeSampling.

(** [random_state] stands for the generator that [check_random_state]
    returns, by its method [choice(n, size, replace=False)]. *)
Record t : Type := {
  contamination : Qc;
  metric : OneDimArray -> OneDimArray -> Qc;
  n_samples : Z;
  random_state : nat -> nat -> list nat;
  X_ : option TwoDimArray;
  sampled_ : option (list nat);
  _metric : option (OneDimArray -> OneDimArray -> Qc);
  threshold_ : option Qc
}.

Definition __init__ (contamination : Qc)
  (metric : OneDimArray -> OneDimArray -> Qc) (n_samples : Z)
  (random_state : nat -> nat -> list nat) : t :=
  {| contamination := contamination; metric := metric;
     n_samples := n_samples; random_state := random_state;
     X_ := None; sampled_ := None; _metric := None; threshold_ := None |}.

(** Attribute assignments [self.attr = v]. *)
Definition set_X_ (self : t) (v : TwoDimArray) : t :=
  {| contamination := contamination self; metric := metric self;
     n_samples := n_samples self; random_state := random_state self;
     X_ := Some v; sampled_ := sampled_ self; _metric := _metric self;
     threshold_ := threshold_ self |}.

Definition set_sampled_ (self : t) (v : list nat) : t :=
  {| contamination := contamination self; metric := metric self;
     n_samples := n_samples self; random_state := random_state self;
     X_ := X_ self; sampled_ := Some v; _metric := _metric self;
     threshold_ := threshold_ self |}.

Definition set__metric (self : t) (v : OneDimArray -> OneDimArray -> Qc) : t :=
  {| contamination := contamination self; metric := metric self;
     n_samples := n_samples self; random_state := random_state self;
     X_ := X_ self; sampled_ := sampled_ self; _metric := Some v;
     threshold_ := threshold_ self |}.

Definition set_threshold_ (self : t) (v : Qc) : t :=
  {| contamination := contamination self; metric := metric self;
     n_samples := n_samples self; random_state := random_state self;
     X_ := X_ self; sampled_ := sampled_ self; _metric := _metric self;
     threshold_ := Some v |}.

Definition X_sampled_ (self : t) : result TwoDimArray :=
  X <- getattr "X_" (X_ self) ;;
  sampled <- getattr "sampled_" (sampled_ self) ;;
  take X sampled.

Definition _check_params (self : t) : result unit :=
  _ <- BaseOutlierDetector._check_params (contamination self) ;;
  if (n_samples self <=? 0)%Z then
    Raise (ValueError [Lit "n_samples must be positive but was ";
                       FmtInt (n_samples self)])
  else Ok tt.

(** [np.sort] on an index array. *)
Fixpoint insert_index (x : nat) (l : list nat) : list nat :=
  match l with
  | [] => [x]
  | y :: t => if x <=? y then x :: l else y :: insert_index x t
  end.

Definition sort_index (l : list nat) : list nat := fold_right insert_index [] l.

Definition _fit (self : t) (X : TwoDimArray) : result unit * t :=
  let self := set_X_ self X in
  match shape X with
  | None => (Raise (ValueError [Lit "not enough values to unpack"]), self)
  | Some (n_samples', _) =>
      if (n_samples self >=? Z.of_nat n_samples')%Z then
        (Raise (ValueError [Lit "n_samples must be smaller than ";
                            FmtInt (Z.of_nat n_samples');
                            Lit " but was "; FmtInt (n_samples self)]),
         self)
      else if (n_samples self <? 0)%Z then
        (Raise (ValueError [Lit "negative dimensions are not allowed"]), self)
      else
        let rnd := random_state self in
        let self := set_sampled_ self
                      (rnd n_samples' (Z.to_nat (n_samples self))) in
        let self := set_sampled_ self
                      (sort_index (rnd n_samples' (Z.to_nat (n_samples self)))) in
        let self := set__metric self (metric self) in
        (Ok tt, self)
  end.

Definition anomaly_score (self : t) (X : TwoDimArray) : result OneDimArray :=
  m <- check_is_fitted "OneTimeSampling" (_metric self) ;;
  X <- check_array X ;;
  Xs <- X_sampled_ self ;;
  D <- DistanceMetric.pairwise m X Xs ;;
  mapM np.min D.

Definition fit : t -> TwoDimArray -> result unit * t :=
  BaseOutlierDetector.fit contamination _check_params _fit anomaly_score
    set_threshold_.

Definition predict (self : t) (X : TwoDimArray) : result (list label) :=
  BaseOutlierDetector.predict (anomaly_score self X) (threshold_ self).

End OneTimeSampling.

(** Modelled from the spec: [BaseDetector.predict], the base class of
    [FastABOD], is not among the sources; the spec gives every engine the
    same [predict]. *)
Definition FastABOD_predict (self : FastABOD.t) (X : TwoDimArray)
  : result (list label) :=
  BaseOutlierDetector.predict (FastABOD.anomaly_score self (Some X))
    (FastABOD.threshold_ self).

(* ------------------------------------------------------------------ *)
(** ** kenchi/pipeline.py                                              *)
(* ------------------------------------------------------------------ *)

Module Pipeline.

(** A transform step, by its method [transform]. *)
Record transformer : Type := {
  transform : TwoDimArray -> result TwoDimArray
}.

(** The final estimator, by the attributes that the pipeline looks up on
    it; [None] stands for an attribute that the object does not have.
    [Axes] is what a plotting method returns, [Kwargs] the keyword
    arguments passed on to it, and [Attr] the value of the attribute
    [plot_partial_corrcoef]: all three are opaque to the pipeline. *)
Record estimator (Axes Kwargs Attr : Type) : Type := {
  est_anomaly_score : option (option TwoDimArray -> result OneDimArray);
  est_feature_wise_anomaly_score :
    option (option TwoDimArray -> result TwoDimArray);
  est_plot_anomaly_score :
    option (option TwoDimArray -> Kwargs -> result Axes);
  est_plot_roc_curve :
    option (TwoDimArray -> OneDimArray -> Kwargs -> result Axes);
  est_plot_partial_corrcoef : option Attr
}.

Arguments est_anomaly_score {Axes Kwargs Attr} _.
Arguments est_feature_wise_anomaly_score {Axes Kwargs Attr} _.
Arguments est_plot_anomaly_score {Axes Kwargs Attr} _.
Arguments est_plot_roc_curve {Axes Kwargs Attr} _.
Arguments est_plot_partial_corrcoef {Axes Kwargs Attr} _.

(** The pipeline: [steps] holds the pairs of [self.steps[:-1]], a name
    and a transform or [None]; [_final_estimator] is the object of the
    last pair. *)
Record t (Axes Kwargs Attr : Type) : Type := {
  steps : list (string * option transformer);
  _final_estimator : estimator Axes Kwargs Attr
}.

Arguments steps {Axes Kwargs Attr} _.
Arguments _final_estimator {Axes Kwargs Attr} _.

(** The loop [for _, transform in self.steps[:-1]]: each transform that
    is not [None] replaces [X] by its image, in the order of the steps. *)
Fixpoint transform_steps (steps : list (string * option transformer))
  (X : TwoDimArray) : result TwoDimArray :=
  match steps with
  | [] => Ok X
  | (_, None) :: rest => transform_steps rest X
  | (_, Some t) :: rest => X <- transform t X ;; transform_steps rest X
  end.

(** [@if_delegate_has_method(delegate='_final_estimator')]: the method is
    an attribute of the pipeline only if the final estimator has an
    attribute of that name. *)
Definition if_delegate_has_method {M R} (name : string) (delegate : option M)
  (method : M -> result R) : result R :=
  match delegate with
  | Some m => method m
  | None => Raise (AttributeError name)
  end.

Definition anomaly_score {Axes Kwargs Attr} (self : t Axes Kwargs Attr)
  (X : option TwoDimArray) : result OneDimArray :=
  if_delegate_has_method "anomaly_score"
    (est_anomaly_score (_final_estimator self))
    (fun final_anomaly_score =>
       match X with
       | Some X =>
           X <- transform_steps (steps self) X ;;
           final_anomaly_score (Some X)
       | None => final_anomaly_score None
       end).

Definition feature_wise_anomaly_score {Axes Kwargs Attr}
  (self : t Axes Kwargs Attr) (X : option TwoDimArray) : result TwoDimArray :=
  if_delegate_has_method "feature_wise_anomaly_score"
    (est_feature_wise_anomaly_score (_final_estimator self))
    (fun final_feature_wise_anomaly_score =>
       match X with
       | Some X =>
           X <- transform_steps (steps self) X ;;
           final_feature_wise_anomaly_score (Some X)
       | None => final_feature_wise_anomaly_score None
       end).

Definition plot_anomaly_score {Axes Kwargs Attr} (self : t Axes Kwargs Attr)
  (X : option TwoDimArray) (kwargs : Kwargs) : result Axes :=
  if_delegate_has_method "plot_anomaly_score"
    (est_plot_anomaly_score (_final_estimator self))
    (fun final_plot_anomaly_score =>
       match X with
       | Some X =>
           X <- transform_steps (steps self) X ;;
           final_plot_anomaly_score (Some X) kwargs
       | None => final_plot_anomaly_score None kwargs
       end).

(** [plot_roc_curve(X, y)] has no default for [X] and always runs the
    transforms. *)
Definition plot_roc_curve {Axes Kwargs Attr} (self : t Axes Kwargs Attr)
  (X : TwoDimArray) (y : OneDimArray) (kwargs : Kwargs) : result Axes :=
  if_delegate_has_method "plot_roc_curve"
    (est_plot_roc_curve (_final_estimator self))
    (fun final_plot_roc_curve =>
       X <- transform_steps (steps self) X ;;
       final_plot_roc_curve X y kwargs).

(** The property [plot_partial_corrcoef]: the attribute of the final
    estimator. *)
Definition plot_partial_corrcoef {Axes Kwargs Attr}
  (self : t Axes Kwargs Attr) : result Attr :=
  getattr "plot_partial_corrcoef"
    (est_plot_partial_corrcoef (_final_estimator self)).

End Pipeline.

(* ------------------------------------------------------------------ *)
(** ** What the spec states, in its own terms                          *)
(* ------------------------------------------------------------------ *)

(** Variance of a finite family of numbers: the mean of the squared
    deviations from the mean. *)
Definition variance (l : list Qc) : Qc :=
  let n := of_nat (length l) in
  let mean := (np.sum l / n)%Qc in
  (np.sum (map (fun x => (x - mean) * (x - mean))%Qc l) / n)%Qc.

(** The distinct unordered pairs of the members of a family. *)
Fixpoint unordered_pairs {A} (l : list A) : list (A * A) :=
  match l with
  | [] => []
  | a :: t => map (pair a) t ++ unordered_pairs t
  end.

(** The angle-based outlier factor of a point [p] whose neighbours are the
    rows [ind_p] of [X_train]: the variance, over the unordered pairs
    [(a, b)] of difference vectors [X_train[i] - p], of
    [(a.b) / (a.a) / (b.b)]. *)
Definition abof_spec (X_train : TwoDimArray) (p : OneDimArray)
  (ind_p : list nat) : Qc :=
  variance
    (map (fun ab => (dot (fst ab) (snd ab) / dot (fst ab) (fst ab)
                     / dot (snd ab) (snd ab))%Qc)
         (unordered_pairs (map (fun i => vsub (nth i X_train []) p) ind_p))).

(** A list of slices that tiles the rows from [a] up to [b]: each slice
    starts where the one before it stops, and none is empty. *)
Inductive tiles : nat -> nat -> list (nat * nat) -> Prop :=
| tiles_nil a : tiles a a []
| tiles_cons a c b l : a < c -> tiles c b l -> tiles a b ((a, c) :: l).

(** The squared Euclidean distance, one of the metrics of scikit-learn
    ([metric='sqeuclidean']); it stays within the rationals. *)
Definition sqeuclidean (a b : OneDimArray) : Qc := dot (vsub a b) (vsub a b).

(** The one exception that [FastABOD.anomaly_score] substitutes for a
    [FloatingPointError]. *)
Definition training_sample_error : exn :=
  ValueError [Lit "X must not contain training samples"].

(* ------------------------------------------------------------------ *)
(** ** Notions used in the statements, and example inputs            *)
(* ------------------------------------------------------------------ *)

Import NearestNeighbors.

(** The zero vector. *)
Definition is_zero (v : OneDimArray) : Prop := Forall (fun x => x = 0%Qc) v.

(** The rows that a neighbour query returns for one query row. *)
Definition neighbours_of (self : NearestNeighbors.t) (train : TwoDimArray)
  (q : OneDimArray) (nbq : list (Qc * nat)) : Prop :=
  length nbq = n_neighbors self /\
  NoDup (map snd nbq) /\
  forall c, In c nbq ->
    snd c < length train /\
    exists a, nth_error train (snd c) = Some a /\ fst c = metric self q a.

(** The size that [gen_even_slices] gives to pack [pack_num]. *)
Definition this_n (n n_packs pack_num : nat) : nat :=
  n / n_packs + (if pack_num <? n mod n_packs then 1 else 0).

(** The difference vectors of a sample and its neighbours. *)
Definition diffs (X_train : TwoDimArray) (p : OneDimArray)
  (ind_p : list nat) : TwoDimArray :=
  map (fun i => vsub (nth i X_train []) p) ind_p.

(** What [_abof] computes for one sample: the ratios of its pairs, then
    their variance. *)
Definition row_score (X_train : TwoDimArray)
  (p_ind : OneDimArray * list nat) : result Qc :=
  r <- abof_row X_train p_ind ;; np.var r.

(** The [except FloatingPointError] clause of [anomaly_score]. *)
Definition on_FloatingPointError {A} (r : result A) (e : exn) : result A :=
  match r with
  | Raise FloatingPointError => Raise e
  | r => r
  end.

(** Every index of [ind_p] is a row of [X_train]. *)
Definition in_range (X_train : TwoDimArray) (ind_p : list nat) : Prop :=
  Forall (fun i => i < length X_train) ind_p.

(** The ratio of one pair, in the rationals. *)
Definition ratio_of (ab : OneDimArray * OneDimArray) : Qc :=
  (dot (fst ab) (snd ab) / dot (fst ab) (fst ab) / dot (snd ab) (snd ab))%Qc.

(** The query rows: the argument, or the reference set when it is
    omitted. *)
Definition query_rows (X_train : TwoDimArray) (X : option TwoDimArray)
  : TwoDimArray :=
  match X with
  | None => X_train
  | Some X => X
  end.

(** The neighbour index was built by [fit] on the reference set
    [X_train]. *)
Definition fitted_on (knn : NearestNeighbors.t) (X_train : TwoDimArray)
  : Prop :=
  exists knn0, NearestNeighbors.fit knn0 X_train = (Ok tt, knn).

(** Some query row is equal to one of the reference rows selected as its
    neighbours. *)
Definition coincides (X_train Xq : TwoDimArray)
  (nb : list (list (Qc * nat))) : Prop :=
  Exists (fun pn =>
            Exists (fun c => nth_error X_train (snd c) = Some (fst pn))
                   (snd pn))
         (combine Xq nb).

(** The decidable counterpart of [coincides], for concrete inputs. *)
Definition row_eqb (a b : OneDimArray) : bool :=
  if list_eq_dec Qc_eq_dec a b then true else false.

Definition coincidesb (X_train Xq : TwoDimArray)
  (nb : list (list (Qc * nat))) : bool :=
  existsb (fun pn =>
             existsb (fun c => match nth_error X_train (snd c) with
                               | Some a => row_eqb a (fst pn)
                               | None => false
                               end)
                     (snd pn))
          (combine Xq nb).

(** The rows handed to [_abof], rebuilt from the query rows and the
    answer of the neighbour query. *)
Definition abof_rows (Xq : TwoDimArray) (nb : list (list (Qc * nat)))
  : list (OneDimArray * list nat) :=
  combine Xq (map (map snd) nb).

(** Arrays of integers. *)
Definition row_of (l : list Z) : OneDimArray := map of_Z l.
Definition matrix_of (l : list (list Z)) : TwoDimArray := map row_of l.

(** Five points of the plane, pairwise distinct. *)
Definition ex_train : TwoDimArray :=
  matrix_of [[0; 0]; [1; 0]; [0; 1]; [1; 1]; [3; 3]]%Z.

(** Two query points, neither of them a reference point. *)
Definition ex_query : TwoDimArray := matrix_of [[5; 5]; [2; 0]]%Z.

(** Two query points, the second of them a reference point. *)
Definition ex_query_dup : TwoDimArray := matrix_of [[5; 5]; [1; 0]]%Z.

(** An index with [k] neighbours, before and after [fit] on [ex_train]. *)
Definition ex_knn0 (k : nat) : NearestNeighbors.t :=
  {| n_neighbors := k; metric := sqeuclidean; _fit_X := None |}.

Definition ex_knn (k : nat) : NearestNeighbors.t :=
  {| n_neighbors := k; metric := sqeuclidean; _fit_X := Some ex_train |}.

(** A [FastABOD] whose index has been fitted on [ex_train]. *)
Definition ex_abod (k : nat) (jobs : Z) : FastABOD.t :=
  {| FastABOD.fpr := Q2Qc (1 # 10); FastABOD.n_jobs := jobs;
     FastABOD._knn := ex_knn k; FastABOD.threshold_ := None |}.

(** The same detector with another number of jobs. *)
Definition with_n_jobs (self : FastABOD.t) (jobs : Z) : FastABOD.t :=
  {| FastABOD.fpr := FastABOD.fpr self; FastABOD.n_jobs := jobs;
     FastABOD._knn := FastABOD._knn self;
     FastABOD.threshold_ := FastABOD.threshold_ self |}.

(** The answer of a neighbour query, when there is one. *)
Definition answer (r : result (list (list (Qc * nat))))
  : list (list (Qc * nat)) :=
  match r with Ok nb => nb | Raise _ => [] end.

(** A [OneTimeSampling] just constructed, with [m] samples; its generator
    draws the first indices. *)
Definition ex_ots (m : Z) : OneTimeSampling.t :=
  OneTimeSampling.__init__ (Q2Qc (1 # 100)) sqeuclidean m (fun _ k => seq 0 k).

(** [n] points of the line. *)
Definition ex_rows (n : nat) : TwoDimArray :=
  map (fun i => [of_nat i]) (seq 0 n).

(** The rate passes the check of the base class. *)
Definition valid_rate (c : Qc) : Prop :=
  BaseOutlierDetector._check_params c = Ok tt.



(** [s] is the largest member of [l]. *)
Definition is_max (s : Qc) (l : list Qc) : Prop :=
  In s l /\ Forall (fun d => (d <= s)%Qc) l.

(** The query that [anomaly_score] sends to the index: the reference set
    itself when [X] equals it, [X] otherwise. *)
Definition KNN_query (X X_train : TwoDimArray) : option TwoDimArray :=
  if np.array_equal X X_train then None else Some X.

(** A [KNN] whose index has been fitted on [ex_train]. *)
Definition ex_knn_fitted_detector (weight : bool) : KNN.t :=
  {| KNN.contamination := Q2Qc (1 # 10); KNN.metric := sqeuclidean;
     KNN.n_neighbors := 2; KNN.weight := weight;
     KNN._knn := Some (ex_knn 2); KNN.threshold_ := None |}.

(** The generator returns [m] row indices below [n]. *)
Definition draws_indices (rnd : nat -> nat -> list nat) : Prop :=
  forall n m, m <= n ->
    length (rnd n m) = m /\ Forall (fun i => i < n) (rnd n m).

(** [s] is the smallest member of [l]. *)
Definition is_min (s : Qc) (l : list Qc) : Prop :=
  In s l /\ Forall (fun d => (s <= d)%Qc) l.

(** What some statements ask of the metric: a row is at distance zero
    from itself, no distance is negative, and two rows of one width at
    distance zero are the same row. *)
Definition zero_on_self (m : OneDimArray -> OneDimArray -> Qc) : Prop :=
  forall x, m x x = 0%Qc.

Definition nonnegative (m : OneDimArray -> OneDimArray -> Qc) : Prop :=
  forall x y, (0 <= m x y)%Qc.

Definition separates (m : OneDimArray -> OneDimArray -> Qc) : Prop :=
  forall x y, length x = length y -> m x y = 0%Qc -> x = y.

(** Five points of the plane, the second and the fourth the same. *)
Definition ex_train_dup : TwoDimArray :=
  matrix_of [[0; 0]; [1; 0]; [0; 1]; [1; 0]; [3; 3]]%Z.

(** A [FastABOD] just constructed, with [k] neighbours and [jobs] jobs. *)
Definition ex_abod_new (k : nat) (jobs : Z) : FastABOD.t :=
  {| FastABOD.fpr := Q2Qc (1 # 10); FastABOD.n_jobs := jobs;
     FastABOD._knn := ex_knn0 k; FastABOD.threshold_ := None |}.

(** A query of three rows of the plane, the second of them a reference
    point of [ex_train]. *)
Definition ex_query_known : TwoDimArray := matrix_of [[5; 5]; [1; 1]; [2; 0]]%Z.

(** A [KNN] with one neighbour whose index has been fitted on
    [ex_train]. *)
Definition ex_knn1_fitted_detector (weight : bool) : KNN.t :=
  {| KNN.contamination := Q2Qc (1 # 10); KNN.metric := sqeuclidean;
     KNN.n_neighbors := 1; KNN.weight := weight;
     KNN._knn := Some (ex_knn 1); KNN.threshold_ := None |}.

(** A [KNN] just constructed, with [k] neighbours. *)
Definition ex_knn_new (k : nat) (weight : bool) : KNN.t :=
  KNN.__init__ (Q2Qc (1 # 10)) sqeuclidean k weight.

(** The same [OneTimeSampling] with another generator. *)
Definition with_random_state (self : OneTimeSampling.t)
  (rnd : nat -> nat -> list nat) : OneTimeSampling.t :=
  {| OneTimeSampling.contamination := OneTimeSampling.contamination self;
     OneTimeSampling.metric := OneTimeSampling.metric self;
     OneTimeSampling.n_samples := OneTimeSampling.n_samples self;
     OneTimeSampling.random_state := rnd;
     OneTimeSampling.X_ := OneTimeSampling.X_ self;
     OneTimeSampling.sampled_ := OneTimeSampling.sampled_ self;
     OneTimeSampling._metric := OneTimeSampling._metric self;
     OneTimeSampling.threshold_ := OneTimeSampling.threshold_ self |}.

(** A generator that draws the first indices, the largest first. *)
Definition ex_draw_reversed (n k : nat) : list nat := rev (seq 0 k).

(** The distances from a row to the sampled rows of the training set. *)
Definition distances_to_samples (m : OneDimArray -> OneDimArray -> Qc)
  (X_train : TwoDimArray) (sampled : list nat) (x : OneDimArray) : list Qc :=
  map (fun i => m x (nth i X_train [])) sampled.

(** The same pipeline with other transform steps. *)
Definition with_steps {Axes Kwargs Attr} (self : Pipeline.t Axes Kwargs Attr)
  (steps : list (string * option Pipeline.transformer))
  : Pipeline.t Axes Kwargs Attr :=
  {| Pipeline.steps := steps;
     Pipeline._final_estimator := Pipeline._final_estimator self |}.

(** The steps that hold a transform, without those set to [None]. *)
Definition effective_steps (steps : list (string * option Pipeline.transformer))
  : list (string * option Pipeline.transformer) :=
  filter (fun s => match snd s with Some _ => true | None => false end) steps.

(** A transform that moves every point by one along each axis, and one
    that rejects every input. *)
Definition ex_shift : Pipeline.transformer :=
  {| Pipeline.transform := fun X => Ok (map (map (fun v => (v + 1)%Qc)) X) |}.

Definition ex_failing : Pipeline.transformer :=
  {| Pipeline.transform :=
       fun _ => Raise (ValueError [Lit "operands could not be broadcast together"]) |}.

(** A final estimator with the [anomaly_score] of a [FastABOD] fitted on
    [ex_train] and none of the other attributes, and a pipeline in front
    of it. *)
Definition ex_estimator : Pipeline.estimator unit unit unit :=
  {| Pipeline.est_anomaly_score := Some (FastABOD.anomaly_score (ex_abod 3 1));
     Pipeline.est_feature_wise_anomaly_score := None;
     Pipeline.est_plot_anomaly_score := None;
     Pipeline.est_plot_roc_curve := None;
     Pipeline.est_plot_partial_corrcoef := None |}.

Definition ex_pipeline (steps : list (string * option Pipeline.transformer))
  : Pipeline.t unit unit unit :=
  {| Pipeline.steps := steps; Pipeline._final_estimator := ex_estimator |}.

(** [a + v] on two vectors of one length, and [X + v] with [v] added to
    every row. *)
Definition vadd (a v : OneDimArray) : OneDimArray :=
  map (fun xy => (fst xy + snd xy)%Qc) (combine a v).

Definition translate (v : OneDimArray) (X : TwoDimArray) : TwoDimArray :=
  map (fun a => vadd a v) X.

(** A [OneTimeSampling] fitted on [ex_train] with the sample
    [sampled]. *)
Definition ex_ots_fitted (sampled : list nat) : OneTimeSampling.t :=
  {| OneTimeSampling.contamination := Q2Qc (1 # 100);
     OneTimeSampling.metric := sqeuclidean;
     OneTimeSampling.n_samples := Z.of_nat (length sampled);
     OneTimeSampling.random_state := fun _ k => seq 0 k;
     OneTimeSampling.X_ := Some ex_train;
     OneTimeSampling.sampled_ := Some sampled;
     OneTimeSampling._metric := Some sqeuclidean;
     OneTimeSampling.threshold_ := None |}.

(* ------------------------------------------------------------------ *)
(** ** Comprehensions that may raise                                   *)
(* ------------------------------------------------------------------ *)

Lemma bind_Ok_inv {A B} (c : result A) (k : A -> result B) b :
  bind c k = Ok b -> exists a, c = Ok a /\ k a = Ok b.
Proof.
  destruct c as [a|e]; simpl; intros H; [eauto | discriminate].
Qed.

Lemma Ok_inj {A} (a b : A) : Ok a = Ok b -> a = b.
Proof. intros H. now injection H. Qed.

Lemma mapM_Ok_Forall2 {A B} (f : A -> result B) l bs :
  mapM f l = Ok bs <-> Forall2 (fun a b => f a = Ok b) l bs.
Proof.
  revert bs; induction l as [|a t IH]; intros bs; simpl.
  - split; intros H; [injection H as <-; constructor | inversion H; reflexivity].
  - split.
    + intros H. apply bind_Ok_inv in H as (b & Hb & H).
      apply bind_Ok_inv in H as (bs' & Hbs & H). injection H as <-.
      constructor; [assumption | now apply IH].
    + intros H. inversion H as [|? b ? bs' Hb Ht]; subst.
      rewrite Hb. simpl. apply IH in Ht. rewrite Ht. reflexivity.
Qed.

Lemma mapM_length {A B} (f : A -> result B) l bs :
  mapM f l = Ok bs -> length bs = length l.
Proof.
  intros H. apply mapM_Ok_Forall2 in H.
  symmetry. eapply Forall2_length; eassumption.
Qed.

Lemma mapM_app {A B} (f : A -> result B) l1 l2 :
  mapM f (l1 ++ l2) =
  (b1 <- mapM f l1 ;; b2 <- mapM f l2 ;; Ok (b1 ++ b2)).
Proof.
  induction l1 as [|a t IH]; simpl.
  - destruct (mapM f l2); reflexivity.
  - destruct (f a) as [b|e]; simpl; [|reflexivity].
    rewrite IH. destruct (mapM f t) as [bs|e]; simpl; [|reflexivity].
    destruct (mapM f l2); reflexivity.
Qed.

Lemma mapM_ext_in {A B} (f g : A -> result B) l :
  (forall a, In a l -> f a = g a) -> mapM f l = mapM g l.
Proof.
  induction l as [|a t IH]; simpl; intros H; [reflexivity|].
  rewrite (H a) by now left. rewrite IH; [reflexivity|].
  intros; apply H; now right.
Qed.

Lemma mapM_map {A B C} (f : B -> result C) (g : A -> B) l :
  mapM f (map g l) = mapM (fun a => f (g a)) l.
Proof.
  induction l as [|a t IH]; simpl; [reflexivity|]. now rewrite IH.
Qed.

Lemma mapM_pure {A B} (g : A -> B) l :
  mapM (fun a => Ok (g a)) l = Ok (map g l).
Proof.
  induction l as [|a t IH]; simpl; [reflexivity|]. now rewrite IH.
Qed.

(** A comprehension over the concatenation of parts is the concatenation
    of the comprehensions over each part. *)
Lemma mapM_concat {A B} (f : A -> result B) parts :
  (r <- mapM (mapM f) parts ;; Ok (concat r)) = mapM f (concat parts).
Proof.
  induction parts as [|p ps IH]; simpl; [reflexivity|].
  rewrite mapM_app, <- IH.
  destruct (mapM f p) as [b|e]; simpl; [|reflexivity].
  destruct (mapM (mapM f) ps) as [bs|e]; reflexivity.
Qed.

(** A comprehension raises only [e] when each of its elements does. *)
Lemma mapM_raises_only {A B} (f : A -> result B) l e :
  (forall a e', In a l -> f a = Raise e' -> e' = e) ->
  forall e', mapM f l = Raise e' -> e' = e.
Proof.
  induction l as [|a t IH]; simpl; intros H e' He; [discriminate|].
  destruct (f a) as [b|e1] eqn:Ha; simpl in He.
  - destruct (mapM f t) as [bs|e2] eqn:Ht; simpl in He; [discriminate|].
    injection He as <-. apply IH; [|reflexivity].
    intros a' e'' Hin; apply H; now right.
  - injection He as <-. eapply H; [now left | eassumption].
Qed.

Lemma mapM_Raise_inv {A B} (f : A -> result B) l e :
  mapM f l = Raise e -> exists a, In a l /\ f a = Raise e.
Proof.
  induction l as [|a t IH]; simpl; intros H; [discriminate|].
  destruct (f a) as [b|e1] eqn:Ha; simpl in H.
  - destruct (mapM f t) as [bs|e2]; simpl in H; [discriminate|].
    injection H as <-. destruct IH as (a' & Hin & Ha'); [reflexivity|].
    exists a'; split; [now right | assumption].
  - injection H as <-. exists a; split; [now left | assumption].
Qed.

(** If every element yields a value or raises [e], and one of them
    raises, the comprehension raises [e]. *)
Lemma mapM_Raise_intro {A B} (f : A -> result B) l e a :
  (forall a' e', In a' l -> f a' = Raise e' -> e' = e) ->
  In a l -> f a = Raise e -> mapM f l = Raise e.
Proof.
  intros Honly Hin Ha.
  destruct (mapM f l) as [bs|e'] eqn:Hm.
  - apply mapM_Ok_Forall2 in Hm. exfalso.
    induction Hm as [|a' b t bs Hb _ IH]; [contradiction|].
    destruct Hin as [<-|Hin]; [congruence|].
    apply IH; [|assumption].
    intros a'' e' H; apply Honly; now right.
  - f_equal. eapply mapM_raises_only; eassumption.
Qed.

Lemma mapM_total {A B} (f : A -> result B) l :
  (forall a, In a l -> exists b, f a = Ok b) ->
  exists bs, mapM f l = Ok bs.
Proof.
  induction l as [|a t IH]; simpl; intros H; [eauto|].
  destruct (H a (or_introl eq_refl)) as (b & ->).
  destruct IH as (bs & ->); [intros; apply H; now right|].
  simpl. eauto.
Qed.

(** Two passes, the second over the results of the first, against one
    pass that does both per element: the same outcome when a single
    exception is possible. *)
Lemma two_passes {A B C} (f : A -> result B) (g : B -> result C) l e :
  (forall a e', In a l -> f a = Raise e' -> e' = e) ->
  (forall a b e', In a l -> f a = Ok b -> g b = Raise e' -> e' = e) ->
  (rows <- mapM f l ;; mapM g rows) = mapM (fun a => b <- f a ;; g b) l.
Proof.
  induction l as [|a t IH]; simpl; intros Hf Hg; [reflexivity|].
  assert (IH' := IH (fun a' e' H => Hf a' e' (or_intror H))
                    (fun a' b e' H => Hg a' b e' (or_intror H))).
  destruct (f a) as [b|e1] eqn:Ha; simpl; [|reflexivity].
  destruct (mapM f t) as [bs|e2] eqn:Ht; simpl in *.
  - destruct (g b); simpl; [|reflexivity]. now rewrite IH'.
  - rewrite <- IH'.
    assert (e2 = e) as ->.
    { eapply (mapM_raises_only f t); [|eassumption].
      intros a' e' H; apply Hf; now right. }
    destruct (g b) as [c|e3] eqn:Hb; simpl; [reflexivity|].
    f_equal. symmetry. eapply Hg; [now left | eassumption | eassumption].
Qed.

(* ------------------------------------------------------------------ *)
(** ** Arithmetic of vectors                                           *)
(* ------------------------------------------------------------------ *)

Lemma this_plus (a b : Qc) : (this (a + b)%Qc == this a + this b)%Q.
Proof. unfold Qcplus, Q2Qc. cbn [this]. apply Qred_correct. Qed.

Lemma this_mult (a b : Qc) : (this (a * b)%Qc == this a * this b)%Q.
Proof. unfold Qcmult, Q2Qc. cbn [this]. apply Qred_correct. Qed.

Lemma Qc_sq_nonneg (x : Qc) : (0 <= x * x)%Qc.
Proof.
  unfold Qcle. rewrite this_mult. change (this 0%Qc) with 0%Q. nra.
Qed.

Lemma Qc_sum_nonneg_zero (a b : Qc) :
  (0 <= a)%Qc -> (0 <= b)%Qc -> (a + b = 0)%Qc -> a = 0%Qc /\ b = 0%Qc.
Proof.
  unfold Qcle. intros Ha Hb H.
  assert (Hq : (this a + this b == 0)%Q).
  { rewrite <- this_plus, H. reflexivity. }
  change (this 0%Qc) with 0%Q in *.
  split; apply Qc_is_canon; change (this 0%Qc) with 0%Q; lra.
Qed.

Lemma Qc_sum_nonneg (a b : Qc) :
  (0 <= a)%Qc -> (0 <= b)%Qc -> (0 <= a + b)%Qc.
Proof.
  unfold Qcle. intros Ha Hb. rewrite this_plus.
  change (this 0%Qc) with 0%Q in *. lra.
Qed.

Lemma of_nat_zero n : of_nat n = 0%Qc <-> n = 0.
Proof.
  unfold of_nat, of_Z. change 0%Qc with (Q2Qc 0). rewrite Q2Qc_eq_iff.
  unfold Qeq; simpl. lia.
Qed.

Lemma dot_cons x v y w :
  dot (x :: v) (y :: w) = (x * y + dot v w)%Qc.
Proof. reflexivity. Qed.

Lemma dot_self_nonneg v : (0 <= dot v v)%Qc.
Proof.
  induction v as [|x v IH]; [apply Qcle_refl|].
  rewrite dot_cons. apply Qc_sum_nonneg; [apply Qc_sq_nonneg | assumption].
Qed.

Lemma dot_self_zero v : dot v v = 0%Qc <-> is_zero v.
Proof.
  induction v as [|x v IH].
  - split; [constructor | reflexivity].
  - rewrite dot_cons. split.
    + intros H.
      apply Qc_sum_nonneg_zero in H as [Hx Hv];
        [|apply Qc_sq_nonneg | apply dot_self_nonneg].
      constructor; [|now apply IH].
      apply Qcmult_integral in Hx. tauto.
    + intros H. inversion H as [|? ? Hx Hv]; subst.
      apply IH in Hv. rewrite Hv. ring.
Qed.

Lemma dot_zero_l v w : is_zero v -> dot v w = 0%Qc.
Proof.
  intros H; revert w; induction H as [|x v Hx _ IH]; intros w.
  - reflexivity.
  - destruct w as [|y w]; [reflexivity|].
    rewrite dot_cons, IH, Hx. ring.
Qed.

Lemma dot_zero_r v w : is_zero w -> dot v w = 0%Qc.
Proof.
  intros H; revert v; induction H as [|y w Hy _ IH]; intros v.
  - destruct v; reflexivity.
  - destruct v as [|x v]; [reflexivity|].
    rewrite dot_cons, IH, Hy. ring.
Qed.

(** Two rows of one width differ by the zero vector exactly when they are
    the same row. *)
Lemma vsub_zero a p :
  length a = length p -> (is_zero (vsub a p) <-> a = p).
Proof.
  revert p; induction a as [|x a IH]; intros [|y p] Hlen;
    try discriminate.
  - split; [reflexivity | constructor].
  - injection Hlen as Hlen. unfold vsub; simpl. split.
    + intros H. inversion H as [|? ? Hx Ha]; subst.
      apply (IH p Hlen) in Ha. subst p. f_equal.
      transitivity ((x - y) + y)%Qc; [ring | rewrite Hx; ring].
    + intros H. injection H as -> ->. constructor; [ring|].
      now apply (IH p Hlen).
Qed.

(* ------------------------------------------------------------------ *)
(** ** The ratio of one pair, and the variance of a row                 *)
(* ------------------------------------------------------------------ *)

(** A pair with a zero difference vector is an invalid operation, in
    whichever position the zero vector is: the numerator vanishes with
    the denominator. *)
Lemma abof_ratio_zero pa pb :
  is_zero pa \/ is_zero pb -> abof_ratio [pa; pb] = Raise FloatingPointError.
Proof.
  intros H. unfold abof_ratio, np.div.
  destruct (Qc_eq_dec (dot pa pa) 0) as [Ha|Ha].
  - apply dot_self_zero in Ha. rewrite (dot_zero_l pa pb Ha).
    destruct (Qc_eq_dec 0 0); [reflexivity | congruence].
  - destruct H as [H|H]; [apply dot_self_zero in H; contradiction|].
    simpl. rewrite (dot_zero_r pa pb H).
    destruct (Qc_eq_dec (dot pb pb) 0) as [Hb|Hb];
      [|apply dot_self_zero in H; contradiction].
    destruct (Qc_eq_dec (0 / dot pa pa) 0) as [|Hn]; [reflexivity|].
    exfalso; apply Hn. unfold Qcdiv. ring.
Qed.

Lemma abof_ratio_Ok pa pb :
  ~ is_zero pa -> ~ is_zero pb ->
  abof_ratio [pa; pb] =
  Ok (dot pa pb / dot pa pa / dot pb pb)%Qc.
Proof.
  intros Ha Hb. unfold abof_ratio, np.div.
  destruct (Qc_eq_dec (dot pa pa) 0) as [H|_];
    [apply dot_self_zero in H; contradiction|].
  simpl.
  destruct (Qc_eq_dec (dot pb pb) 0) as [H|_];
    [apply dot_self_zero in H; contradiction|].
  reflexivity.
Qed.

Lemma is_zero_dec v : {is_zero v} + {~ is_zero v}.
Proof.
  apply Forall_dec. intros x. apply Qc_eq_dec.
Qed.

(** No division of the ratio produces an infinity. *)
Lemma no_infinity_in_ratio pa pb e :
  abof_ratio [pa; pb] = Raise e -> e = FloatingPointError.
Proof.
  destruct (is_zero_dec pa) as [Ha|Ha].
  - rewrite abof_ratio_zero by now left. congruence.
  - destruct (is_zero_dec pb) as [Hb|Hb].
    + rewrite abof_ratio_zero by now right. congruence.
    + rewrite abof_ratio_Ok by assumption. discriminate.
Qed.

(** [np.var] of an empty row is the invalid operation [0/0]; of any other
    row it is the variance. *)
Lemma var_nil : np.var [] = Raise FloatingPointError.
Proof. reflexivity. Qed.

Lemma var_nonempty l :
  l <> [] -> np.var l = Ok (variance l).
Proof.
  intros Hl. unfold np.var, variance, np.div.
  assert (Hn : of_nat (length l) <> 0%Qc).
  { rewrite of_nat_zero. destruct l; [congruence | discriminate]. }
  destruct (Qc_eq_dec (of_nat (length l)) 0) as [H|_]; [contradiction|].
  simpl.
  destruct (Qc_eq_dec (of_nat (length l)) 0) as [H|_]; [contradiction|].
  now rewrite map_map.
Qed.

Lemma var_no_NonFinite l e :
  np.var l = Raise e -> e = FloatingPointError.
Proof.
  destruct l as [|x l].
  - rewrite var_nil. congruence.
  - rewrite var_nonempty by discriminate. discriminate.
Qed.

(* ------------------------------------------------------------------ *)
(** ** Pairs                                                           *)
(* ------------------------------------------------------------------ *)

Lemma combinations_0 {A} (l : list A) : combinations l 0 = [[]].
Proof. destruct l; reflexivity. Qed.

Lemma combinations_1 {A} (l : list A) :
  combinations l 1 = map (fun a => [a]) l.
Proof.
  induction l as [|x t IH]; [reflexivity|].
  simpl. rewrite combinations_0, IH. reflexivity.
Qed.

(** The 2-combinations that [itertools] yields are the unordered pairs,
    in the same order. *)
Lemma combinations_2 {A} (l : list A) :
  combinations l 2 = map (fun ab => [fst ab; snd ab]) (unordered_pairs l).
Proof.
  induction l as [|x t IH]; [reflexivity|].
  simpl. rewrite combinations_1, IH, map_app, !map_map. reflexivity.
Qed.

Lemma unordered_pairs_nil_iff {A} (l : list A) :
  unordered_pairs l = [] <-> length l < 2.
Proof.
  destruct l as [|a [|b t]]; simpl; split; intros H;
    try reflexivity; try lia; discriminate.
Qed.

(** Every member of a family of two or more is in one of its pairs. *)
Lemma unordered_pairs_cover {A} (l : list A) a :
  2 <= length l -> In a l ->
  exists ab, In ab (unordered_pairs l) /\ (fst ab = a \/ snd ab = a).
Proof.
  induction l as [|x t IH]; simpl; intros Hlen Hin; [lia|].
  destruct Hin as [->|Hin].
  - destruct t as [|y t]; [simpl in Hlen; lia|].
    exists (a, y). split; [simpl; now left | now left].
  - destruct t as [|y t]; [contradiction|].
    exists (x, a). split; [|now right].
    apply in_or_app; left. apply in_map. exact Hin.
Qed.

Lemma unordered_pairs_In {A} (l : list A) ab :
  In ab (unordered_pairs l) -> In (fst ab) l /\ In (snd ab) l.
Proof.
  induction l as [|x t IH]; simpl; [contradiction|].
  intros H. apply in_app_or in H as [H|H].
  - apply in_map_iff in H as (b & <- & Hb). simpl. auto.
  - apply IH in H. tauto.
Qed.

(* ------------------------------------------------------------------ *)
(** ** The neighbour search                                            *)
(* ------------------------------------------------------------------ *)

Lemma insert_perm x l : Permutation (insert x l) (x :: l).
Proof.
  induction l as [|y t IH]; simpl; [reflexivity|].
  destruct (Qc_leb (fst x) (fst y)); [reflexivity|].
  rewrite IH. apply perm_swap.
Qed.

Lemma sort_by_distance_perm l : Permutation (sort_by_distance l) l.
Proof.
  induction l as [|x t IH]; simpl; [reflexivity|].
  rewrite insert_perm. now constructor.
Qed.

Lemma NoDup_firstn {A} k (l : list A) : NoDup l -> NoDup (firstn k l).
Proof.
  intros H. rewrite <- (firstn_skipn k l) in H.
  eapply NoDup_app_remove_r; eassumption.
Qed.

Lemma In_firstn {A} k (l : list A) a : In a (firstn k l) -> In a l.
Proof.
  intros H. rewrite <- (firstn_skipn k l). apply in_or_app; now left.
Qed.

(** A candidate pairs a row index with the distance to that row. *)
Lemma In_candidates {A} (f : A -> Qc) (train : list A) s c :
  In c (combine (map f train) (seq s (length train))) ->
  s <= snd c < s + length train /\
  exists a, nth_error train (snd c - s) = Some a /\ fst c = f a.
Proof.
  revert s; induction train as [|a t IH]; intros s; simpl; [contradiction|].
  intros [<-|H].
  - simpl. split; [lia|]. exists a. rewrite Nat.sub_diag. auto.
  - apply IH in H as (Hr & a' & Hn & Hf). split; [lia|].
    exists a'. split; [|assumption].
    replace (snd c - s) with (S (snd c - S s)) by lia. exact Hn.
Qed.

Lemma map_snd_candidates {A} (f : A -> Qc) (train : list A) s :
  map snd (combine (map f train) (seq s (length train))) =
  seq s (length train).
Proof.
  revert s; induction train as [|a t IH]; intros s; simpl; [reflexivity|].
  now rewrite IH.
Qed.

Section Nearest.

Variable self : NearestNeighbors.t.
Variable train : TwoDimArray.

Lemma nearest_In k q c :
  In c (nearest self train k q) ->
  snd c < length train /\
  exists a, nth_error train (snd c) = Some a /\ fst c = metric self q a.
Proof.
  unfold nearest. intros H. apply In_firstn in H.
  apply (Permutation_in _ (sort_by_distance_perm _)) in H.
  apply In_candidates in H as (Hr & a & Hn & Hf).
  rewrite Nat.sub_0_r in Hn. split; [lia | eauto].
Qed.

Lemma nearest_NoDup k q : NoDup (map snd (nearest self train k q)).
Proof.
  unfold nearest. rewrite <- firstn_map. apply NoDup_firstn.
  eapply Permutation_NoDup.
  - apply Permutation_map. symmetry. apply sort_by_distance_perm.
  - rewrite map_snd_candidates. apply seq_NoDup.
Qed.

Lemma nearest_length k q :
  k <= length train -> length (nearest self train k q) = k.
Proof.
  intros Hk. unfold nearest. rewrite firstn_length_le; [reflexivity|].
  rewrite (Permutation_length (sort_by_distance_perm _)).
  rewrite length_combine, length_map, length_seq. lia.
Qed.

End Nearest.

Lemma filter_one_out (i : nat) (cand : list (Qc * nat)) :
  NoDup (map snd cand) -> In i (map snd cand) ->
  S (length (filter (fun c => negb (snd c =? i)) cand)) = length cand.
Proof.
  induction cand as [|[d j] t IH]; cbn [map snd filter length];
    intros Hnd Hin; [contradiction|].
  inversion Hnd as [|? ? Hc Ht]; subst.
  destruct (Nat.eqb_spec j i) as [->|Hne]; cbn [negb length].
  - f_equal. clear IH Hnd Hin Ht.
    induction t as [|[d' j'] t IH]; cbn [map snd filter length] in *;
      [reflexivity|].
    destruct (Nat.eqb_spec j' i) as [He|He]; cbn [negb length].
    + exfalso. apply Hc. now left.
    + f_equal. apply IH. intros H. apply Hc. now right.
  - f_equal. apply IH; [assumption|].
    destruct Hin as [Hin|Hin]; [contradiction | assumption].
Qed.

Lemma NoDup_map_filter {A B} (g : A -> B) (f : A -> bool) l :
  NoDup (map g l) -> NoDup (map g (filter f l)).
Proof.
  induction l as [|c t IH]; simpl; intros Hnd; [constructor|].
  inversion Hnd as [|? ? Hc Ht]; subst.
  destruct (f c); simpl; [|now apply IH].
  constructor; [|now apply IH].
  intros H. apply Hc. apply in_map_iff in H as (c' & He & Hc').
  apply filter_In in Hc' as [Hc' _]. apply in_map_iff. eauto.
Qed.

(** The sample is never among its own neighbours, and exactly one
    candidate is dropped. *)
Lemma drop_self_spec i cand :
  NoDup (map snd cand) ->
  S (length (drop_self i cand)) = Nat.max 1 (length cand) /\
  NoDup (map snd (drop_self i cand)) /\
  forall c, In c (drop_self i cand) -> In c cand /\ snd c <> i.
Proof.
  intros Hnd. unfold drop_self.
  destruct (existsb (fun c => snd c =? i) cand) eqn:Hex.
  - apply existsb_exists in Hex as (c0 & Hin0 & H0).
    apply Nat.eqb_eq in H0.
    assert (Hin : In i (map snd cand)) by (rewrite <- H0; now apply in_map).
    split; [|split].
    + rewrite filter_one_out by assumption. destruct cand; [contradiction|].
      simpl. lia.
    + now apply NoDup_map_filter.
    + intros c Hc. apply filter_In in Hc as [Hc Hne]. split; [assumption|].
      apply negb_true_iff, Nat.eqb_neq in Hne. exact Hne.
  - split; [|split].
    + destruct cand; simpl; lia.
    + destruct cand as [|c t]; simpl; [constructor|].
      now inversion Hnd.
    + intros c Hc.
      assert (Hin : In c cand) by (destruct cand; [contradiction | now right]).
      split; [assumption|]. intros He.
      assert (existsb (fun c => snd c =? i) cand = true) as Hex'.
      { apply existsb_exists. exists c. split; [assumption|].
        now apply Nat.eqb_eq. }
      congruence.
Qed.

Lemma nth_error_combine_seq {A} (l : list A) s i x :
  nth_error (combine (seq s (length l)) l) i = Some x ->
  fst x = s + i /\ nth_error l i = Some (snd x).
Proof.
  revert s i; induction l as [|a t IH]; intros s i; simpl.
  - destruct i; discriminate.
  - destruct i as [|i]; simpl.
    + intros H; injection H as <-. simpl. split; [lia | reflexivity].
    + intros H. apply IH in H as [H1 H2]. split; [lia | assumption].
Qed.

(** Querying with new rows: one answer per row, each with [n_neighbors]
    distinct reference rows and the distances to them. *)
Lemma kneighbors_Some_spec self train X nb :
  _fit_X self = Some train ->
  kneighbors self (Some X) = Ok nb ->
  check_array X = Ok X /\
  Forall (fun r => Forall (fun r' => length r = length r') train) X /\
  Forall2 (neighbours_of self train) X nb.
Proof.
  intros Hfit. unfold kneighbors. rewrite Hfit.
  destruct (check_array X) as [X'|e] eqn:HX; simpl; [|discriminate].
  assert (X' = X) as ->.
  { unfold check_array in HX. destruct (shape X) as [[n d]|]; [|discriminate].
    destruct (n =? 0); [discriminate|]. destruct (d =? 0); [discriminate|].
    congruence. }
  destruct (Nat.ltb_spec (length train) (n_neighbors self)) as [|Hk];
    [discriminate|].
  destruct (forallb (fun r => forallb (fun r' => length r =? length r') train) X)
    eqn:Hdim; simpl; [|discriminate].
  intros H; injection H as <-. split; [reflexivity|]. split.
  - apply Forall_forall. intros r Hr.
    rewrite forallb_forall in Hdim. specialize (Hdim r Hr).
    rewrite forallb_forall in Hdim. apply Forall_forall. intros r' Hr'.
    now apply Nat.eqb_eq, Hdim.
  - clear HX Hdim. induction X as [|q X IH]; simpl; constructor; [|exact IH].
    split; [now apply nearest_length|]. split; [apply nearest_NoDup|].
    intros c Hc. eapply nearest_In; eassumption.
Qed.

(** Querying the reference set itself: row [i] gets [n_neighbors]
    distinct reference rows, none of which is row [i]. *)
Lemma kneighbors_None_spec self train nb :
  _fit_X self = Some train ->
  kneighbors self None = Ok nb ->
  n_neighbors self < length train /\
  Forall2 (neighbours_of self train) train nb /\
  forall i nbi c, nth_error nb i = Some nbi -> In c nbi -> snd c <> i.
Proof.
  intros Hfit. unfold kneighbors. rewrite Hfit.
  destruct (Nat.ltb_spec (length train) (n_neighbors self + 1)) as [|Hk];
    [discriminate|].
  intros H; injection H as <-. split; [lia|].
  assert (Hrow : forall i q,
             neighbours_of self train q
               (drop_self i (nearest self train (n_neighbors self + 1) q)) /\
             forall c, In c (drop_self i (nearest self train
                                            (n_neighbors self + 1) q)) ->
                       snd c <> i).
  { intros i q.
    destruct (drop_self_spec i _ (nearest_NoDup self train (n_neighbors self + 1) q))
      as (Hlen & Hnd & Hin).
    rewrite (nearest_length self train _ q Hk) in Hlen.
    split; [split; [lia | split; [assumption|]] |].
    - intros c Hc. apply Hin in Hc as [Hc _]. eapply nearest_In; eassumption.
    - intros c Hc. now apply Hin in Hc. }
  split.
  - assert (G : forall (l : TwoDimArray) s,
               Forall2 (neighbours_of self train) l
                 (map (fun iq => drop_self (fst iq)
                        (nearest self train (n_neighbors self + 1) (snd iq)))
                      (combine (seq s (length l)) l))).
    { induction l as [|q l IH]; intros s; simpl; constructor; [|apply IH].
      apply Hrow. }
    apply (G train 0).
  - intros i nbi c Hn Hc.
    rewrite nth_error_map in Hn.
    destruct (nth_error (combine (seq 0 (length train)) train) i)
      as [[j q]|] eqn:Hi; simpl in Hn; [|discriminate].
    injection Hn as <-.
    apply nth_error_combine_seq in Hi as [Hj _]. simpl in Hj. subst j.
    now apply (proj2 (Hrow i q)).
Qed.

(* ------------------------------------------------------------------ *)
(** ** Even slices                                                     *)
(* ------------------------------------------------------------------ *)

Lemma loop_tiles n k packs start :
  tiles start (start + list_sum (map (this_n n k) packs))
    (gen_even_slices_loop n k packs start).
Proof.
  revert start; induction packs as [|i packs IH]; intros start; simpl.
  - rewrite Nat.add_0_r. constructor.
  - fold (this_n n k i).
    destruct (Nat.ltb_spec 0 (this_n n k i)) as [Hpos|Hz].
    + rewrite Nat.add_assoc. constructor; [lia | apply IH].
    + replace (this_n n k i) with 0 by lia. simpl. apply IH.
Qed.

Lemma sum_this_n_prefix n k m :
  list_sum (map (this_n n k) (seq 0 m)) = m * (n / k) + Nat.min m (n mod k).
Proof.
  induction m as [|m IH]; [reflexivity|].
  rewrite seq_S, map_app, list_sum_app, IH.
  cbn [Nat.add map list_sum]. unfold this_n.
  set (q := n / k). set (r := n mod k).
  clearbody q r. clear IH.
  destruct (Nat.ltb_spec m r); unfold list_sum; cbn [fold_right]; lia.
Qed.

Lemma sum_this_n n k :
  0 < k -> list_sum (map (this_n n k) (seq 0 k)) = n.
Proof.
  intros Hk. rewrite sum_this_n_prefix.
  assert (n mod k < k) by (apply Nat.mod_upper_bound; lia).
  rewrite Nat.min_r by lia.
  rewrite (Nat.div_mod_eq n k) at 3. lia.
Qed.

Lemma loop_sizes n k packs start :
  Forall (fun s => n / k <= snd s - fst s <= n / k + 1)
    (gen_even_slices_loop n k packs start).
Proof.
  revert start; induction packs as [|i packs IH]; intros start; simpl;
    [constructor|].
  fold (this_n n k i).
  destruct (Nat.ltb_spec 0 (this_n n k i)) as [Hpos|Hz]; [|apply IH].
  constructor; [|apply IH]. simpl. unfold this_n.
  destruct (i <? n mod k); lia.
Qed.

Lemma loop_count n k packs start :
  k <= n -> 0 < k ->
  length (gen_even_slices_loop n k packs start) = length packs.
Proof.
  intros Hkn Hk.
  assert (1 <= n / k) by (apply Nat.div_le_lower_bound; lia).
  revert start; induction packs as [|i packs IH]; intros start; simpl;
    [reflexivity|].
  fold (this_n n k i).
  destruct (Nat.ltb_spec 0 (this_n n k i)) as [Hpos|Hz].
  - simpl. now rewrite IH.
  - unfold this_n in Hz. lia.
Qed.

(** With at least one pack, the slices tile the rows [0 .. n). *)
Lemma gen_even_slices_tiles n (n_packs : Z) :
  (1 <= n_packs)%Z ->
  exists slices,
    gen_even_slices n n_packs = Ok slices /\ tiles 0 n slices.
Proof.
  intros Hp. unfold gen_even_slices.
  destruct (Z.ltb_spec n_packs 1) as [|_]; [lia|].
  eexists; split; [reflexivity|].
  pose proof (loop_tiles n (Z.to_nat n_packs) (seq 0 (Z.to_nat n_packs)) 0) as H.
  rewrite sum_this_n in H by lia. exact H.
Qed.

Lemma firstn_firstn_skipn {A} m n (l : list A) :
  firstn m l ++ firstn n (skipn m l) = firstn (m + n) l.
Proof.
  revert l; induction m as [|m IH]; intros l; [reflexivity|].
  destruct l as [|a l]; simpl.
  - now rewrite firstn_nil.
  - now rewrite IH.
Qed.

(** Slicing by a tiling and concatenating gives the rows back in their
    original order. *)
Lemma tiles_concat {A} (L : list A) a b slices :
  tiles a b slices ->
  concat (map (slice_of L) slices) = firstn (b - a) (skipn a L).
Proof.
  induction 1 as [a|a c b l Hac Ht IH]; simpl.
  - now rewrite Nat.sub_diag.
  - rewrite IH. unfold slice_of; simpl.
    assert (Hcb : c <= b).
    { clear -Ht. induction Ht; lia. }
    replace (skipn c L) with (skipn (c - a) (skipn a L))
      by (rewrite skipn_skipn; f_equal; lia).
    rewrite firstn_firstn_skipn. f_equal. lia.
Qed.

Lemma tiles_all {A} (L : list A) slices :
  tiles 0 (length L) slices -> concat (map (slice_of L) slices) = L.
Proof.
  intros H. rewrite (tiles_concat L _ _ _ H). simpl.
  rewrite Nat.sub_0_r. apply firstn_all.
Qed.

Lemma tiles_nonempty a b slices :
  tiles a b slices -> a < b -> slices <> [].
Proof.
  intros H Hab. destruct H; [lia | discriminate].
Qed.

Lemma slice_of_combine {A B} (X : list A) (Y : list B) s :
  combine (slice_of X s) (slice_of Y s) = slice_of (combine X Y) s.
Proof.
  unfold slice_of. rewrite <- combine_firstn. f_equal.
  generalize (fst s) as n. clear s.
  intros n; revert X Y; induction n as [|n IH]; intros X Y; [reflexivity|].
  destruct X as [|x X]; [reflexivity|].
  destruct Y as [|y Y]; simpl.
  - now rewrite combine_nil.
  - apply IH.
Qed.

Lemma shape_length X n d : shape X = Some (n, d) -> n = length X.
Proof.
  unfold shape. destruct X as [|r X];
    [intros H; injection H as <- <-; reflexivity|].
  destruct (forallb _ _);
    [intros H; injection H as <- <-; reflexivity | discriminate].
Qed.

Lemma shape_rows X n d r :
  shape X = Some (n, d) -> In r X -> length r = d.
Proof.
  unfold shape. destruct X as [|r0 X]; [contradiction|].
  destruct (forallb (fun r' => length r' =? length r0) (r0 :: X)) eqn:H;
    [|discriminate].
  intros E Hin; injection E as _ <-.
  rewrite forallb_forall in H. now apply Nat.eqb_eq, H.
Qed.

Lemma check_array_Ok X X' :
  check_array X = Ok X' ->
  X' = X /\ X <> [] /\ exists n d, shape X = Some (n, d) /\ 0 < n /\ 0 < d.
Proof.
  unfold check_array. destruct (shape X) as [[n d]|] eqn:Hs; [|discriminate].
  destruct (Nat.eqb_spec n 0); [discriminate|].
  destruct (Nat.eqb_spec d 0); [discriminate|].
  intros H; injection H as <-. split; [reflexivity|]. split.
  - intros ->. simpl in Hs. congruence.
  - exists n, d. split; [reflexivity|]. lia.
Qed.

(* ------------------------------------------------------------------ *)
(** ** The angle-based factor, row by row                              *)
(* ------------------------------------------------------------------ *)

Lemma take_in_range {A} (X : list A) ind d :
  Forall (fun i => i < length X) ind ->
  take X ind = Ok (map (fun i => nth i X d) ind).
Proof.
  intros H. unfold take.
  rewrite (mapM_ext_in _ (fun i => Ok (nth i X d))).
  - apply mapM_pure.
  - intros i Hi. rewrite Forall_forall in H. specialize (H i Hi).
    destruct (nth_error X i) as [r|] eqn:Hn.
    + now rewrite (nth_error_nth _ _ d Hn).
    + apply nth_error_None in Hn. lia.
Qed.

Lemma abof_row_pairs X_train p ind_p :
  in_range X_train ind_p ->
  abof_row X_train (p, ind_p) =
  mapM (fun ab => abof_ratio [fst ab; snd ab])
       (unordered_pairs (diffs X_train p ind_p)).
Proof.
  intros Hr. unfold abof_row.
  rewrite (take_in_range X_train ind_p [] Hr). simpl.
  rewrite map_map, combinations_2, mapM_map. reflexivity.
Qed.

Lemma abof_row_nonzero X_train p ind_p :
  in_range X_train ind_p ->
  Forall (fun v => ~ is_zero v) (diffs X_train p ind_p) ->
  abof_row X_train (p, ind_p) =
  Ok (map ratio_of (unordered_pairs (diffs X_train p ind_p))).
Proof.
  intros Hr Hnz. rewrite abof_row_pairs by assumption.
  rewrite (mapM_ext_in _ (fun ab => Ok (ratio_of ab))).
  - apply mapM_pure.
  - intros ab Hab. apply unordered_pairs_In in Hab as [Ha Hb].
    rewrite Forall_forall in Hnz. now apply abof_ratio_Ok; apply Hnz.
Qed.

Lemma abof_row_raises X_train p ind_p e :
  in_range X_train ind_p ->
  abof_row X_train (p, ind_p) = Raise e ->
  e = FloatingPointError /\ Exists is_zero (diffs X_train p ind_p).
Proof.
  intros Hr. rewrite abof_row_pairs by assumption. intros H.
  apply mapM_Raise_inv in H as (ab & Hab & He).
  split; [eapply no_infinity_in_ratio; eassumption|].
  apply unordered_pairs_In in Hab as [Ha Hb].
  destruct (is_zero_dec (fst ab)) as [Hz|Hz];
    [apply Exists_exists; eauto|].
  destruct (is_zero_dec (snd ab)) as [Hz'|Hz'];
    [apply Exists_exists; eauto|].
  rewrite abof_ratio_Ok in He by assumption. discriminate.
Qed.

Lemma abof_row_zero X_train p ind_p :
  in_range X_train ind_p ->
  2 <= length ind_p ->
  Exists is_zero (diffs X_train p ind_p) ->
  abof_row X_train (p, ind_p) = Raise FloatingPointError.
Proof.
  intros Hr Hlen Hz. rewrite abof_row_pairs by assumption.
  apply Exists_exists in Hz as (v & Hv & Hz).
  destruct (unordered_pairs_cover (diffs X_train p ind_p) v)
    as (ab & Hab & Hfs); [unfold diffs; now rewrite length_map | assumption |].
  apply mapM_Raise_intro with (a := ab); [|assumption|].
  - intros ab' e' _ He. eapply no_infinity_in_ratio; eassumption.
  - apply abof_ratio_zero. destruct Hfs as [->| ->]; auto.
Qed.

(** One sample: with two neighbours or more, none of them at the sample,
    the factor is the variance that the spec describes; otherwise the
    computation is an invalid floating-point operation. *)
Lemma row_score_cases X_train p ind_p :
  in_range X_train ind_p ->
  (2 <= length ind_p /\
   Forall (fun v => ~ is_zero v) (diffs X_train p ind_p) /\
   row_score X_train (p, ind_p) = Ok (abof_spec X_train p ind_p))
  \/
  ((length ind_p < 2 \/ Exists is_zero (diffs X_train p ind_p)) /\
   row_score X_train (p, ind_p) = Raise FloatingPointError).
Proof.
  intros Hr. unfold row_score.
  destruct (le_lt_dec 2 (length ind_p)) as [Hlen|Hlen].
  - destruct (Exists_dec is_zero (diffs X_train p ind_p) is_zero_dec)
      as [Hz|Hz].
    + right. split; [now right|].
      now rewrite abof_row_zero.
    + left. apply Forall_Exists_neg in Hz.
      split; [assumption|]. split; [assumption|].
      rewrite abof_row_nonzero by assumption. simpl.
      rewrite var_nonempty; [reflexivity|].
      intros Hnil. apply map_eq_nil in Hnil.
      apply unordered_pairs_nil_iff in Hnil.
      unfold diffs in Hnil. rewrite length_map in Hnil. lia.
  - right. split; [now left|].
    rewrite abof_row_pairs by assumption.
    assert (unordered_pairs (diffs X_train p ind_p) = []) as ->.
    { apply unordered_pairs_nil_iff. unfold diffs. now rewrite length_map. }
    reflexivity.
Qed.

Lemma row_score_raises_only X_train p ind_p e :
  in_range X_train ind_p ->
  row_score X_train (p, ind_p) = Raise e -> e = FloatingPointError.
Proof.
  intros Hr H.
  destruct (row_score_cases X_train p ind_p Hr) as [(_ & _ & E)|(_ & E)]; congruence.
Qed.

Lemma In_slice_of {A} (L : list A) s a : In a (slice_of L s) -> In a L.
Proof.
  unfold slice_of. intros H. apply In_firstn in H.
  rewrite <- (firstn_skipn (fst s) L). apply in_or_app. now right.
Qed.

(** [_abof] on any part of the rows is the row-by-row computation. *)
Lemma _abof_rows X_train X ind :
  Forall (in_range X_train) ind ->
  _abof X_train X ind = mapM (row_score X_train) (combine X ind).
Proof.
  intros Hr. unfold _abof, np.var_axis1.
  assert (Hin : forall a, In a (combine X ind) -> in_range X_train (snd a)).
  { intros [p ip] H. apply in_combine_r in H.
    rewrite Forall_forall in Hr. now apply Hr. }
  apply two_passes with (e := FloatingPointError).
  - intros [p ip] e' Ha He. apply abof_row_raises in He; [tauto|].
    exact (Hin _ Ha).
  - intros [p ip] b e' Ha _ He. eapply var_no_NonFinite; eassumption.
Qed.

Lemma Forall_slice_of {A} (P : A -> Prop) (L : list A) s :
  Forall P L -> Forall P (slice_of L s).
Proof.
  rewrite !Forall_forall. intros H a Ha. apply H.
  eapply In_slice_of; eassumption.
Qed.

(** [anomaly_score], for any number of jobs: the row-by-row factors of the
    query rows in their order, negated. *)
Lemma anomaly_score_rows (self : FastABOD.t) X X_train nb n d :
  (1 <= FastABOD.n_jobs self)%Z ->
  _fit_X (FastABOD._knn self) = Some X_train ->
  kneighbors (FastABOD._knn self) X = Ok nb ->
  shape (query_rows X_train X) = Some (n, d) ->
  0 < n ->
  Forall (in_range X_train) (map (map snd) nb) ->
  FastABOD.anomaly_score self X =
  (s <- on_FloatingPointError
          (mapM (row_score X_train)
                (combine (query_rows X_train X) (map (map snd) nb)))
          training_sample_error ;;
   Ok (map Qcopp s)).
Proof.
  intros Hj Hfit Hnb Hshape Hn Hr.
  unfold FastABOD.anomaly_score. rewrite Hnb. simpl.
  unfold FastABOD.X_. rewrite Hfit. simpl.
  set (ind := map (map snd) nb) in *.
  set (Xq := query_rows X_train X) in *.
  assert (bind (match X with None => Ok X_train | Some X0 => Ok X0 end)
            = bind (Ok Xq)) as -> by (destruct X; reflexivity).
  simpl. rewrite Hshape.
  pose proof (shape_length _ _ _ Hshape) as Hlen.
  unfold Parallel.
  destruct (Z.eqb_spec (FastABOD.n_jobs self) 0) as [|_]; [lia|].
  destruct (gen_even_slices_tiles n _ Hj) as (slices & -> & Ht). simpl.
  set (L := combine Xq ind).
  assert (Hparts :
    mapM (fun s => _abof X_train (slice_of Xq s) (slice_of ind s)) slices =
    mapM (mapM (row_score X_train)) (map (slice_of L) slices)).
  { rewrite mapM_map. apply mapM_ext_in. intros s _.
    rewrite _abof_rows by now apply Forall_slice_of.
    now rewrite slice_of_combine. }
  rewrite Hparts.
  assert (Hcat : concat (map (slice_of L) slices) = L).
  { rewrite (tiles_concat L _ _ _ Ht). simpl. rewrite Nat.sub_0_r.
    apply firstn_all2. unfold L. rewrite length_combine. lia. }
  pose proof (mapM_concat (row_score X_train) (map (slice_of L) slices)) as Hc.
  rewrite Hcat in Hc. rewrite <- Hc.
  destruct (mapM (mapM (row_score X_train)) (map (slice_of L) slices))
    as [r|e] eqn:Hm; simpl.
  - apply mapM_length in Hm. rewrite length_map in Hm.
    destruct r as [|r0 r]; [|reflexivity].
    exfalso. apply (tiles_nonempty _ _ _ Ht); [assumption|].
    destruct slices; [reflexivity | discriminate].
  - destruct e; reflexivity.
Qed.

(* ------------------------------------------------------------------ *)
(** ** Fitted detectors and coinciding points                          *)
(* ------------------------------------------------------------------ *)

Lemma coincidesb_spec X_train Xq nb :
  coincidesb X_train Xq nb = true <-> coincides X_train Xq nb.
Proof.
  unfold coincidesb, coincides.
  rewrite existsb_exists, Exists_exists.
  split; intros (pn & Hin & H); exists pn; (split; [assumption|]).
  - apply existsb_exists in H as (c & Hc & H). apply Exists_exists.
    exists c. split; [assumption|].
    destruct (nth_error X_train (snd c)) as [a|]; [|discriminate].
    unfold row_eqb in H.
    destruct (list_eq_dec Qc_eq_dec a (fst pn)); [congruence | discriminate].
  - apply Exists_exists in H as (c & Hc & H). apply existsb_exists.
    exists c. split; [assumption|]. rewrite H. unfold row_eqb.
    destruct (list_eq_dec Qc_eq_dec (fst pn) (fst pn)); congruence.
Qed.

Lemma fitted_on_inv knn X_train :
  fitted_on knn X_train ->
  _fit_X knn = Some X_train /\ check_array X_train = Ok X_train /\
  0 < n_neighbors knn.
Proof.
  intros (knn0 & H). unfold NearestNeighbors.fit in H.
  destruct (check_array X_train) as [X'|e] eqn:HX; simpl in H;
    [|discriminate].
  destruct (check_array_Ok _ _ HX) as (-> & _).
  destruct (Nat.eqb_spec (n_neighbors knn0) 0); [discriminate|].
  injection H as <-. simpl. repeat split; lia.
Qed.

Lemma neighbours_in_range knn X_train Xq nb :
  Forall2 (neighbours_of knn X_train) Xq nb ->
  Forall (in_range X_train) (map (map snd) nb).
Proof.
  induction 1 as [|q nbq Xq nb (_ & _ & Hq) _ IH]; simpl; constructor;
    [|exact IH].
  apply Forall_forall. intros i Hi.
  apply in_map_iff in Hi as (c & <- & Hc). now apply Hq.
Qed.

(** What a successful neighbour query of a fitted index guarantees. *)
Lemma kneighbors_fitted knn X_train X nb :
  fitted_on knn X_train ->
  kneighbors knn X = Ok nb ->
  Forall2 (neighbours_of knn X_train) (query_rows X_train X) nb /\
  (exists n d, shape (query_rows X_train X) = Some (n, d) /\ 0 < n) /\
  Forall (fun p => Forall (fun a => length a = length p) X_train)
         (query_rows X_train X).
Proof.
  intros Hf Hnb. destruct (fitted_on_inv _ _ Hf) as (Hfit & Hchk & _).
  destruct (check_array_Ok _ _ Hchk) as (_ & _ & n & d & Hs & Hn & _).
  destruct X as [X|]; simpl.
  - destruct (kneighbors_Some_spec _ _ _ _ Hfit Hnb) as (HX & Hw & H2).
    split; [assumption|]. split.
    + destruct (check_array_Ok _ _ HX) as (_ & _ & n' & d' & Hs' & Hn' & _).
      eauto.
    + eapply Forall_impl; [|exact Hw]. intros p Hp.
      eapply Forall_impl; [|exact Hp]. intros a Ha. now symmetry.
  - destruct (kneighbors_None_spec _ _ _ Hfit Hnb) as (_ & H2 & _).
    split; [assumption|]. split; [eauto|].
    apply Forall_forall. intros p Hp. apply Forall_forall. intros a Ha.
    rewrite (shape_rows _ _ _ _ Hs Ha), (shape_rows _ _ _ _ Hs Hp).
    reflexivity.
Qed.

(** A difference vector of a sample vanishes exactly when the sample is
    the neighbour. *)
Lemma diffs_zero_iff X_train p ind_p :
  in_range X_train ind_p ->
  Forall (fun a => length a = length p) X_train ->
  (Exists is_zero (diffs X_train p ind_p) <->
   Exists (fun i => nth_error X_train i = Some p) ind_p).
Proof.
  intros Hr Hw. unfold diffs. rewrite Exists_map, !Exists_exists.
  assert (G : forall i, In i ind_p ->
            (is_zero (vsub (nth i X_train []) p) <->
             nth_error X_train i = Some p)).
  { intros i Hi. unfold in_range in Hr.
    rewrite Forall_forall in Hr. specialize (Hr i Hi).
    destruct (nth_error X_train i) as [a|] eqn:Hn;
      [|apply nth_error_None in Hn; lia].
    replace (nth i X_train []) with a
      by (symmetry; exact (nth_error_nth _ _ [] Hn)).
    rewrite Forall_forall in Hw.
    rewrite (vsub_zero a p (Hw a (nth_error_In _ _ Hn))).
    split; [intros ->; reflexivity | intros E; now injection E]. }
  split; intros (i & Hi & H); exists i; (split; [assumption|]);
    now apply (G i Hi).
Qed.

(** All rows, in order: either every row has its factor, or the first
    failing row is an invalid floating-point operation. *)
Lemma mapM_row_score_cases X_train L :
  Forall (in_range X_train) (map snd L) ->
  (mapM (row_score X_train) L =
     Ok (map (fun pi => abof_spec X_train (fst pi) (snd pi)) L) /\
   Forall (fun pi => 2 <= length (snd pi) /\
                     ~ Exists is_zero (diffs X_train (fst pi) (snd pi))) L)
  \/
  (mapM (row_score X_train) L = Raise FloatingPointError /\
   Exists (fun pi => length (snd pi) < 2 \/
                     Exists is_zero (diffs X_train (fst pi) (snd pi))) L).
Proof.
  induction L as [|[p ip] L IH]; simpl; intros Hr.
  - left. split; constructor.
  - inversion Hr as [|? ? Hp HL]; subst.
    destruct (row_score_cases X_train p ip Hp) as [(Hlen & Hnz & E)|(Hbad & E)].
    + rewrite E. simpl. destruct (IH HL) as [(E' & HF)|(E' & HE)].
      * left. rewrite E'. split; [reflexivity|].
        constructor; [|assumption]. split; [assumption|].
        now apply Forall_Exists_neg.
      * right. rewrite E'. split; [reflexivity|]. now apply Exists_cons_tl.
    + right. rewrite E. split; [reflexivity|]. now apply Exists_cons_hd.
Qed.

Lemma combine_map_r {A B C} (f : B -> C) (X : list A) (Y : list B) :
  combine X (map f Y) = map (fun xy => (fst xy, f (snd xy))) (combine X Y).
Proof.
  revert Y; induction X as [|x X IH]; intros [|y Y]; simpl;
    [reflexivity | reflexivity | reflexivity |]. now rewrite IH.
Qed.

Lemma map_snd_combine_map {A} (Xq : list A) (nb : list (list (Qc * nat))) :
  Forall (fun l => In l (map (map snd) nb))
         (map snd (combine Xq (map (map snd) nb))).
Proof.
  apply Forall_forall. intros l Hl.
  apply in_map_iff in Hl as ([p ip] & <- & H).
  apply in_combine_r in H. exact H.
Qed.

Lemma in_range_rows X_train (Xq : TwoDimArray) (nb : list (list (Qc * nat))) :
  Forall (in_range X_train) (map (map snd) nb) ->
  Forall (in_range X_train) (map snd (combine Xq (map (map snd) nb))).
Proof.
  intros H. apply Forall_forall. intros l Hl.
  pose proof (map_snd_combine_map Xq nb) as G.
  rewrite Forall_forall in G, H. apply H, G, Hl.
Qed.

Lemma Exists_iff_in {A} (P Q : A -> Prop) l :
  (forall a, In a l -> (P a <-> Q a)) -> (Exists P l <-> Exists Q l).
Proof.
  intros H. rewrite !Exists_exists.
  split; intros (a & Ha & Hp); exists a; (split; [assumption|]);
    now apply (H a Ha).
Qed.

Lemma Forall2_In_r {A B} (P : A -> B -> Prop) l l' b :
  Forall2 P l l' -> In b l' -> exists a, In a l /\ P a b.
Proof.
  induction 1 as [|x y l l' Hxy _ IH]; simpl; [contradiction|].
  intros [<-|Hb]; [eauto|]. destruct (IH Hb) as (a & Ha & Hp). eauto.
Qed.

Lemma abof_rows_map Xq nb :
  abof_rows Xq nb =
  map (fun pn => (fst pn, map snd (snd pn))) (combine Xq nb).
Proof. apply combine_map_r. Qed.

Section Fitted.

Variable knn : NearestNeighbors.t.
Variable X_train : TwoDimArray.
Variable X : option TwoDimArray.
Variable nb : list (list (Qc * nat)).
Hypothesis Hfitted : fitted_on knn X_train.
Hypothesis Hnb : kneighbors knn X = Ok nb.

Let Xq := query_rows X_train X.

Lemma zero_diff_iff_coincides :
  Exists (fun pi => Exists is_zero (diffs X_train (fst pi) (snd pi)))
         (abof_rows Xq nb)
  <-> coincides X_train Xq nb.
Proof.
  destruct (kneighbors_fitted _ _ _ _ Hfitted Hnb) as (H2 & _ & Hw).
  pose proof (neighbours_in_range _ _ _ _ H2) as Hr.
  rewrite abof_rows_map, Exists_map. unfold coincides.
  apply Exists_iff_in. intros [p nbp] Hin; simpl.
  rewrite diffs_zero_iff.
  - now rewrite Exists_map.
  - rewrite Forall_forall in Hr. apply Hr. apply in_map.
    eapply in_combine_r; eassumption.
  - fold Xq in Hw. rewrite Forall_forall in Hw. apply Hw.
    eapply in_combine_l; eassumption.
Qed.

Lemma abof_rows_length pi :
  In pi (abof_rows Xq nb) -> length (snd pi) = n_neighbors knn.
Proof.
  destruct (kneighbors_fitted _ _ _ _ Hfitted Hnb) as (H2 & _ & _).
  rewrite abof_rows_map. intros H.
  apply in_map_iff in H as ([p nbp] & <- & Hin). simpl.
  rewrite length_map. apply in_combine_r in Hin.
  destruct (Forall2_In_r _ _ _ _ H2 Hin) as (q & _ & Hlen & _).
  exact Hlen.
Qed.

Lemma abof_rows_count : length (abof_rows Xq nb) = length Xq.
Proof.
  destruct (kneighbors_fitted _ _ _ _ Hfitted Hnb) as (H2 & _ & _).
  unfold abof_rows. rewrite length_combine, length_map.
  apply Forall2_length in H2. fold Xq in H2. lia.
Qed.

End Fitted.

(** The outcome of [anomaly_score] on a fitted detector whose neighbour
    query succeeds: the negated factors of all query rows, or the
    training-sample error when some row has fewer than two neighbours or
    a zero difference vector. *)
Lemma anomaly_score_outcome (self : FastABOD.t) X X_train nb :
  (1 <= FastABOD.n_jobs self)%Z ->
  fitted_on (FastABOD._knn self) X_train ->
  kneighbors (FastABOD._knn self) X = Ok nb ->
  let L := abof_rows (query_rows X_train X) nb in
  (FastABOD.anomaly_score self X =
     Ok (map (fun pi => (- abof_spec X_train (fst pi) (snd pi))%Qc) L) /\
   Forall (fun pi => 2 <= length (snd pi) /\
                     ~ Exists is_zero (diffs X_train (fst pi) (snd pi))) L)
  \/
  (FastABOD.anomaly_score self X = Raise training_sample_error /\
   Exists (fun pi => length (snd pi) < 2 \/
                     Exists is_zero (diffs X_train (fst pi) (snd pi))) L).
Proof.
  intros Hj Hf Hnb L.
  destruct (fitted_on_inv _ _ Hf) as (Hfit & _ & _).
  destruct (kneighbors_fitted _ _ _ _ Hf Hnb) as (H2 & (n & d & Hs & Hn) & _).
  pose proof (neighbours_in_range _ _ _ _ H2) as Hr.
  rewrite (anomaly_score_rows self X X_train nb n d Hj Hfit Hnb Hs Hn Hr).
  fold (abof_rows (query_rows X_train X) nb). fold L.
  destruct (mapM_row_score_cases X_train L) as [(E & HF)|(E & HE)].
  - now apply in_range_rows.
  - left. rewrite E. simpl. rewrite map_map. split; [reflexivity | assumption].
  - right. rewrite E. split; [reflexivity | assumption].
Qed.

(** When the neighbour query raises, so does [anomaly_score], with the
    same exception, which is not the training-sample error. *)
Lemma kneighbors_raises knn X e :
  kneighbors knn X = Raise e -> e <> training_sample_error.
Proof.
  unfold kneighbors, training_sample_error.
  destruct (_fit_X knn) as [train|]; [|intros H; injection H as <-; discriminate].
  destruct X as [X|].
  - unfold check_array. destruct (shape X) as [[n d]|]; simpl;
      [|intros H; injection H as <-; discriminate].
    destruct (n =? 0); simpl; [intros H; injection H as <-; discriminate|].
    destruct (d =? 0); simpl; [intros H; injection H as <-; discriminate|].
    destruct (length train <? n_neighbors knn);
      [intros H; injection H as <-; discriminate|].
    destruct (negb _); [intros H; injection H as <-; discriminate | discriminate].
  - destruct (length train <? n_neighbors knn + 1);
      [intros H; injection H as <-; discriminate | discriminate].
Qed.

Lemma anomaly_score_kneighbors_raises (self : FastABOD.t) X e :
  kneighbors (FastABOD._knn self) X = Raise e ->
  FastABOD.anomaly_score self X = Raise e.
Proof.
  intros H. unfold FastABOD.anomaly_score. now rewrite H.
Qed.

(* ------------------------------------------------------------------ *)
(** ** Examples                                                        *)
(* ------------------------------------------------------------------ *)

Lemma ex_knn_fitted k : 0 < k -> fitted_on (ex_knn k) ex_train.
Proof.
  intros Hk. exists (ex_knn0 k). unfold NearestNeighbors.fit.
  change (check_array ex_train) with (Ok ex_train). simpl.
  destruct (Nat.eqb_spec k 0); [lia | reflexivity].
Qed.

Lemma of_Z_inj a b : of_Z a = of_Z b -> a = b.
Proof.
  unfold of_Z. rewrite Q2Qc_eq_iff. unfold Qeq; simpl. lia.
Qed.


(* ------------------------------------------------------------------ *)
(** ** FastABOD: scores, slices, the training-sample error             *)
(* ------------------------------------------------------------------ *)

Lemma anomaly_score_Ok_n_jobs (self : FastABOD.t) X s :
  FastABOD.anomaly_score self X = Ok s -> (1 <= FastABOD.n_jobs self)%Z.
Proof.
  unfold FastABOD.anomaly_score. intros H.
  destruct (Z.le_gt_cases 1 (FastABOD.n_jobs self)) as [|Hlt]; [assumption|].
  exfalso.
  destruct (kneighbors (FastABOD._knn self) X); simpl in H; [|discriminate].
  destruct (match X with None => FastABOD.X_ self | Some X0 => Ok X0 end);
    simpl in H; [|discriminate].
  destruct (FastABOD.X_ self); simpl in H; [|discriminate].
  destruct (shape a0) as [[n d]|]; [|discriminate].
  unfold Parallel, gen_even_slices in H.
  destruct (FastABOD.n_jobs self =? 0)%Z; simpl in H; [discriminate|].
  destruct (Z.ltb_spec (FastABOD.n_jobs self) 1); [discriminate | lia].
Qed.

Lemma anomaly_score_bad_n_jobs (self : FastABOD.t) X :
  (FastABOD.n_jobs self < 1)%Z ->
  FastABOD.anomaly_score self X <> Raise training_sample_error.
Proof.
  intros Hlt. unfold FastABOD.anomaly_score.
  destruct (kneighbors (FastABOD._knn self) X) as [nb|e] eqn:Hnb; simpl.
  - assert (HX : forall e, FastABOD.X_ self = Raise e ->
                           e <> training_sample_error).
    { intros e. unfold FastABOD.X_, getattr.
      destruct (_fit_X (FastABOD._knn self)); [discriminate|].
      intros H; injection H as <-. discriminate. }
    assert (G : forall Xq X_train,
               match shape Xq with
               | Some (n_samples, _) =>
                   result <-
                     match Parallel (FastABOD.n_jobs self)
                             (fun s => _abof X_train (slice_of Xq s)
                                         (slice_of (map (map snd) nb) s))
                             (gen_even_slices n_samples (FastABOD.n_jobs self))
                     with
                     | Raise FloatingPointError =>
                         Raise (ValueError [Lit "X must not contain training samples"])
                     | r => r
                     end ;;
                   c <- np.concatenate result ;; Ok (map Qcopp c)
               | None => Raise (ValueError [Lit "not enough values to unpack"])
               end <> Raise training_sample_error).
    { intros Xq X_train. destruct (shape Xq) as [[n d]|]; [|discriminate].
      unfold Parallel, gen_even_slices.
      destruct (FastABOD.n_jobs self =? 0)%Z; simpl; [discriminate|].
      destruct (Z.ltb_spec (FastABOD.n_jobs self) 1); [discriminate | lia]. }
    destruct (FastABOD.X_ self) as [X_train|e] eqn:E.
    + destruct X as [X|]; simpl; apply G.
    + destruct X as [X|]; simpl; intros H; injection H as ->;
        now apply (HX _ eq_refl).
  - intros H; injection H as ->. now apply kneighbors_raises in Hnb.
Qed.

Lemma kneighbors_Ok_fit_X knn X nb :
  kneighbors knn X = Ok nb -> exists train, _fit_X knn = Some train.
Proof.
  unfold kneighbors. destruct (_fit_X knn); [eauto | discriminate].
Qed.

(** Two detectors with the same index and at least one job each score
    alike, row for row and error for error. *)
Lemma anomaly_score_n_jobs (self self' : FastABOD.t) X :
  FastABOD._knn self = FastABOD._knn self' ->
  (1 <= FastABOD.n_jobs self)%Z -> (1 <= FastABOD.n_jobs self')%Z ->
  FastABOD.anomaly_score self X = FastABOD.anomaly_score self' X.
Proof.
  intros Hk Hj Hj'.
  destruct (kneighbors (FastABOD._knn self) X) as [nb|e] eqn:Hnb.
  2:{ rewrite (anomaly_score_kneighbors_raises self X e Hnb).
      rewrite Hk in Hnb.
      now rewrite (anomaly_score_kneighbors_raises self' X e Hnb). }
  destruct (kneighbors_Ok_fit_X _ _ _ Hnb) as (train & Hfit).
  assert (H2 : Forall2 (neighbours_of (FastABOD._knn self) train)
                 (query_rows train X) nb /\ query_rows train X <> []).
  { destruct X as [X|]; simpl.
    - destruct (kneighbors_Some_spec _ _ _ _ Hfit Hnb) as (HX & _ & H2).
      split; [assumption|]. now destruct (check_array_Ok _ _ HX) as (_ & ? & _).
    - destruct (kneighbors_None_spec _ _ _ Hfit Hnb) as (Hlt & H2 & _).
      split; [assumption|]. intros ->. simpl in Hlt. lia. }
  destruct H2 as (H2 & Hne).
  pose proof (neighbours_in_range _ _ _ _ H2) as Hr.
  destruct (shape (query_rows train X)) as [[n d]|] eqn:Hs.
  - assert (Hn : 0 < n).
    { rewrite (shape_length _ _ _ Hs).
      destruct (query_rows train X); [congruence | simpl; lia]. }
    rewrite (anomaly_score_rows self X train nb n d Hj Hfit Hnb Hs Hn Hr).
    rewrite Hk in Hfit, Hnb.
    now rewrite (anomaly_score_rows self' X train nb n d Hj' Hfit Hnb Hs Hn Hr).
  - unfold FastABOD.anomaly_score, FastABOD.X_.
    rewrite <- Hk, Hnb, Hfit. simpl.
    destruct X as [X|]; simpl in *; rewrite Hs; reflexivity.
Qed.

Lemma slice_of_map {A B} (f : A -> B) (l : list A) s :
  slice_of (map f l) s = map f (slice_of l s).
Proof.
  unfold slice_of. now rewrite skipn_map, firstn_map.
Qed.

Lemma mapM_firstn {A B} (f : A -> result B) l bs n :
  mapM f l = Ok bs -> mapM f (firstn n l) = Ok (firstn n bs).
Proof.
  rewrite !mapM_Ok_Forall2. intros H; revert n.
  induction H as [|a b l bs Hab _ IH]; intros [|n]; simpl;
    constructor; auto.
Qed.

Lemma mapM_skipn {A B} (f : A -> result B) l bs n :
  mapM f l = Ok bs -> mapM f (skipn n l) = Ok (skipn n bs).
Proof.
  rewrite !mapM_Ok_Forall2. intros H; revert n.
  induction H as [|a b l bs Hab H IH]; intros [|n]; simpl;
    try constructor; auto.
Qed.

Lemma mapM_slice_of {A B} (f : A -> result B) l bs s :
  mapM f l = Ok bs -> mapM f (slice_of l s) = Ok (slice_of bs s).
Proof.
  intros H. unfold slice_of. now apply mapM_firstn, mapM_skipn.
Qed.

Lemma map_Qcopp_involutive (l : OneDimArray) : map Qcopp (map Qcopp l) = l.
Proof.
  rewrite map_map. rewrite <- (map_id l) at 2.
  apply map_ext. intros x. ring.
Qed.

(** The scores and the slices.  On a fitted detector whose neighbour
    query has returned, [anomaly_score] returns as soon as [_abof] returns
    on every slice, and the scores it returns are, slice by slice, the
    negated factors that [_abof] computes for the rows of the slice alone,
    in the order of the rows. *)
Lemma anomaly_score_slices (self : FastABOD.t) X X_train nb :
  (1 <= FastABOD.n_jobs self)%Z ->
  fitted_on (FastABOD._knn self) X_train ->
  kneighbors (FastABOD._knn self) X = Ok nb ->
  exists slices,
    gen_even_slices (length (query_rows X_train X)) (FastABOD.n_jobs self)
    = Ok slices /\
    (forall scores,
        FastABOD.anomaly_score self X = Ok scores ->
        length scores = length (query_rows X_train X) /\
        concat (map (slice_of scores) slices) = scores /\
        Forall (fun s =>
                  _abof X_train (slice_of (query_rows X_train X) s)
                        (slice_of (map (map snd) nb) s)
                  = Ok (map Qcopp (slice_of scores s))) slices) /\
    (Forall (fun s =>
               exists r,
                 _abof X_train (slice_of (query_rows X_train X) s)
                       (slice_of (map (map snd) nb) s) = Ok r) slices ->
     exists scores, FastABOD.anomaly_score self X = Ok scores).
Proof.
  intros Hj Hf Hnb.
  destruct (fitted_on_inv _ _ Hf) as (Hfit & _ & _).
  destruct (kneighbors_fitted _ _ _ _ Hf Hnb) as (H2 & (n & d & Hs & Hn) & _).
  pose proof (neighbours_in_range _ _ _ _ H2) as Hr.
  pose proof (abof_rows_count _ _ _ _ Hf Hnb) as Hcount.
  unfold abof_rows in Hcount.
  pose proof (shape_length _ _ _ Hs) as Hlen.
  rewrite (anomaly_score_rows self X X_train nb n d Hj Hfit Hnb Hs Hn Hr).
  set (Xq := query_rows X_train X) in *.
  set (ind := map (map snd) nb) in *.
  set (L := combine Xq ind) in *.
  destruct (gen_even_slices_tiles (length Xq) _ Hj) as (slices & E & Ht).
  exists slices. split; [exact E|].
  assert (Hpart : forall s,
             _abof X_train (slice_of Xq s) (slice_of ind s) =
             mapM (row_score X_train) (slice_of L s)).
  { intros s. rewrite _abof_rows by now apply Forall_slice_of.
    unfold L. now rewrite slice_of_combine. }
  split.
  - intros scores H.
    destruct (mapM (row_score X_train) L) as [rs|e] eqn:Hrs;
      [|destruct e; discriminate].
    cbn [on_FloatingPointError bind] in H. apply Ok_inj in H. subst scores.
    pose proof (mapM_length _ _ _ Hrs) as Hl.
    split; [rewrite length_map; lia|]. split.
    + apply tiles_all. rewrite length_map, Hl, Hcount. exact Ht.
    + apply Forall_forall. intros s _.
      rewrite Hpart, slice_of_map, map_Qcopp_involutive.
      now apply mapM_slice_of.
  - intros Hall.
    destruct (mapM_total (mapM (row_score X_train)) (map (slice_of L) slices))
      as (parts & Hparts).
    { intros l Hl. apply in_map_iff in Hl as (s & <- & Hin).
      rewrite Forall_forall in Hall. destruct (Hall s Hin) as (r & Hr').
      rewrite Hpart in Hr'. eauto. }
    pose proof (mapM_concat (row_score X_train) (map (slice_of L) slices))
      as Hc.
    rewrite Hparts in Hc. cbn [bind] in Hc.
    rewrite tiles_all in Hc by (rewrite Hcount; exact Ht).
    rewrite <- Hc. cbn [on_FloatingPointError bind]. eauto.
Qed.

(** C4.  [anomaly_score] cuts the query rows into contiguous slices of
    near-equal size, one per job when there are at least as many rows as
    jobs, which tile the rows in their order, so that concatenating the
    slices gives the rows back.  On a fitted detector whose neighbour
    query has returned, it returns scores as soon as [_abof] returns on
    every slice; there is then one score per query row, and the part of
    the score vector at each slice is what [_abof] computes for the rows
    of that slice alone, negated, so that the vector is the concatenation
    of the results of the slices in the order of the rows.  And the score
    vector (or the exception) is the same for every number of jobs from 1
    upwards. *)
Theorem anomaly_score_independent_of_n_jobs :
  forall (self : FastABOD.t) (X : option TwoDimArray) (jobs : Z),
    (1 <= jobs)%Z ->
    (forall n, exists slices,
        gen_even_slices n jobs = Ok slices /\
        tiles 0 n slices /\
        Forall (fun s => n / Z.to_nat jobs <= snd s - fst s
                         <= n / Z.to_nat jobs + 1) slices /\
        (Z.to_nat jobs <= n -> length slices = Z.to_nat jobs) /\
        forall (rows : TwoDimArray), length rows = n ->
          concat (map (slice_of rows) slices) = rows) /\
    (forall X_train nb,
        fitted_on (FastABOD._knn self) X_train ->
        kneighbors (FastABOD._knn self) X = Ok nb ->
        exists slices,
          gen_even_slices (length (query_rows X_train X)) jobs = Ok slices /\
          (forall scores,
              FastABOD.anomaly_score (with_n_jobs self jobs) X = Ok scores ->
              length scores = length (query_rows X_train X) /\
              concat (map (slice_of scores) slices) = scores /\
              Forall (fun s =>
                        _abof X_train (slice_of (query_rows X_train X) s)
                              (slice_of (map (map snd) nb) s)
                        = Ok (map Qcopp (slice_of scores s))) slices) /\
          (Forall (fun s =>
                     exists r,
                       _abof X_train (slice_of (query_rows X_train X) s)
                             (slice_of (map (map snd) nb) s) = Ok r) slices ->
           exists scores,
             FastABOD.anomaly_score (with_n_jobs self jobs) X = Ok scores)) /\
    FastABOD.anomaly_score (with_n_jobs self jobs) X =
    FastABOD.anomaly_score (with_n_jobs self 1) X.
Proof.
  intros self X jobs Hj. split; [|split].
  - intros n. destruct (gen_even_slices_tiles n jobs Hj) as (slices & E & Ht).
    exists slices. split; [assumption|]. split; [assumption|].
    assert (slices = gen_even_slices_loop n (Z.to_nat jobs)
                       (seq 0 (Z.to_nat jobs)) 0) as Hs.
    { unfold gen_even_slices in E.
      destruct (jobs <? 1)%Z; [discriminate | congruence]. }
    split; [rewrite Hs; apply loop_sizes|]. split.
    + intros Hle. rewrite Hs, loop_count, length_seq; lia.
    + intros rows <-. now apply tiles_all.
  - intros X_train nb Hf Hnb.
    exact (anomaly_score_slices (with_n_jobs self jobs) X X_train nb Hj Hf Hnb).
  - apply anomaly_score_n_jobs; simpl; [reflexivity | assumption | lia].
Qed.

Lemma anomaly_score_independent_of_n_jobs_witness :
  exists scores,
    FastABOD.anomaly_score (with_n_jobs (ex_abod 3 1) 2) (Some ex_query)
    = Ok scores /\
    length scores = 2 /\
    FastABOD.anomaly_score (with_n_jobs (ex_abod 3 1) 1) (Some ex_query)
    = Ok scores.
Proof.
  destruct (anomaly_score_independent_of_n_jobs (ex_abod 3 1) (Some ex_query) 2)
    as (_ & H & Heq); [lia|].
  destruct (H ex_train (answer (kneighbors (ex_knn 3) (Some ex_query))))
    as (slices & _ & Hscores & Htotal).
  - apply ex_knn_fitted. lia.
  - vm_compute. reflexivity.
  - destruct (FastABOD.anomaly_score (with_n_jobs (ex_abod 3 1) 2)
                (Some ex_query)) as [scores|e] eqn:E;
      [|vm_compute in E; discriminate].
    exists scores. split; [reflexivity|].
    destruct (Hscores scores eq_refl) as (Hlen & _).
    split; [exact Hlen|]. now rewrite <- Heq.
Defined.

(** C3.  On a fitted [FastABOD], every score that [anomaly_score] returns
    is the negative of the variance, over the unordered pairs of
    difference vectors between the query row and its neighbours, of
    [(a.b) / (a.a) / (b.b)]; there is one score per query row; and scores
    are returned whenever each row has two neighbours or more and is none
    of them. *)
Theorem anomaly_score_is_negated_variance :
  forall (self : FastABOD.t) (X : option TwoDimArray) (X_train : TwoDimArray),
    fitted_on (FastABOD._knn self) X_train ->
    (forall scores,
        FastABOD.anomaly_score self X = Ok scores ->
        exists nb,
          kneighbors (FastABOD._knn self) X = Ok nb /\
          length scores = length (query_rows X_train X) /\
          scores =
          map (fun pn => (- abof_spec X_train (fst pn) (map snd (snd pn)))%Qc)
              (combine (query_rows X_train X) nb)) /\
    (forall nb,
        (1 <= FastABOD.n_jobs self)%Z ->
        2 <= n_neighbors (FastABOD._knn self) ->
        kneighbors (FastABOD._knn self) X = Ok nb ->
        ~ coincides X_train (query_rows X_train X) nb ->
        exists scores, FastABOD.anomaly_score self X = Ok scores).
Proof.
  intros self X X_train Hf. split.
  - intros scores Hs.
    pose proof (anomaly_score_Ok_n_jobs self X scores Hs) as Hj.
    destruct (kneighbors (FastABOD._knn self) X) as [nb|e] eqn:Hnb.
    2:{ rewrite (anomaly_score_kneighbors_raises self X e Hnb) in Hs.
        discriminate. }
    exists nb. split; [reflexivity|].
    destruct (anomaly_score_outcome self X X_train nb Hj Hf Hnb)
      as [(E & _)|(E & _)]; [|congruence].
    rewrite E in Hs. injection Hs as <-. split.
    + rewrite length_map. apply (abof_rows_count _ _ _ _ Hf Hnb).
    + rewrite abof_rows_map, map_map. reflexivity.
  - intros nb Hj Hk Hnb Hnc.
    destruct (anomaly_score_outcome self X X_train nb Hj Hf Hnb)
      as [(E & _)|(_ & HE)]; [eauto|].
    exfalso. apply Hnc.
    apply (zero_diff_iff_coincides _ _ _ _ Hf Hnb).
    apply Exists_exists in HE as (pi & Hin & [Hlt|Hz]).
    + rewrite (abof_rows_length _ _ _ _ Hf Hnb pi Hin) in Hlt. lia.
    + apply Exists_exists. eauto.
Qed.

(** The training-sample error of a fitted detector with two neighbours or
    more per row, and at least one job: raised exactly when a query row is
    one of its selected neighbours. *)
Lemma training_sample_error_iff (self : FastABOD.t) X X_train nb :
  (1 <= FastABOD.n_jobs self)%Z ->
  2 <= n_neighbors (FastABOD._knn self) ->
  fitted_on (FastABOD._knn self) X_train ->
  kneighbors (FastABOD._knn self) X = Ok nb ->
  (FastABOD.anomaly_score self X = Raise training_sample_error <->
   coincides X_train (query_rows X_train X) nb).
Proof.
  intros Hj Hk Hf Hnb.
  destruct (anomaly_score_outcome self X X_train nb Hj Hf Hnb)
    as [(E & HF)|(E & HE)]; rewrite E.
  - split; [discriminate|]. intros Hc. exfalso.
    apply (zero_diff_iff_coincides _ _ _ _ Hf Hnb) in Hc.
    apply Exists_exists in Hc as (pi & Hin & Hz).
    rewrite Forall_forall in HF. now apply (HF pi Hin).
  - split; [|reflexivity]. intros _.
    apply (zero_diff_iff_coincides _ _ _ _ Hf Hnb).
    apply Exists_exists in HE as (pi & Hin & [Hlt|Hz]).
    + rewrite (abof_rows_length _ _ _ _ Hf Hnb pi Hin) in Hlt. lia.
    + apply Exists_exists. eauto.
Qed.

Lemma anomaly_score_is_negated_variance_witness :
  exists scores,
    FastABOD.anomaly_score (ex_abod 3 1) (Some ex_query) = Ok scores /\
    length scores = 2.
Proof.
  destruct (anomaly_score_is_negated_variance (ex_abod 3 1) (Some ex_query)
              ex_train (ex_knn_fitted 3 (Nat.lt_0_succ 2))) as [H1 H2].
  destruct (H2 (answer (kneighbors (ex_knn 3) (Some ex_query)))) as [scores E].
  - simpl. lia.
  - simpl. lia.
  - vm_compute. reflexivity.
  - rewrite <- coincidesb_spec. vm_compute. discriminate.
  - exists scores. split; [exact E|].
    destruct (H1 scores E) as (nb & _ & Hlen & _). exact Hlen.
Defined.

(** With a single neighbour there is no pair of neighbours and no
    ratio: the inner list of [_abof] is empty for every row, [np.var] of an
    empty row is the invalid operation [0/0], and the [except] clause
    reports it as a training sample in [X]. *)
Lemma single_neighbour_raises (self : FastABOD.t) X X_train nb :
  (1 <= FastABOD.n_jobs self)%Z ->
  n_neighbors (FastABOD._knn self) = 1 ->
  fitted_on (FastABOD._knn self) X_train ->
  kneighbors (FastABOD._knn self) X = Ok nb ->
  FastABOD.anomaly_score self X = Raise training_sample_error.
Proof.
  intros Hj Hk Hf Hnb.
  destruct (anomaly_score_outcome self X X_train nb Hj Hf Hnb)
    as [(_ & HF)|(E & _)]; [|exact E].
  exfalso.
  destruct (kneighbors_fitted _ _ _ _ Hf Hnb) as (_ & (n & d & Hs & Hn) & _).
  pose proof (abof_rows_count _ _ _ _ Hf Hnb) as Hc.
  rewrite <- (shape_length _ _ _ Hs) in Hc.
  destruct (abof_rows (query_rows X_train X) nb) as [|pi L] eqn:EL;
    [simpl in Hc; lia|].
  inversion HF as [|? ? (H2 & _) _]; subst.
  assert (Hlen : length (snd pi) = n_neighbors (FastABOD._knn self)).
  { apply (abof_rows_length _ _ _ _ Hf Hnb). rewrite EL. now left. }
  lia.
Qed.

(** C5.  The message "X must not contain training samples" is raised
    where no ratio divides by the squared norm of a zero difference
    vector.  [FastABOD.fit] with one neighbour on five pairwise distinct
    points raises it, with no [X] passed at all, and leaves the index fitted;
    [anomaly_score] on two query points, neither of them a training point,
    then raises it as well: no query row is among its neighbours, and the
    inner list of every row is empty, so that no ratio is computed.  The
    [except] clause reports every [FloatingPointError] of [_abof], here
    the [0/0] of a variance over no ratios, under this message. *)
Theorem training_sample_error_without_zero_norm_difference :
  FastABOD.fit (ex_abod_new 1 1) ex_train =
  (Raise training_sample_error, ex_abod 1 1) /\
  FastABOD.anomaly_score (ex_abod 1 1) (Some ex_query) =
  Raise training_sample_error /\
  Forall (fun q => ~ In q ex_train) ex_query /\
  ~ coincides ex_train ex_query
      (answer (kneighbors (ex_knn 1) (Some ex_query))) /\
  Forall (fun pi => abof_row ex_train pi = Ok [])
         (abof_rows ex_query (answer (kneighbors (ex_knn 1) (Some ex_query)))).
Proof.
  assert (Hq : FastABOD.anomaly_score (ex_abod 1 1) (Some ex_query) =
               Raise training_sample_error).
  { apply (single_neighbour_raises (ex_abod 1 1) (Some ex_query) ex_train
             (answer (kneighbors (ex_knn 1) (Some ex_query)))).
    - simpl. lia.
    - reflexivity.
    - apply ex_knn_fitted. lia.
    - vm_compute. reflexivity. }
  assert (Ht : FastABOD.anomaly_score (ex_abod 1 1) None =
               Raise training_sample_error).
  { apply (single_neighbour_raises (ex_abod 1 1) None ex_train
             (answer (kneighbors (ex_knn 1) None))).
    - simpl. lia.
    - reflexivity.
    - apply ex_knn_fitted. lia.
    - vm_compute. reflexivity. }
  split; [|split; [exact Hq|split; [|split]]].
  - unfold FastABOD.fit.
    change (NearestNeighbors.fit (FastABOD._knn (ex_abod_new 1 1)) ex_train)
      with (Ok tt, ex_knn 1).
    cbv beta iota zeta.
    change (FastABOD.anomaly_score _ None)
      with (FastABOD.anomaly_score (ex_abod 1 1) None).
    rewrite Ht. reflexivity.
  - repeat constructor; simpl; intros H;
      repeat (destruct H as [H|H];
              [apply (f_equal (map (fun q : Qc => Qnum q))) in H;
               vm_compute in H; discriminate|]);
      exact H.
  - rewrite <- coincidesb_spec. vm_compute. discriminate.
  - vm_compute. repeat constructor.
Qed.



Lemma kneighbors_None_Ok knn X_train :
  _fit_X knn = Some X_train ->
  n_neighbors knn < length X_train ->
  exists nb, kneighbors knn None = Ok nb.
Proof.
  intros Hfit Hlt. unfold kneighbors. rewrite Hfit.
  destruct (Nat.ltb_spec (length X_train) (n_neighbors knn + 1)); [lia|].
  eauto.
Qed.




(* ------------------------------------------------------------------ *)
(** ** FastABOD.score                                                  *)
(* ------------------------------------------------------------------ *)

(** C9.  [score] is written as [def score(X, y=None)] inside the class, so
    the instance itself is bound to [X].  A call with no argument, or with
    one positional argument, reaches the body and raises
    [NotImplementedError], which is not the not-fitted exception; a call
    with two positional arguments, [det.score(X, y)], does not reach the
    body: binding the three positional arguments to the two parameters is
    a [TypeError]. *)
Theorem score_with_two_arguments_is_TypeError :
  forall (V : Type) (self X y : V),
    FastABOD.score self [] [] = Raise NotImplementedError /\
    FastABOD.score self [X] [] = Raise NotImplementedError /\
    is_NotFitted NotImplementedError = false /\
    FastABOD.score self [X; y] [] =
    Raise (TypeError [Lit "score"; Lit "() takes from "; FmtInt 1;
                      Lit " to "; FmtInt 2; Lit " positional arguments but ";
                      FmtInt 3; Lit " were given"]) /\
    (forall e, FastABOD.score self [X; y] [] = Raise e ->
               is_NotImplemented e = false).
Proof.
  intros V self X y. repeat split.
  intros e H. injection H as <-. reflexivity.
Qed.

(* ------------------------------------------------------------------ *)
(** ** Scoring before fit                                              *)
(* ------------------------------------------------------------------ *)

Lemma predict_raises_with_scores e (th : option Qc) :
  BaseOutlierDetector.predict (Raise e) th = Raise e.
Proof. reflexivity. Qed.

(** C8, as the code has it.  On an engine on which no [fit] has got as
    far as assigning the fit-derived attribute that the scoring
    operations look up ([_knn] for [KNN], [_metric] for
    [OneTimeSampling], the reference set of the index for [FastABOD]), as
    on every engine just constructed, [anomaly_score] and [predict] raise
    [NotFittedError], for every input; and [NotFittedError] is told apart
    from every other exception. *)
Theorem scoring_before_fit_raises_NotFittedError :
  (forall (self : KNN.t) X,
      KNN._knn self = None ->
      exists msg,
        KNN.anomaly_score self X = Raise (NotFittedError msg) /\
        KNN.predict self X = Raise (NotFittedError msg)) /\
  (forall (self : OneTimeSampling.t) X,
      OneTimeSampling._metric self = None ->
      exists msg,
        OneTimeSampling.anomaly_score self X = Raise (NotFittedError msg) /\
        OneTimeSampling.predict self X = Raise (NotFittedError msg)) /\
  (forall (self : FastABOD.t) X,
      _fit_X (FastABOD._knn self) = None ->
      exists msg,
        FastABOD.anomaly_score self None = Raise (NotFittedError msg) /\
        FastABOD.anomaly_score self (Some X) = Raise (NotFittedError msg) /\
        FastABOD_predict self X = Raise (NotFittedError msg)) /\
  (forall c m k w, KNN._knn (KNN.__init__ c m k w) = None) /\
  (forall c m n r,
      OneTimeSampling._metric (OneTimeSampling.__init__ c m n r) = None) /\
  (forall fpr jobs k m self,
      FastABOD.__init__ fpr jobs k m = Ok self ->
      _fit_X (FastABOD._knn self) = None) /\
  (forall e, is_NotFitted e = true <-> exists msg, e = NotFittedError msg).
Proof.
  split; [|split; [|split; [|split; [|split; [|split]]]]].
  - intros self X H. eexists.
    unfold KNN.predict, KNN.anomaly_score. rewrite H. simpl.
    split; reflexivity.
  - intros self X H. eexists.
    unfold OneTimeSampling.predict, OneTimeSampling.anomaly_score.
    rewrite H. simpl. split; reflexivity.
  - intros self X H. eexists.
    unfold FastABOD_predict, FastABOD.anomaly_score, kneighbors.
    rewrite H. simpl. repeat split; reflexivity.
  - reflexivity.
  - reflexivity.
  - intros fpr jobs k m self H. unfold FastABOD.__init__ in H.
    destruct (FastABOD.check_params _); simpl in H; [|discriminate].
    injection H as <-. reflexivity.
  - intros e. split.
    + destruct e; try discriminate. eauto.
    + intros (msg & ->). reflexivity.
Qed.

Lemma scoring_before_fit_raises_NotFittedError_witness :
  (exists msg,
      KNN.anomaly_score (KNN.__init__ (Q2Qc (1 # 100)) sqeuclidean 5 false)
        ex_query = Raise (NotFittedError msg)) /\
  (exists msg,
      OneTimeSampling.anomaly_score
        (OneTimeSampling.__init__ (Q2Qc (1 # 100)) sqeuclidean 20
           (fun _ m => seq 0 m)) ex_query = Raise (NotFittedError msg)) /\
  (exists msg,
      FastABOD.anomaly_score
        {| FastABOD.fpr := Q2Qc (1 # 100); FastABOD.n_jobs := 1;
           FastABOD._knn := ex_knn0 5; FastABOD.threshold_ := None |}
        (Some ex_query) = Raise (NotFittedError msg)).
Proof.
  destruct scoring_before_fit_raises_NotFittedError
    as (HK & HO & HF & _).
  split; [|split].
  - destruct (HK (KNN.__init__ (Q2Qc (1 # 100)) sqeuclidean 5 false)
                ex_query eq_refl) as (msg & H & _).
    exists msg. exact H.
  - destruct (HO (OneTimeSampling.__init__ (Q2Qc (1 # 100)) sqeuclidean 20
                    (fun _ m => seq 0 m)) ex_query eq_refl) as (msg & H & _).
    exists msg. exact H.
  - destruct (HF {| FastABOD.fpr := Q2Qc (1 # 100); FastABOD.n_jobs := 1;
                    FastABOD._knn := ex_knn0 5; FastABOD.threshold_ := None |}
                ex_query eq_refl) as (msg & _ & H & _).
    exists msg. exact H.
Defined.

(** C8 as stated fails on an engine whose [fit] has failed: a
    [FastABOD] just constructed, whose [fit] on a training set with a
    repeated row raises, has not been fitted with success, and it
    answers [anomaly_score] with scores, the index being fitted
    already. *)
Lemma scores_after_a_fit_that_raised :
  ~ (forall (self self' : FastABOD.t) (X_train X : TwoDimArray) (e : exn),
        _fit_X (FastABOD._knn self) = None ->
        FastABOD.fit self X_train = (Raise e, self') ->
        exists msg,
          FastABOD.anomaly_score self' (Some X) = Raise (NotFittedError msg)).
Proof.
  intros H.
  assert (E : fst (FastABOD.fit (ex_abod_new 2 1) ex_train_dup) =
              Raise training_sample_error) by (vm_compute; reflexivity).
  destruct (H (ex_abod_new 2 1)
              (snd (FastABOD.fit (ex_abod_new 2 1) ex_train_dup))
              ex_train_dup ex_query training_sample_error eq_refl)
    as (msg & Hm).
  - rewrite <- E. apply surjective_pairing.
  - vm_compute in Hm. discriminate.
Qed.

(* ------------------------------------------------------------------ *)
(** ** The threshold                                                   *)
(* ------------------------------------------------------------------ *)

Lemma Qc_leb_le x y : Qc_leb x y = true <-> (x <= y)%Qc.
Proof. unfold Qc_leb, Qcle. apply Qle_bool_iff. Qed.

Lemma Qc_leb_false x y : Qc_leb x y = false -> (y <= x)%Qc.
Proof.
  intros H. apply Qclt_le_weak, Qcnot_le_lt. intros Hle.
  apply Qc_leb_le in Hle. congruence.
Qed.

Lemma Qc_ltb_false x y : Qc_ltb x y = false <-> (y <= x)%Qc.
Proof.
  unfold Qc_ltb. rewrite negb_false_iff. apply Qc_leb_le.
Qed.

Lemma np_insert_perm x l : Permutation (np.insert x l) (x :: l).
Proof.
  induction l as [|y t IH]; simpl; [reflexivity|].
  destruct (Qc_leb x y); [reflexivity|].
  rewrite IH. apply perm_swap.
Qed.

Lemma np_sort_perm l : Permutation (np.sort l) l.
Proof.
  induction l as [|x t IH]; simpl; [reflexivity|].
  rewrite np_insert_perm. now constructor.
Qed.

Lemma np_insert_sorted x l : Sorted Qcle l -> Sorted Qcle (np.insert x l).
Proof.
  induction l as [|y t IH]; simpl; intros Hs.
  - repeat constructor.
  - destruct (Qc_leb x y) eqn:E.
    + constructor; [assumption|]. constructor. now apply Qc_leb_le.
    + inversion Hs as [|? ? Ht Hd]; subst.
      constructor; [now apply IH|].
      destruct t as [|z t]; simpl.
      * constructor. now apply Qc_leb_false.
      * destruct (Qc_leb x z); constructor;
          [now apply Qc_leb_false | now inversion Hd].
Qed.

Lemma np_sort_sorted l : Sorted Qcle (np.sort l).
Proof.
  induction l as [|x t IH]; simpl; [constructor|].
  now apply np_insert_sorted.
Qed.

Lemma this_opp (a : Qc) : (this (- a)%Qc == - this a)%Q.
Proof. unfold Qcopp, Q2Qc. cbn [this]. apply Qred_correct. Qed.

Lemma this_minus (a b : Qc) : (this (a - b)%Qc == this a - this b)%Q.
Proof. unfold Qcminus. rewrite this_plus, this_opp. reflexivity. Qed.

Lemma this_of_Z z : (this (of_Z z) == inject_Z z)%Q.
Proof. unfold of_Z, Q2Qc. cbn [this]. apply Qred_correct. Qed.

(** The fractional part of a non-negative position is a weight in
    [0, 1). *)
Lemma fractional_part h :
  (0 <= h)%Qc ->
  (0 <= h - of_nat (Z.to_nat (Qfloor h)))%Qc /\
  (h - of_nat (Z.to_nat (Qfloor h)) < 1)%Qc.
Proof.
  unfold Qcle, Qclt. intros Hh. change (this 0%Qc) with 0%Q in *.
  change (this 1%Qc) with 1%Q.
  assert (Hf : (0 <= Qfloor h)%Z).
  { change 0%Z with (Qfloor 0). now apply Qfloor_resp_le. }
  rewrite this_minus. unfold of_nat. rewrite this_of_Z, Z2Nat.id by assumption.
  pose proof (Qfloor_le h) as H1. pose proof (Qlt_floor h) as H2.
  rewrite inject_Z_plus in H2. change (inject_Z 1) with 1%Q in H2.
  split; lra.
Qed.

Lemma position_nonneg q n :
  (0 <= q)%Qc -> (0 <= q / of_Z 100 * of_nat n)%Qc.
Proof.
  unfold Qcle. intros Hq. change (this 0%Qc) with 0%Q in *.
  unfold Qcdiv. rewrite !this_mult. unfold of_nat.
  rewrite this_of_Z.
  assert (H100 : (this (/ of_Z 100)%Qc == 1 # 100)%Q) by reflexivity.
  rewrite H100.
  assert (Hn : (0 <= inject_Z (Z.of_nat n))%Q).
  { change 0%Q with (inject_Z 0). rewrite <- Zle_Qle. lia. }
  apply Qmult_le_0_compat; [|assumption].
  apply Qmult_le_0_compat; [assumption | discriminate].
Qed.

(** [np.percentile] interpolates linearly between two neighbouring order
    statistics of its argument. *)
Lemma percentile_linear_interpolation a q th :
  np.percentile a q = Ok th ->
  let ap := np.sort a in
  let position := (q / of_Z 100 * of_nat (length ap - 1))%Qc in
  let below := Z.to_nat (Qfloor position) in
  let above := Nat.min (below + 1) (length ap - 1) in
  let weight := (position - of_nat below)%Qc in
  Sorted Qcle ap /\ Permutation ap a /\
  (0 <= weight)%Qc /\ (weight < 1)%Qc /\
  th = (nth below ap 0 + weight * (nth above ap 0 - nth below ap 0))%Qc.
Proof.
  intros H ap position below above weight.
  pose proof (np_sort_sorted a) as Hsorted.
  pose proof (np_sort_perm a) as Hperm.
  unfold np.percentile in H.
  destruct (Qc_ltb q 0) eqn:Hq0; [discriminate|]. cbn [orb] in H.
  destruct (Qc_ltb (of_Z 100) q) eqn:Hq1; [discriminate|].
  assert (Hap : np.sort a = ap) by reflexivity.
  clearbody ap. rewrite Hap in H, Hsorted, Hperm.
  destruct ap as [|x ap']; [discriminate|].
  apply Ok_inj in H. subst th.
  split; [exact Hsorted|]. split; [exact Hperm|].
  apply Qc_ltb_false in Hq0.
  destruct (fractional_part _
              (position_nonneg q (length (x :: ap') - 1) Hq0)) as [Hw0 Hw1].
  split; [exact Hw0|]. split; [exact Hw1|].
  cbv zeta. unfold weight, above, below, position. ring.
Qed.


Lemma FastABOD_anomaly_score_ext (self self' : FastABOD.t) X :
  FastABOD._knn self = FastABOD._knn self' ->
  FastABOD.n_jobs self = FastABOD.n_jobs self' ->
  FastABOD.anomaly_score self X = FastABOD.anomaly_score self' X.
Proof.
  intros Hk Hj. unfold FastABOD.anomaly_score, FastABOD.X_.
  now rewrite Hk, Hj.
Qed.

(** [FastABOD.fit]: the threshold is the percentile of the scores of the
    training set at [100 * (1 - fpr)]. *)
Lemma FastABOD_fit_threshold (self self' : FastABOD.t) X :
  FastABOD.fit self X = (Ok tt, self') ->
  exists scores th,
    fitted_on (FastABOD._knn self') X /\
    FastABOD.anomaly_score self' None = Ok scores /\
    FastABOD.threshold_ self' = Some th /\
    np.percentile scores (of_Z 100 * (1 - FastABOD.fpr self'))%Qc = Ok th.
Proof.
  unfold FastABOD.fit.
  destruct (NearestNeighbors.fit (FastABOD._knn self) X) as [[[]|e] knn] eqn:Hfit;
    [|discriminate].
  set (mid := {| FastABOD.fpr := FastABOD.fpr self;
                 FastABOD.n_jobs := FastABOD.n_jobs self;
                 FastABOD._knn := knn;
                 FastABOD.threshold_ := FastABOD.threshold_ self |}).
  destruct (FastABOD.anomaly_score mid None) as [s|e] eqn:Hs; [|discriminate].
  destruct (np.percentile s (of_Z 100 * (1 - FastABOD.fpr mid))%Qc)
    as [th|e] eqn:Hp; [|discriminate].
  intros H. injection H as <-. exists s, th. simpl.
  split; [exists (FastABOD._knn self); exact Hfit|].
  split; [|split; [reflexivity | exact Hp]].
  rewrite <- Hs. now apply FastABOD_anomaly_score_ext.
Qed.




(* ------------------------------------------------------------------ *)
(** ** OneTimeSampling.fit                                             *)
(* ------------------------------------------------------------------ *)

Lemma base_check_params_cases c :
  valid_rate c \/
  exists msg, BaseOutlierDetector._check_params c = Raise (ValueError msg).
Proof.
  unfold valid_rate, BaseOutlierDetector._check_params.
  destruct (Qc_ltb c 0 || Qc_ltb 1 c); [right; eauto | now left].
Qed.

Lemma OneTimeSampling_check_params_nonpositive (self : OneTimeSampling.t) :
  valid_rate (OneTimeSampling.contamination self) ->
  (OneTimeSampling.n_samples self <= 0)%Z ->
  OneTimeSampling._check_params self =
  Raise (ValueError [Lit "n_samples must be positive but was ";
                     FmtInt (OneTimeSampling.n_samples self)]).
Proof.
  intros Hv Hm. unfold OneTimeSampling._check_params. rewrite Hv. simpl.
  destruct (Z.leb_spec (OneTimeSampling.n_samples self) 0); [reflexivity | lia].
Qed.

Lemma OneTimeSampling_check_params_positive (self : OneTimeSampling.t) :
  valid_rate (OneTimeSampling.contamination self) ->
  (0 < OneTimeSampling.n_samples self)%Z ->
  OneTimeSampling._check_params self = Ok tt.
Proof.
  intros Hv Hm. unfold OneTimeSampling._check_params. rewrite Hv. simpl.
  destruct (Z.leb_spec (OneTimeSampling.n_samples self) 0); [lia | reflexivity].
Qed.

(** [_fit] assigns [X_] and then compares [n_samples] with the number of
    rows. *)
Lemma OneTimeSampling_fit_too_many_samples (self : OneTimeSampling.t) X n d :
  shape X = Some (n, d) ->
  (Z.of_nat n <= OneTimeSampling.n_samples self)%Z ->
  OneTimeSampling._fit self X =
  (Raise (ValueError [Lit "n_samples must be smaller than ";
                      FmtInt (Z.of_nat n); Lit " but was ";
                      FmtInt (OneTimeSampling.n_samples self)]),
   OneTimeSampling.set_X_ self X).
Proof.
  intros Hs Hm. unfold OneTimeSampling._fit. rewrite Hs. simpl.
  destruct (Z.geb_spec (OneTimeSampling.n_samples self) (Z.of_nat n));
    [reflexivity | lia].
Qed.

(** *** A fit with fewer samples than rows goes through *)

Lemma insert_index_perm x l :
  Permutation (OneTimeSampling.insert_index x l) (x :: l).
Proof.
  induction l as [|y t IH]; simpl; [reflexivity|].
  destruct (x <=? y); [reflexivity|].
  rewrite IH. apply perm_swap.
Qed.

Lemma sort_index_perm l : Permutation (OneTimeSampling.sort_index l) l.
Proof.
  induction l as [|x t IH]; simpl; [reflexivity|].
  rewrite insert_index_perm. now constructor.
Qed.

Lemma np_min_Ok l : l <> [] -> exists m, np.min l = Ok m.
Proof.
  destruct l as [|x t]; [congruence|]. simpl. eauto.
Qed.

Lemma valid_rate_bounds c :
  valid_rate c -> (0 <= c)%Qc /\ (c <= 1)%Qc.
Proof.
  unfold valid_rate, BaseOutlierDetector._check_params.
  destruct (Qc_ltb c 0) eqn:H0; simpl; [discriminate|].
  destruct (Qc_ltb 1 c) eqn:H1; [discriminate|].
  intros _. split; now apply Qc_ltb_false.
Qed.

(** For a rate in [0, 1] and at least one score, the threshold exists. *)
Lemma threshold_of_Ok scores c :
  scores <> [] -> valid_rate c ->
  exists th, BaseOutlierDetector.threshold_of scores c = Ok th.
Proof.
  intros Hne Hv. destruct (valid_rate_bounds c Hv) as [H0 H1].
  unfold BaseOutlierDetector.threshold_of, np.percentile.
  assert (Hq0 : Qc_ltb (of_Z 100 * (1 - c)) 0 = false).
  { apply Qc_ltb_false. unfold Qcle in *.
    rewrite this_mult, this_minus, this_of_Z.
    change (this 0%Qc) with 0%Q in *. change (this 1%Qc) with 1%Q in *.
    change (inject_Z 100) with (100 # 1)%Q. lra. }
  assert (Hq1 : Qc_ltb (of_Z 100) (of_Z 100 * (1 - c)) = false).
  { apply Qc_ltb_false. unfold Qcle in *.
    rewrite this_mult, this_minus, this_of_Z.
    change (this 0%Qc) with 0%Q in *. change (this 1%Qc) with 1%Q in *.
    change (inject_Z 100) with (100 # 1)%Q. lra. }
  rewrite Hq0, Hq1. cbn [orb].
  pose proof (np_sort_perm scores) as Hp.
  destruct (np.sort scores) as [|x t]; [|eauto].
  apply Permutation_nil in Hp. congruence.
Qed.

Lemma OneTimeSampling_fit_Ok (self : OneTimeSampling.t) X n d :
  shape X = Some (n, d) ->
  (0 <= OneTimeSampling.n_samples self < Z.of_nat n)%Z ->
  OneTimeSampling._fit self X =
  (Ok tt,
   OneTimeSampling.set__metric
     (OneTimeSampling.set_sampled_
        (OneTimeSampling.set_sampled_ (OneTimeSampling.set_X_ self X)
           (OneTimeSampling.random_state self n
              (Z.to_nat (OneTimeSampling.n_samples self))))
        (OneTimeSampling.sort_index
           (OneTimeSampling.random_state self n
              (Z.to_nat (OneTimeSampling.n_samples self)))))
     (OneTimeSampling.metric self)).
Proof.
  intros Hs Hm. unfold OneTimeSampling._fit. rewrite Hs. simpl.
  destruct (Z.geb_spec (OneTimeSampling.n_samples self) (Z.of_nat n)); [lia|].
  destruct (Z.ltb_spec (OneTimeSampling.n_samples self) 0); [lia|].
  reflexivity.
Qed.

(** After [_fit], every row of a well-formed training set has a score. *)
Lemma OneTimeSampling_scores_training_set (self : OneTimeSampling.t) X m sampled :
  check_array X = Ok X ->
  OneTimeSampling.X_ self = Some X ->
  OneTimeSampling.sampled_ self = Some sampled ->
  OneTimeSampling._metric self = Some m ->
  sampled <> [] ->
  Forall (fun i => i < length X) sampled ->
  exists scores,
    OneTimeSampling.anomaly_score self X = Ok scores /\ scores <> [].
Proof.
  intros HX HX_ Hsam Hmet Hne Hr.
  destruct (check_array_Ok _ _ HX) as (_ & HXne & n & d & Hs & _ & _).
  unfold OneTimeSampling.anomaly_score, OneTimeSampling.X_sampled_.
  rewrite Hmet, HX_, Hsam. simpl. rewrite HX. simpl.
  rewrite (take_in_range X sampled [] Hr). simpl.
  set (Xs := map (fun i => nth i X []) sampled).
  assert (HXs : forall y, In y Xs -> In y X).
  { intros y Hy. apply in_map_iff in Hy as (i & <- & Hi).
    rewrite Forall_forall in Hr. apply nth_In. now apply Hr. }
  unfold DistanceMetric.pairwise.
  assert (forallb (fun x => forallb (fun y => length x =? length y) Xs) X
          = true) as ->.
  { apply forallb_forall. intros x Hx. apply forallb_forall. intros y Hy.
    apply Nat.eqb_eq.
    rewrite (shape_rows _ _ _ _ Hs Hx), (shape_rows _ _ _ _ Hs (HXs y Hy)).
    reflexivity. }
  simpl.
  destruct (mapM_total np.min (map (fun x => map (m x) Xs) X))
    as (scores & Hscores).
  - intros l Hl. apply np_min_Ok.
    apply in_map_iff in Hl as (x & <- & _).
    intros Hnil. apply map_eq_nil in Hnil. unfold Xs in Hnil.
    apply map_eq_nil in Hnil. contradiction.
  - exists scores. split; [exact Hscores|].
    apply mapM_length in Hscores. rewrite length_map in Hscores.
    destruct scores; [|discriminate].
    destruct X; [contradiction | discriminate].
Qed.

Lemma OneTimeSampling_fit_succeeds (self : OneTimeSampling.t) X n d :
  shape X = Some (n, d) -> 0 < d ->
  (0 < OneTimeSampling.n_samples self < Z.of_nat n)%Z ->
  valid_rate (OneTimeSampling.contamination self) ->
  draws_indices (OneTimeSampling.random_state self) ->
  exists self', OneTimeSampling.fit self X = (Ok tt, self').
Proof.
  intros Hs Hd Hm Hv Hrnd.
  unfold OneTimeSampling.fit, BaseOutlierDetector.fit.
  rewrite (OneTimeSampling_check_params_positive self Hv) by lia.
  rewrite (OneTimeSampling_fit_Ok self X n d Hs) by lia.
  set (k := Z.to_nat (OneTimeSampling.n_samples self)).
  destruct (Hrnd n k) as [Hlen Hin]; [unfold k; lia|].
  set (fitted := OneTimeSampling.set__metric _ _).
  assert (HX : check_array X = Ok X).
  { unfold check_array. rewrite Hs.
    destruct (Nat.eqb_spec n 0); [lia|]. destruct (Nat.eqb_spec d 0); [lia|].
    reflexivity. }
  pose proof (sort_index_perm (OneTimeSampling.random_state self n k)) as Hp.
  destruct (OneTimeSampling_scores_training_set fitted X
              (OneTimeSampling.metric self)
              (OneTimeSampling.sort_index
                 (OneTimeSampling.random_state self n k)))
    as (scores & Hscores & Hne); try reflexivity; try assumption.
  - intros Hnil. rewrite Hnil in Hp. apply Permutation_length in Hp.
    simpl in Hp. unfold k in *. lia.
  - rewrite <- (shape_length _ _ _ Hs).
    apply Forall_forall. intros i Hi.
    rewrite Forall_forall in Hin. apply Hin.
    eapply Permutation_in; eassumption.
  - rewrite Hscores. cbn [bind].
    destruct (threshold_of_Ok scores (OneTimeSampling.contamination fitted)
                Hne Hv) as (th & ->).
    eauto.
Qed.

(** C6.  [OneTimeSampling.fit] on [n] reference rows raises a [ValueError]
    unless [0 < n_samples < n]: [_check_params] rejects a non-positive
    [n_samples], and [_fit] rejects [n_samples >= n] with a message that
    names the bound [n].  Within the bounds, and with a valid rate and a
    generator that returns that many row indices, the fit goes through. *)
Theorem OneTimeSampling_fit_requires_fewer_samples_than_rows :
  forall (self : OneTimeSampling.t) (X : TwoDimArray) (n d : nat),
    shape X = Some (n, d) ->
    (~ (0 < OneTimeSampling.n_samples self < Z.of_nat n)%Z ->
     (exists msg, fst (OneTimeSampling.fit self X) = Raise (ValueError msg)) /\
     (valid_rate (OneTimeSampling.contamination self) ->
      fst (OneTimeSampling.fit self X) =
      Raise (ValueError
        (if (OneTimeSampling.n_samples self <=? 0)%Z
         then [Lit "n_samples must be positive but was ";
               FmtInt (OneTimeSampling.n_samples self)]
         else [Lit "n_samples must be smaller than "; FmtInt (Z.of_nat n);
               Lit " but was "; FmtInt (OneTimeSampling.n_samples self)])))) /\
    ((0 < OneTimeSampling.n_samples self < Z.of_nat n)%Z ->
     0 < d ->
     valid_rate (OneTimeSampling.contamination self) ->
     draws_indices (OneTimeSampling.random_state self) ->
     exists self', OneTimeSampling.fit self X = (Ok tt, self')).
Proof.
  intros self X n d Hs. split.
  2:{ intros Hm Hd Hv Hrnd.
      exact (OneTimeSampling_fit_succeeds self X n d Hs Hd Hm Hv Hrnd). }
  intros Hm.
  assert (Hvalid : valid_rate (OneTimeSampling.contamination self) ->
    fst (OneTimeSampling.fit self X) =
    Raise (ValueError
      (if (OneTimeSampling.n_samples self <=? 0)%Z
       then [Lit "n_samples must be positive but was ";
             FmtInt (OneTimeSampling.n_samples self)]
       else [Lit "n_samples must be smaller than "; FmtInt (Z.of_nat n);
             Lit " but was "; FmtInt (OneTimeSampling.n_samples self)]))).
  { intros Hv. unfold OneTimeSampling.fit, BaseOutlierDetector.fit.
    destruct (Z.leb_spec (OneTimeSampling.n_samples self) 0) as [Hle|Hgt].
    - now rewrite OneTimeSampling_check_params_nonpositive.
    - rewrite OneTimeSampling_check_params_positive by assumption.
      rewrite (OneTimeSampling_fit_too_many_samples self X n d Hs) by lia.
      reflexivity. }
  split; [|exact Hvalid].
  destruct (base_check_params_cases (OneTimeSampling.contamination self))
    as [Hv|(msg & Hinv)].
  - rewrite (Hvalid Hv). eauto.
  - exists msg. unfold OneTimeSampling.fit, BaseOutlierDetector.fit,
      OneTimeSampling._check_params. rewrite Hinv. reflexivity.
Qed.

Lemma OneTimeSampling_fit_requires_fewer_samples_than_rows_witness :
  fst (OneTimeSampling.fit (ex_ots 50) (ex_rows 50)) =
  Raise (ValueError [Lit "n_samples must be smaller than "; FmtInt 50;
                     Lit " but was "; FmtInt 50]).
Proof.
  destruct (OneTimeSampling_fit_requires_fewer_samples_than_rows
              (ex_ots 50) (ex_rows 50) 50 1) as [H _].
  - reflexivity.
  - destruct H as [_ H].
    + simpl. lia.
    + apply H. reflexivity.
Defined.

(** C7 as stated fails: [_fit] assigns [X_] before it compares
    [n_samples] with the number of rows, so a [fit] that raises there has
    already changed the engine. *)
Lemma failed_fit_leaves_training_data_assigned :
  ~ (forall (self self' : OneTimeSampling.t) X e,
        OneTimeSampling._fit self X = (Raise e, self') -> self' = self) /\
  ~ (forall (self self' : OneTimeSampling.t) X e,
        OneTimeSampling.fit self X = (Raise e, self') -> self' = self).
Proof.
  split; intros H;
    specialize (H (ex_ots 3) (OneTimeSampling.set_X_ (ex_ots 3) (ex_rows 2))
                  (ex_rows 2)
                  (ValueError [Lit "n_samples must be smaller than "; FmtInt 2;
                               Lit " but was "; FmtInt 3]) eq_refl);
    apply (f_equal OneTimeSampling.X_) in H; discriminate.
Qed.

(** [KNN._fit] assigns [_knn] only when the index has been built. *)
Lemma KNN_fit_raises_unchanged (self self' : KNN.t) X e :
  KNN._fit self X = (Raise e, self') -> self' = self.
Proof.
  unfold KNN._fit.
  destruct (NearestNeighbors.fit _ X) as [[[]|e0] knn]; intros H;
    [discriminate|].
  now injection H.
Qed.

(** [FastABOD.fit] fits the index in place before it scores the training
    set: when it raises, the threshold and the parameters are the ones
    from before the call, and either the data was rejected and the
    detector is as it was, or the index already holds the new data. *)
Lemma FastABOD_fit_raises_state (self self' : FastABOD.t) X e :
  FastABOD.fit self X = (Raise e, self') ->
  FastABOD.threshold_ self' = FastABOD.threshold_ self /\
  FastABOD.fpr self' = FastABOD.fpr self /\
  FastABOD.n_jobs self' = FastABOD.n_jobs self /\
  n_neighbors (FastABOD._knn self') = n_neighbors (FastABOD._knn self) /\
  metric (FastABOD._knn self') = metric (FastABOD._knn self) /\
  ((check_array X = Raise e /\ self' = self) \/
   (check_array X = Ok X /\ FastABOD.X_ self' = Ok X)).
Proof.
  unfold FastABOD.fit, NearestNeighbors.fit.
  destruct (check_array X) as [X'|e0] eqn:HX.
  - destruct (check_array_Ok _ _ HX) as (-> & _). cbv zeta.
    cbn [n_neighbors].
    destruct (n_neighbors (FastABOD._knn self) =? 0); cbv beta iota.
    + intros H. injection H as _ <-. repeat (split; [reflexivity|]).
      right. split; reflexivity.
    + destruct (FastABOD.anomaly_score _ None) as [s|e1].
      * destruct (np.percentile s _); intros H; [discriminate|].
        injection H as _ <-. repeat (split; [reflexivity|]).
        right. split; reflexivity.
      * intros H. injection H as _ <-. repeat (split; [reflexivity|]).
        right. split; reflexivity.
  - intros H. injection H as <- <-. destruct self as [f j [k m x] th].
    repeat (split; [reflexivity|]). left. split; reflexivity.
Qed.

(** A [fit] that raises because [n_neighbors] is 0 has stored the data. *)
Lemma FastABOD_fit_without_neighbours (self : FastABOD.t) X :
  check_array X = Ok X ->
  n_neighbors (FastABOD._knn self) = 0 ->
  exists self',
    FastABOD.fit self X =
    (Raise (ValueError [Lit "Expected n_neighbors > 0. Got "; FmtInt 0]),
     self') /\
    FastABOD.X_ self' = Ok X.
Proof.
  intros HX Hk. unfold FastABOD.fit, NearestNeighbors.fit.
  rewrite HX. cbv zeta. cbn [n_neighbors]. rewrite Hk. cbn [Nat.eqb].
  eexists. split; reflexivity.
Qed.

(** C7, as the code has it.  A [OneTimeSampling.fit] that is rejected by
    [_check_params] leaves the engine as it was.  A [fit] that is rejected
    because [n_samples] is not smaller than the number of rows leaves the
    sample indices, the metric object and the threshold as they were
    (absent on an engine never fitted), and leaves [X_] assigned to the new
    training data: [_fit] assigns it first.  Of the other engines,
    [KNN._fit] leaves the engine as it was when it raises, and a
    [FastABOD.fit] that raises leaves the threshold and the parameters as
    they were, and either the data was rejected and the detector is as it
    was, or the index already holds the new data: so it is when
    [n_neighbors] is 0, which is checked after the data has been
    stored. *)
Theorem OneTimeSampling_failed_fit_state :
  (forall (self : OneTimeSampling.t) (X : TwoDimArray) (n d : nat),
      shape X = Some (n, d) ->
      (forall e, OneTimeSampling._check_params self = Raise e ->
                 OneTimeSampling.fit self X = (Raise e, self)) /\
      ((Z.of_nat n <= OneTimeSampling.n_samples self)%Z ->
       exists msg self',
         OneTimeSampling._fit self X = (Raise (ValueError msg), self') /\
         (OneTimeSampling._check_params self = Ok tt ->
          OneTimeSampling.fit self X = (Raise (ValueError msg), self')) /\
         OneTimeSampling.sampled_ self' = OneTimeSampling.sampled_ self /\
         OneTimeSampling._metric self' = OneTimeSampling._metric self /\
         OneTimeSampling.threshold_ self' = OneTimeSampling.threshold_ self /\
         OneTimeSampling.X_ self' = Some X)) /\
  (forall (self self' : KNN.t) X e,
      KNN._fit self X = (Raise e, self') -> self' = self) /\
  (forall (self self' : FastABOD.t) X e,
      FastABOD.fit self X = (Raise e, self') ->
      FastABOD.threshold_ self' = FastABOD.threshold_ self /\
      FastABOD.fpr self' = FastABOD.fpr self /\
      FastABOD.n_jobs self' = FastABOD.n_jobs self /\
      n_neighbors (FastABOD._knn self') = n_neighbors (FastABOD._knn self) /\
      metric (FastABOD._knn self') = metric (FastABOD._knn self) /\
      ((check_array X = Raise e /\ self' = self) \/
       (check_array X = Ok X /\ FastABOD.X_ self' = Ok X))) /\
  (forall (self : FastABOD.t) X,
      check_array X = Ok X ->
      n_neighbors (FastABOD._knn self) = 0 ->
      exists self',
        FastABOD.fit self X =
        (Raise (ValueError [Lit "Expected n_neighbors > 0. Got "; FmtInt 0]),
         self') /\
        FastABOD.X_ self' = Ok X).
Proof.
  split; [|split; [|split]].
  - intros self X n d Hs. split.
    + intros e He. unfold OneTimeSampling.fit, BaseOutlierDetector.fit.
      now rewrite He.
    + intros Hm. eexists. eexists.
      split; [exact (OneTimeSampling_fit_too_many_samples self X n d Hs Hm)|].
      split; [|repeat split].
      intros Hc. unfold OneTimeSampling.fit, BaseOutlierDetector.fit.
      rewrite Hc, (OneTimeSampling_fit_too_many_samples self X n d Hs Hm).
      reflexivity.
  - exact KNN_fit_raises_unchanged.
  - exact FastABOD_fit_raises_state.
  - exact FastABOD_fit_without_neighbours.
Qed.

Lemma OneTimeSampling_failed_fit_state_witness :
  exists msg self',
    OneTimeSampling.fit (ex_ots 3) (ex_rows 2) = (Raise (ValueError msg), self') /\
    OneTimeSampling._metric self' = None /\
    OneTimeSampling.X_ self' = Some (ex_rows 2).
Proof.
  destruct OneTimeSampling_failed_fit_state as [H _].
  destruct (H (ex_ots 3) (ex_rows 2) 2 1 eq_refl) as [_ H'].
  destruct H' as (msg & self' & _ & E & _ & Hm & _ & HX).
  - simpl. lia.
  - exists msg, self'. split; [apply E; reflexivity|].
    split; [exact Hm | exact HX].
Defined.

(* ------------------------------------------------------------------ *)
(** ** KNN.anomaly_score                                               *)
(* ------------------------------------------------------------------ *)

Lemma fold_max_spec t x :
  let m := fold_left (fun m v => if Qc_leb m v then v else m) t x in
  (m = x \/ In m t) /\ (x <= m)%Qc /\ Forall (fun d => (d <= m)%Qc) t.
Proof.
  revert x; induction t as [|v t IH]; intros x; simpl.
  - split; [now left|]. split; [apply Qcle_refl | constructor].
  - destruct (Qc_leb x v) eqn:E.
    + destruct (IH v) as (Hin & Hle & Hall).
      apply Qc_leb_le in E.
      split; [destruct Hin; auto|].
      split; [eapply Qcle_trans; eassumption|].
      constructor; assumption.
    + destruct (IH x) as (Hin & Hle & Hall).
      apply Qc_leb_false in E.
      split; [destruct Hin; auto|]. split; [assumption|].
      constructor; [eapply Qcle_trans; eassumption | assumption].
Qed.

Lemma np_max_spec l m : np.max l = Ok m -> is_max m l.
Proof.
  destruct l as [|x t]; simpl; [discriminate|].
  intros H. apply Ok_inj in H. subst m.
  destruct (fold_max_spec t x) as (Hin & Hle & Hall).
  split.
  - destruct Hin as [->|Hin]; [now left | now right].
  - constructor; assumption.
Qed.

Lemma np_max_Ok l : l <> [] -> exists m, np.max l = Ok m.
Proof.
  destruct l as [|x t]; [congruence|]. simpl. eauto.
Qed.

Lemma Forall2_map_l {A B C} (P : B -> C -> Prop) (f : A -> B) l l' :
  Forall2 P (map f l) l' <-> Forall2 (fun a c => P (f a) c) l l'.
Proof.
  revert l'; induction l as [|a l IH]; intros l'; simpl.
  - split; intros H; inversion H; constructor.
  - split; intros H; inversion H; subst; constructor;
      try assumption; now apply IH.
Qed.

Lemma Forall2_map_self {A B} (f : A -> B) l :
  Forall2 (fun a b => b = f a) l (map f l).
Proof.
  induction l; simpl; constructor; auto.
Qed.

Lemma KNN_X_ (self : KNN.t) knn X_train :
  KNN._knn self = Some knn -> _fit_X knn = Some X_train ->
  KNN.X_ self = Ok X_train.
Proof.
  intros H1 H2. unfold KNN.X_. rewrite H1. simpl. now rewrite H2.
Qed.

Lemma KNN_anomaly_score_unfold (self : KNN.t) knn X_train X :
  KNN._knn self = Some knn -> fitted_on knn X_train ->
  check_array X = Ok X ->
  KNN.anomaly_score self X =
  (nb <- kneighbors knn (KNN_query X X_train) ;;
   if KNN.weight self then Ok (map np.sum (map (map fst) nb))
   else mapM np.max (map (map fst) nb)).
Proof.
  intros Hk Hf HX. destruct (fitted_on_inv _ _ Hf) as (Hfit & _ & _).
  unfold KNN.anomaly_score. rewrite Hk. simpl. rewrite HX. simpl.
  rewrite (KNN_X_ self knn X_train Hk Hfit). simpl.
  unfold KNN_query. destruct (np.array_equal X X_train); reflexivity.
Qed.

(** *** The neighbours are the nearest rows *)

Lemma insert_sorted x l :
  Sorted (fun a b : Qc * nat => (fst a <= fst b)%Qc) l ->
  Sorted (fun a b : Qc * nat => (fst a <= fst b)%Qc) (insert x l).
Proof.
  induction l as [|y t IH]; simpl; intros Hs.
  - repeat constructor.
  - destruct (Qc_leb (fst x) (fst y)) eqn:E.
    + constructor; [assumption|]. constructor. now apply Qc_leb_le.
    + inversion Hs as [|? ? Ht Hd]; subst.
      constructor; [now apply IH|].
      destruct t as [|z t]; simpl.
      * constructor. now apply Qc_leb_false.
      * destruct (Qc_leb (fst x) (fst z)); constructor;
          [now apply Qc_leb_false | now inversion Hd].
Qed.

Lemma sort_by_distance_sorted l :
  StronglySorted (fun a b : Qc * nat => (fst a <= fst b)%Qc)
    (sort_by_distance l).
Proof.
  apply Sorted_StronglySorted.
  - intros a b c Hab Hbc. eapply Qcle_trans; eassumption.
  - induction l as [|x t IH]; simpl; [constructor|].
    now apply insert_sorted.
Qed.

Lemma StronglySorted_app_le {A} (R : A -> A -> Prop) l1 l2 a b :
  StronglySorted R (l1 ++ l2) -> In a l1 -> In b l2 -> R a b.
Proof.
  induction l1 as [|x l1 IH]; simpl; intros Hs Ha Hb; [contradiction|].
  inversion Hs as [|? ? Ht Hall]; subst.
  destruct Ha as [->|Ha]; [|now apply IH].
  rewrite Forall_forall in Hall. apply Hall. apply in_or_app. now right.
Qed.

Lemma candidate_In {A} (f : A -> Qc) (train : list A) s j a :
  nth_error train j = Some a ->
  In (f a, s + j) (combine (map f train) (seq s (length train))).
Proof.
  revert s j; induction train as [|x t IH]; intros s j; simpl.
  - destruct j; discriminate.
  - destruct j as [|j]; simpl.
    + intros H. injection H as ->. left. f_equal. lia.
    + intros H. right. replace (s + S j) with (S s + j) by lia. now apply IH.
Qed.

(** A reference row that was not selected is at least as far from the
    query row as every selected one. *)
Lemma nearest_are_nearest (self : NearestNeighbors.t) train k q j a c :
  nth_error train j = Some a ->
  ~ In j (map snd (nearest self train k q)) ->
  In c (nearest self train k q) ->
  (fst c <= metric self q a)%Qc.
Proof.
  intros Hj Hnot Hc. unfold nearest in *.
  set (L := sort_by_distance
              (combine (map (metric self q) train) (seq 0 (length train)))) in *.
  pose proof (sort_by_distance_sorted
                (combine (map (metric self q) train) (seq 0 (length train))))
    as Hs.
  fold L in Hs. rewrite <- (firstn_skipn k L) in Hs.
  assert (Hin : In (metric self q a, j) L).
  { apply (Permutation_in _ (Permutation_sym (sort_by_distance_perm _))).
    exact (candidate_In (metric self q) train 0 j a Hj). }
  rewrite <- (firstn_skipn k L) in Hin. apply in_app_or in Hin as [Hin|Hin].
  - exfalso. apply Hnot. apply in_map_iff. exists (metric self q a, j). auto.
  - exact (StronglySorted_app_le _ _ _ _ _ Hs Hc Hin).
Qed.

(** The same for a row of the reference set, whose own index is dropped
    from its candidates: a metric that is non-negative and puts a row at
    distance zero from itself is needed for the case where the row is not
    among its own candidates. *)
Lemma drop_self_are_nearest (self : NearestNeighbors.t) train k i q j a c :
  (forall x, metric self x x = 0%Qc) ->
  (forall x y, (0 <= metric self x y)%Qc) ->
  nth_error train i = Some q ->
  nth_error train j = Some a ->
  j <> i ->
  ~ In j (map snd (drop_self i (nearest self train k q))) ->
  In c (drop_self i (nearest self train k q)) ->
  (fst c <= metric self q a)%Qc.
Proof.
  intros Hrefl Hpos Hi Hj Hne Hnot Hc.
  destruct (drop_self_spec i _ (nearest_NoDup self train k q))
    as (_ & _ & Hsub).
  destruct (in_dec Nat.eq_dec j (map snd (nearest self train k q)))
    as [Hin|Hout].
  2:{ apply (nearest_are_nearest self train k q j a c Hj Hout).
      now apply Hsub. }
  unfold drop_self in Hnot, Hc.
  destruct (existsb (fun c0 => snd c0 =? i) (nearest self train k q)) eqn:Hex.
  - exfalso. apply Hnot. apply in_map_iff in Hin as (c0 & Hs0 & Hc0).
    apply in_map_iff. exists c0. split; [assumption|].
    apply filter_In. split; [assumption|].
    apply negb_true_iff, Nat.eqb_neq. congruence.
  - assert (Hself : ~ In i (map snd (nearest self train k q))).
    { intros H. apply in_map_iff in H as (c0 & Hs0 & Hc0).
      assert (existsb (fun c1 => snd c1 =? i) (nearest self train k q) = true)
        as E.
      { apply existsb_exists. exists c0. split; [assumption|].
        now apply Nat.eqb_eq. }
      congruence. }
    assert (Hcn : In c (nearest self train k q)).
    { destruct (nearest self train k q); [contradiction | now right]. }
    pose proof (nearest_are_nearest self train k q i q c Hi Hself Hcn) as Hle.
    rewrite Hrefl in Hle.
    eapply Qcle_trans; [exact Hle | apply Hpos].
Qed.

Lemma nth_error_map2 {A B} (f : nat * A -> B) (l : list A) i a :
  nth_error l i = Some a ->
  nth_error (map f (combine (seq 0 (length l)) l)) i = Some (f (i, a)).
Proof.
  intros H.
  assert (G : forall s, nth_error (combine (seq s (length l)) l) i
                        = Some (s + i, a)).
  { revert i H. induction l as [|x t IH]; intros i H s; simpl.
    - destruct i; discriminate.
    - destruct i as [|i]; simpl in *.
      + injection H as ->. f_equal. f_equal. lia.
      + rewrite (IH i H (S s)). f_equal. f_equal. lia. }
  rewrite nth_error_map, (G 0). reflexivity.
Qed.

(** The rows that a query of the reference set itself returns are the
    nearest among the other rows. *)
Lemma kneighbors_None_nearest (self : NearestNeighbors.t) train nb :
  (forall x, metric self x x = 0%Qc) ->
  (forall x y, (0 <= metric self x y)%Qc) ->
  _fit_X self = Some train ->
  kneighbors self None = Ok nb ->
  forall i q nbi j a c,
    nth_error train i = Some q ->
    nth_error nb i = Some nbi ->
    nth_error train j = Some a ->
    j <> i ->
    ~ In j (map snd nbi) ->
    In c nbi ->
    (fst c <= metric self q a)%Qc.
Proof.
  intros Hrefl Hpos Hfit Hnb i q nbi j a c Hi Hnbi Hj Hne Hnot Hc.
  unfold kneighbors in Hnb. rewrite Hfit in Hnb.
  destruct (length train <? n_neighbors self + 1); [discriminate|].
  apply Ok_inj in Hnb. subst nb.
  rewrite (nth_error_map2
             (fun iq => drop_self (fst iq)
                          (nearest self train (n_neighbors self + 1) (snd iq)))
             train i q Hi) in Hnbi.
  apply (f_equal (fun o => match o with Some v => v | None => [] end)) in Hnbi.
  simpl in Hnbi. subst nbi.
  exact (drop_self_are_nearest self train _ i q j a c Hrefl Hpos Hi Hj Hne
           Hnot Hc).
Qed.

Lemma sqeuclidean_refl x : sqeuclidean x x = 0%Qc.
Proof.
  unfold sqeuclidean. apply dot_self_zero. now apply vsub_zero.
Qed.

Lemma sqeuclidean_nonneg x y : (0 <= sqeuclidean x y)%Qc.
Proof. unfold sqeuclidean. apply dot_self_nonneg. Qed.

(** C2.  On a fitted [KNN]: when [X] is the training set, the neighbours
    of row [i] are [n_neighbors] distinct training rows none of which is
    row [i], so that no score is computed from the distance of a row to
    itself, and for a metric that is non-negative and zero from a row to
    itself they are the nearest of the other rows; in every case the score
    of a row is the sum of the distances to its neighbours when [weight]
    is true and the largest of them otherwise; and scoring the training
    set returns one score per row when there are more rows than
    neighbours. *)
Theorem KNN_anomaly_score_excludes_self :
  forall (self : KNN.t) knn (X_train X : TwoDimArray),
    KNN._knn self = Some knn ->
    fitted_on knn X_train ->
    (forall scores,
        KNN.anomaly_score self X = Ok scores ->
        exists nb,
          kneighbors knn (KNN_query X X_train) = Ok nb /\
          Forall2 (neighbours_of knn X_train) X nb /\
          Forall2 (fun nbq s =>
                     if KNN.weight self then s = np.sum (map fst nbq)
                     else is_max s (map fst nbq)) nb scores /\
          (X = X_train ->
           KNN_query X X_train = None /\
           (forall i nbi c,
               nth_error nb i = Some nbi -> In c nbi -> snd c <> i) /\
           ((forall x, metric knn x x = 0%Qc) ->
            (forall x y, (0 <= metric knn x y)%Qc) ->
            forall i q nbi j a c,
              nth_error X_train i = Some q ->
              nth_error nb i = Some nbi ->
              nth_error X_train j = Some a ->
              j <> i ->
              ~ In j (map snd nbi) ->
              In c nbi ->
              (fst c <= metric knn q a)%Qc))) /\
    (X = X_train ->
     n_neighbors knn < length X_train ->
     exists scores,
       KNN.anomaly_score self X = Ok scores /\
       length scores = length X_train).
Proof.
  intros self knn X_train X Hk Hf.
  destruct (fitted_on_inv _ _ Hf) as (Hfit & Hchk & Hpos).
  assert (Hq : X = X_train -> KNN_query X X_train = None).
  { intros ->. unfold KNN_query, np.array_equal.
    destruct (list_eq_dec (list_eq_dec Qc_eq_dec) X_train X_train);
      congruence. }
  split.
  - intros scores Hs.
    assert (HX : check_array X = Ok X).
    { unfold KNN.anomaly_score in Hs. rewrite Hk in Hs. simpl in Hs.
      destruct (check_array X) as [X'|e] eqn:E; [|discriminate].
      now destruct (check_array_Ok _ _ E) as (-> & _). }
    rewrite (KNN_anomaly_score_unfold self knn X_train X Hk Hf HX) in Hs.
    destruct (kneighbors knn (KNN_query X X_train)) as [nb|e] eqn:Hnb;
      [|discriminate].
    simpl in Hs. exists nb. split; [reflexivity|].
    assert (H2 : Forall2 (neighbours_of knn X_train) X nb /\
                 (X = X_train -> forall i nbi c,
                     nth_error nb i = Some nbi -> In c nbi -> snd c <> i)).
    { unfold KNN_query, np.array_equal in Hnb.
      destruct (list_eq_dec (list_eq_dec Qc_eq_dec) X X_train) as [->|Hne].
      - destruct (kneighbors_None_spec _ _ _ Hfit Hnb) as (_ & H2 & Hself).
        split; [assumption|]. intros _. exact Hself.
      - destruct (kneighbors_Some_spec _ _ _ _ Hfit Hnb) as (_ & _ & H2).
        split; [assumption|]. intros E. contradiction. }
    destruct H2 as (H2 & Hself). split; [assumption|]. split.
    + destruct (KNN.weight self).
      * apply Ok_inj in Hs. subst scores. rewrite map_map.
        apply Forall2_map_self.
      * apply mapM_Ok_Forall2, Forall2_map_l in Hs.
        eapply Forall2_impl; [|exact Hs].
        intros nbq s Hm. now apply np_max_spec.
    + intros E. split; [now apply Hq|]. split; [now apply Hself|].
      intros Hrefl Hnonneg. rewrite (Hq E) in Hnb.
      exact (kneighbors_None_nearest knn X_train nb Hrefl Hnonneg Hfit Hnb).
  - intros -> Hlt.
    rewrite (KNN_anomaly_score_unfold self knn X_train X_train Hk Hf Hchk).
    rewrite (Hq eq_refl).
    destruct (kneighbors_None_Ok _ _ Hfit Hlt) as (nb & Hnb).
    rewrite Hnb. simpl.
    destruct (kneighbors_None_spec _ _ _ Hfit Hnb) as (_ & H2 & _).
    pose proof (Forall2_length H2) as Hlen.
    destruct (KNN.weight self).
    + eexists. split; [reflexivity|]. rewrite !length_map. now symmetry.
    + destruct (mapM_total np.max (map (map fst) nb)) as (scores & Hs).
      * intros l Hl. apply np_max_Ok.
        apply in_map_iff in Hl as (nbq & <- & Hin).
        destruct (Forall2_In_r _ _ _ _ H2 Hin) as (q & _ & Hk' & _).
        intros Hnil. apply map_eq_nil in Hnil. subst nbq. simpl in Hk'. lia.
      * exists scores. split; [exact Hs|].
        apply mapM_length in Hs. rewrite length_map in Hs. lia.
Qed.

Lemma KNN_anomaly_score_excludes_self_witness :
  exists scores,
    KNN.anomaly_score (ex_knn_fitted_detector false) ex_train = Ok scores /\
    length scores = 5.
Proof.
  destruct (KNN_anomaly_score_excludes_self (ex_knn_fitted_detector false)
              (ex_knn 2) ex_train ex_train eq_refl
              (ex_knn_fitted 2 (Nat.lt_0_succ 1))) as [_ H].
  apply H; [reflexivity | simpl; lia].
Defined.


(* ------------------------------------------------------------------ *)
(** ** More on FastABOD: sign of the scores, fit, number of jobs        *)
(* ------------------------------------------------------------------ *)

Lemma this_inv (a : Qc) : (this (/ a)%Qc == / this a)%Q.
Proof. unfold Qcinv, Q2Qc. cbn [this]. apply Qred_correct. Qed.

Lemma Qc_div_nonneg (a b : Qc) :
  (0 <= a)%Qc -> (0 <= b)%Qc -> (0 <= a / b)%Qc.
Proof.
  unfold Qcle, Qcdiv. intros Ha Hb. rewrite this_mult, this_inv.
  change (this 0%Qc) with 0%Q in *.
  apply Qmult_le_0_compat; [assumption|]. now apply Qinv_le_0_compat.
Qed.

Lemma sum_nonneg l :
  Forall (fun x => (0 <= x)%Qc) l -> (0 <= np.sum l)%Qc.
Proof.
  induction 1 as [|x l Hx _ IH]; simpl; [apply Qcle_refl|].
  now apply Qc_sum_nonneg.
Qed.

Lemma of_nat_nonneg n : (0 <= of_nat n)%Qc.
Proof.
  unfold Qcle, of_nat. rewrite this_of_Z. change (this 0%Qc) with 0%Q.
  change 0%Q with (inject_Z 0). rewrite <- Zle_Qle. lia.
Qed.

(** A variance is never negative. *)
Lemma variance_nonneg l : (0 <= variance l)%Qc.
Proof.
  unfold variance. apply Qc_div_nonneg; [|apply of_nat_nonneg].
  apply sum_nonneg. apply Forall_forall. intros y Hy.
  apply in_map_iff in Hy as (x & <- & _). apply Qc_sq_nonneg.
Qed.

Lemma Qc_opp_nonpos (a : Qc) : (0 <= a)%Qc -> (- a <= 0)%Qc.
Proof.
  unfold Qcle. intros H. rewrite this_opp.
  change (this 0%Qc) with 0%Q in *. lra.
Qed.

(** The scores of a fitted detector, whenever there are scores. *)
Lemma anomaly_score_Ok_spec (self : FastABOD.t) X X_train scores :
  fitted_on (FastABOD._knn self) X_train ->
  FastABOD.anomaly_score self X = Ok scores ->
  exists nb,
    kneighbors (FastABOD._knn self) X = Ok nb /\
    scores =
    map (fun pi => (- abof_spec X_train (fst pi) (snd pi))%Qc)
        (abof_rows (query_rows X_train X) nb).
Proof.
  intros Hf Hs.
  pose proof (anomaly_score_Ok_n_jobs self X scores Hs) as Hj.
  destruct (kneighbors (FastABOD._knn self) X) as [nb|e] eqn:Hnb.
  2:{ rewrite (anomaly_score_kneighbors_raises self X e Hnb) in Hs.
      discriminate. }
  exists nb. split; [reflexivity|].
  destruct (anomaly_score_outcome self X X_train nb Hj Hf Hnb)
    as [(E & _)|(E & _)]; [|congruence].
  rewrite E in Hs. now apply Ok_inj in Hs.
Qed.

Lemma anomaly_score_nonpositive (self : FastABOD.t) X X_train scores :
  fitted_on (FastABOD._knn self) X_train ->
  FastABOD.anomaly_score self X = Ok scores ->
  Forall (fun s => (s <= 0)%Qc) scores.
Proof.
  intros Hf Hs.
  destruct (anomaly_score_Ok_spec self X X_train scores Hf Hs) as (nb & _ & ->).
  apply Forall_forall. intros s Hin.
  apply in_map_iff in Hin as (pi & <- & _).
  apply Qc_opp_nonpos, variance_nonneg.
Qed.

(** *** The percentile lies among the scores *)

Lemma StronglySorted_nth_le l i j :
  StronglySorted Qcle l -> i <= j -> j < length l ->
  (nth i l 0 <= nth j l 0)%Qc.
Proof.
  intros Hs. revert i j.
  induction Hs as [|x l Hs IH Hall]; intros i j Hij Hj; simpl in Hj; [lia|].
  destruct j as [|j].
  - assert (i = 0) as -> by lia. apply Qcle_refl.
  - destruct i as [|i]; simpl.
    + rewrite Forall_forall in Hall. apply Hall. apply nth_In. lia.
    + apply IH; lia.
Qed.

Lemma np_sort_strongly_sorted l : StronglySorted Qcle (np.sort l).
Proof.
  apply Sorted_StronglySorted.
  - intros a b c Hab Hbc. eapply Qcle_trans; eassumption.
  - apply np_sort_sorted.
Qed.

Lemma percentile_Ok_inv a q th :
  np.percentile a q = Ok th ->
  (0 <= q)%Qc /\ (q <= of_Z 100)%Qc /\ a <> [].
Proof.
  unfold np.percentile.
  destruct (Qc_ltb q 0) eqn:H0; [discriminate|]. cbn [orb].
  destruct (Qc_ltb (of_Z 100) q) eqn:H1; [discriminate|].
  intros H. split; [now apply Qc_ltb_false|]. split; [now apply Qc_ltb_false|].
  intros ->. discriminate.
Qed.

Lemma Qfloor_of_nat n : Qfloor (of_nat n) = Z.of_nat n.
Proof.
  unfold of_nat. rewrite (Qfloor_comp _ _ (this_of_Z (Z.of_nat n))).
  apply Qfloor_Z.
Qed.

Lemma position_le q n :
  (0 <= q)%Qc -> (q <= of_Z 100)%Qc ->
  (q / of_Z 100 * of_nat n <= of_nat n)%Qc.
Proof.
  unfold Qcle. intros H0 H1. change (this 0%Qc) with 0%Q in *.
  unfold Qcdiv. rewrite !this_mult. unfold of_nat.
  rewrite this_of_Z in *.
  assert (H100 : (this (/ of_Z 100)%Qc == 1 # 100)%Q) by reflexivity.
  rewrite H100.
  assert (Hn : (0 <= inject_Z (Z.of_nat n))%Q).
  { change 0%Q with (inject_Z 0). rewrite <- Zle_Qle. lia. }
  change (inject_Z 100) with (100 # 1)%Q in H1.
  set (x := this q) in *. set (y := inject_Z (Z.of_nat n)) in *.
  clearbody x y. nra.
Qed.

Lemma below_le q n :
  (0 <= q)%Qc -> (q <= of_Z 100)%Qc ->
  Z.to_nat (Qfloor (q / of_Z 100 * of_nat n)%Qc) <= n.
Proof.
  intros H0 H1. pose proof (position_le q n H0 H1) as Hle.
  apply Qfloor_resp_le in Hle. rewrite Qfloor_of_nat in Hle. lia.
Qed.

Lemma Qc_interpolation (u v w : Qc) :
  (u <= v)%Qc -> (0 <= w)%Qc -> (w < 1)%Qc ->
  (u <= u + w * (v - u))%Qc /\ (u + w * (v - u) <= v)%Qc.
Proof.
  unfold Qcle, Qclt. intros Huv H0 H1.
  rewrite this_plus, this_mult, this_minus.
  change (this 0%Qc) with 0%Q in *. change (this 1%Qc) with 1%Q in *.
  set (a := this u) in *. set (b := this v) in *. set (c := this w) in *.
  clearbody a b c. split; nra.
Qed.

(** [np.percentile] returns a value between two members of its
    argument. *)
Lemma percentile_between a q th :
  np.percentile a q = Ok th ->
  exists lo hi, In lo a /\ In hi a /\ (lo <= th)%Qc /\ (th <= hi)%Qc.
Proof.
  intros H. destruct (percentile_Ok_inv a q th H) as (H0 & H1 & Hne).
  pose proof (percentile_linear_interpolation a q th H) as Hint.
  cbv zeta in Hint. destruct Hint as (_ & Hperm & Hw0 & Hw1 & Hth).
  pose proof (np_sort_strongly_sorted a) as Hs.
  set (ap := np.sort a) in *.
  assert (Hlen : 0 < length ap).
  { destruct ap as [|x t] eqn:E; [|simpl; lia].
    apply Permutation_nil in Hperm. congruence. }
  pose proof (below_le q (length ap - 1) H0 H1) as Hb.
  set (below := Z.to_nat (Qfloor (q / of_Z 100 * of_nat (length ap - 1))%Qc))
    in *.
  set (above := Nat.min (below + 1) (length ap - 1)) in *.
  assert (Habove : above < length ap) by (unfold above; lia).
  assert (Hba : below <= above) by (unfold above; lia).
  exists (nth below ap 0%Qc), (nth above ap 0%Qc).
  split; [apply (Permutation_in _ Hperm), nth_In; lia|].
  split; [apply (Permutation_in _ Hperm), nth_In; lia|].
  rewrite Hth. apply Qc_interpolation; try assumption.
  now apply StronglySorted_nth_le.
Qed.

Lemma sorted_last_is_max l :
  l <> [] -> StronglySorted Qcle l ->
  is_max (nth (length l - 1) l 0%Qc) l.
Proof.
  intros Hne Hs.
  assert (Hlen : 0 < length l) by (destruct l; [congruence | simpl; lia]).
  split; [apply nth_In; lia|].
  apply Forall_forall. intros x Hx.
  destruct (In_nth _ _ 0%Qc Hx) as (i & Hi & <-).
  apply StronglySorted_nth_le; [assumption | lia | lia].
Qed.

Lemma sorted_first_is_min l :
  l <> [] -> StronglySorted Qcle l -> is_min (nth 0 l 0%Qc) l.
Proof.
  intros Hne Hs.
  assert (Hlen : 0 < length l) by (destruct l; [congruence | simpl; lia]).
  split; [apply nth_In; lia|].
  apply Forall_forall. intros x Hx.
  destruct (In_nth _ _ 0%Qc Hx) as (i & Hi & <-).
  apply StronglySorted_nth_le; [assumption | lia | lia].
Qed.

Lemma is_max_perm s l l' : Permutation l l' -> is_max s l -> is_max s l'.
Proof.
  intros Hp [Hin Hall]. split.
  - eapply Permutation_in; eassumption.
  - eapply Permutation_Forall; eassumption.
Qed.

Lemma is_min_perm s l l' : Permutation l l' -> is_min s l -> is_min s l'.
Proof.
  intros Hp [Hin Hall]. split.
  - eapply Permutation_in; eassumption.
  - eapply Permutation_Forall; eassumption.
Qed.

(** At [q = 100] the percentile is the largest member, at [q = 0] the
    smallest. *)
Lemma percentile_100 a th :
  np.percentile a (of_Z 100) = Ok th -> is_max th a.
Proof.
  intros H. destruct (percentile_Ok_inv a _ th H) as (_ & _ & Hne).
  pose proof (percentile_linear_interpolation a _ th H) as Hint.
  cbv zeta in Hint. destruct Hint as (_ & Hperm & _ & _ & Hth).
  pose proof (np_sort_strongly_sorted a) as Hs.
  set (ap := np.sort a) in *.
  assert (Hne' : ap <> []).
  { intros E. rewrite E in Hperm. apply Permutation_nil in Hperm. congruence. }
  assert (Hpos : (of_Z 100 / of_Z 100 * of_nat (length ap - 1))%Qc
                 = of_nat (length ap - 1)).
  { field. intros E. apply (f_equal this) in E. vm_compute in E. discriminate. }
  rewrite Hpos in Hth. rewrite Qfloor_of_nat, Nat2Z.id in Hth.
  replace (Nat.min (length ap - 1 + 1) (length ap - 1)) with (length ap - 1)
    in Hth by lia.
  assert (th = nth (length ap - 1) ap 0%Qc) as -> by (rewrite Hth; ring).
  apply (is_max_perm _ _ _ Hperm). now apply sorted_last_is_max.
Qed.

Lemma percentile_0 a th :
  np.percentile a 0%Qc = Ok th -> is_min th a.
Proof.
  intros H. destruct (percentile_Ok_inv a _ th H) as (_ & _ & Hne).
  pose proof (percentile_linear_interpolation a _ th H) as Hint.
  cbv zeta in Hint. destruct Hint as (_ & Hperm & _ & _ & Hth).
  pose proof (np_sort_strongly_sorted a) as Hs.
  set (ap := np.sort a) in *.
  assert (Hne' : ap <> []).
  { intros E. rewrite E in Hperm. apply Permutation_nil in Hperm. congruence. }
  assert (Hpos : (0 / of_Z 100 * of_nat (length ap - 1))%Qc = 0%Qc).
  { field. intros E. apply (f_equal this) in E. vm_compute in E. discriminate. }
  rewrite Hpos in Hth. change (Qfloor 0%Qc) with 0%Z in Hth.
  change (Z.to_nat 0) with 0 in Hth.
  assert (th = nth 0 ap 0%Qc) as ->.
  { rewrite Hth. change (of_nat 0) with 0%Qc. ring. }
  apply (is_min_perm _ _ _ Hperm). now apply sorted_first_is_min.
Qed.

(** *** fit on a well-formed training set *)

Lemma sqeuclidean_separates : separates sqeuclidean.
Proof.
  intros x y Hlen H. unfold sqeuclidean in H.
  apply dot_self_zero in H. now apply (vsub_zero x y Hlen).
Qed.

Lemma NearestNeighbors_fit_Ok knn X :
  check_array X = Ok X -> 0 < n_neighbors knn ->
  NearestNeighbors.fit knn X =
  (Ok tt, {| n_neighbors := n_neighbors knn; metric := metric knn;
             _fit_X := Some X |}).
Proof.
  intros HX Hk. unfold NearestNeighbors.fit. rewrite HX. cbv zeta.
  cbn [n_neighbors].
  destruct (Nat.eqb_spec (n_neighbors knn) 0); [lia | reflexivity].
Qed.

Lemma check_params_valid_rate (self : FastABOD.t) :
  FastABOD.check_params self = Ok tt -> valid_rate (FastABOD.fpr self).
Proof.
  unfold FastABOD.check_params, valid_rate, BaseOutlierDetector._check_params.
  destruct (Qc_ltb (FastABOD.fpr self) 0 || Qc_ltb 1 (FastABOD.fpr self));
    [discriminate | reflexivity].
Qed.

(** X1.  For a rate [fpr] within [0, 1], well-formed training data and at
    least one neighbour, [FastABOD.fit] can fail in one step only, the
    scoring of the training set on the freshly fitted index: when that
    call returns scores, [fit] returns, with [threshold_] their percentile
    at [100 * (1 - fpr)], [X_] the training set and the parameters as
    before, the percentile step never failing; when it raises, [fit]
    raises the same exception and leaves the index fitted on the new
    data. *)
Theorem FastABOD_fit_fails_only_in_scoring :
  forall (self : FastABOD.t) (X : TwoDimArray),
    FastABOD.check_params self = Ok tt ->
    check_array X = Ok X ->
    0 < n_neighbors (FastABOD._knn self) ->
    let fitted :=
      {| FastABOD.fpr := FastABOD.fpr self;
         FastABOD.n_jobs := FastABOD.n_jobs self;
         FastABOD._knn :=
           {| n_neighbors := n_neighbors (FastABOD._knn self);
              metric := metric (FastABOD._knn self);
              _fit_X := Some X |};
         FastABOD.threshold_ := FastABOD.threshold_ self |} in
    FastABOD.X_ fitted = Ok X /\
    (forall scores,
        FastABOD.anomaly_score fitted None = Ok scores ->
        exists th,
          np.percentile scores (of_Z 100 * (1 - FastABOD.fpr self))%Qc = Ok th /\
          FastABOD.fit self X =
          (Ok tt,
           {| FastABOD.fpr := FastABOD.fpr self;
              FastABOD.n_jobs := FastABOD.n_jobs self;
              FastABOD._knn := FastABOD._knn fitted;
              FastABOD.threshold_ := Some th |})) /\
    (forall e,
        FastABOD.anomaly_score fitted None = Raise e ->
        FastABOD.fit self X = (Raise e, fitted)).
Proof.
  intros self X Hc HX Hk fitted.
  assert (Hfit := NearestNeighbors_fit_Ok (FastABOD._knn self) X HX Hk).
  assert (Hf : fitted_on (FastABOD._knn fitted) X)
    by (exists (FastABOD._knn self); exact Hfit).
  split; [reflexivity|]. split.
  - intros scores Hs.
    destruct (anomaly_score_Ok_spec fitted None X scores Hf Hs)
      as (nb & Hnb & Escores).
    assert (Hne : scores <> []).
    { pose proof (abof_rows_count _ _ _ _ Hf Hnb) as Hlen.
      destruct (check_array_Ok _ _ HX) as (_ & HXne & _).
      intros E. rewrite E in Escores. symmetry in Escores.
      apply map_eq_nil in Escores. rewrite Escores in Hlen.
      simpl in Hlen. destruct X; [congruence | discriminate]. }
    destruct (threshold_of_Ok scores (FastABOD.fpr self) Hne
                (check_params_valid_rate self Hc)) as (th & Hth).
    unfold BaseOutlierDetector.threshold_of in Hth.
    exists th. split; [exact Hth|].
    unfold FastABOD.fit. rewrite Hfit. cbv beta iota zeta.
    change (FastABOD.anomaly_score _ None)
      with (FastABOD.anomaly_score fitted None).
    rewrite Hs. cbn [FastABOD.fpr]. rewrite Hth. reflexivity.
  - intros e He.
    unfold FastABOD.fit. rewrite Hfit. cbv beta iota zeta.
    change (FastABOD.anomaly_score _ None)
      with (FastABOD.anomaly_score fitted None).
    rewrite He. reflexivity.
Qed.

Lemma FastABOD_fit_fails_only_in_scoring_witness :
  exists th,
    FastABOD.fit (ex_abod_new 3 2) ex_train =
    (Ok tt,
     {| FastABOD.fpr := Q2Qc (1 # 10); FastABOD.n_jobs := 2;
        FastABOD._knn := ex_knn 3; FastABOD.threshold_ := Some th |}).
Proof.
  destruct (FastABOD_fit_fails_only_in_scoring (ex_abod_new 3 2) ex_train)
    as (_ & H & _).
  - reflexivity.
  - reflexivity.
  - simpl. lia.
  - destruct (FastABOD.anomaly_score (ex_abod 3 2) None) as [scores|e] eqn:E;
      [|vm_compute in E; discriminate].
    destruct (H scores E) as (th & _ & Hfit).
    exists th. exact Hfit.
Defined.

(** X2.  After a [FastABOD.fit] that returns, no score of the training
    set is positive, and the threshold lies between two of these scores,
    so that it is not positive either; with [fpr = 0] the threshold is the
    largest training score, with [fpr = 1] the smallest. *)
Theorem FastABOD_threshold_among_scores :
  forall (self self' : FastABOD.t) (X : TwoDimArray),
    FastABOD.fit self X = (Ok tt, self') ->
    exists scores th,
      FastABOD.anomaly_score self' None = Ok scores /\
      FastABOD.threshold_ self' = Some th /\
      Forall (fun s => (s <= 0)%Qc) scores /\
      (exists lo hi, In lo scores /\ In hi scores /\
                     (lo <= th)%Qc /\ (th <= hi)%Qc) /\
      (th <= 0)%Qc /\
      (FastABOD.fpr self' = 0%Qc -> is_max th scores) /\
      (FastABOD.fpr self' = 1%Qc -> is_min th scores).
Proof.
  intros self self' X H.
  destruct (FastABOD_fit_threshold self self' X H)
    as (scores & th & Hf & Hs & Ht & Hp).
  exists scores, th. split; [exact Hs|]. split; [exact Ht|].
  pose proof (anomaly_score_nonpositive self' None X scores Hf Hs) as Hneg.
  split; [exact Hneg|].
  destruct (percentile_between _ _ _ Hp) as (lo & hi & Hlo & Hhi & H1 & H2).
  split; [exists lo, hi; auto|]. split.
  - rewrite Forall_forall in Hneg.
    eapply Qcle_trans; [exact H2 | now apply Hneg].
  - split; intros E; rewrite E in Hp.
    + apply percentile_100.
      replace (of_Z 100) with (of_Z 100 * (1 - 0))%Qc by ring. exact Hp.
    + apply percentile_0.
      replace 0%Qc with (of_Z 100 * (1 - 1))%Qc by ring. exact Hp.
Qed.

Lemma FastABOD_threshold_among_scores_witness :
  exists scores th,
    FastABOD.anomaly_score (snd (FastABOD.fit (ex_abod_new 3 1) ex_train)) None
    = Ok scores /\
    FastABOD.threshold_ (snd (FastABOD.fit (ex_abod_new 3 1) ex_train))
    = Some th /\
    (th <= 0)%Qc.
Proof.
  destruct (FastABOD_threshold_among_scores (ex_abod_new 3 1)
              (snd (FastABOD.fit (ex_abod_new 3 1) ex_train)) ex_train)
    as (scores & th & Hs & Ht & _ & _ & Hle & _).
  - destruct (FastABOD.fit (ex_abod_new 3 1) ex_train) as [[[]|e] s'] eqn:E;
      [reflexivity | vm_compute in E; discriminate].
  - exists scores, th. auto.
Defined.

(** *** A training set with a repeated row *)

Lemma nth_error_combine_In {A B} (l : list A) (l' : list B) i a b :
  nth_error l i = Some a -> nth_error l' i = Some b -> In (a, b) (combine l l').
Proof.
  revert l' i; induction l as [|x l IH]; intros [|y l'] [|i]; simpl;
    try discriminate.
  - intros H H'. injection H as ->. injection H' as ->. now left.
  - intros H H'. right. eapply IH; eassumption.
Qed.

Lemma Forall2_nth_error_l {A B} (P : A -> B -> Prop) l l' i a :
  Forall2 P l l' -> nth_error l i = Some a ->
  exists b, nth_error l' i = Some b /\ P a b.
Proof.
  intros H; revert i; induction H as [|x y l l' Hxy _ IH]; intros [|i]; simpl;
    try discriminate.
  - intros E; injection E as <-. eauto.
  - apply IH.
Qed.

(** When the reference set has a row twice, the query of the reference
    set itself selects, for that row, a neighbour equal to it. *)
Lemma repeated_row_coincides knn X_train nb i j p :
  zero_on_self (metric knn) -> nonnegative (metric knn) ->
  separates (metric knn) ->
  fitted_on knn X_train ->
  kneighbors knn None = Ok nb ->
  nth_error X_train i = Some p -> nth_error X_train j = Some p -> i <> j ->
  coincides X_train X_train nb.
Proof.
  intros Hrefl Hpos Hsep Hf Hnb Hi Hj Hne.
  destruct (fitted_on_inv _ _ Hf) as (Hfit & Hchk & Hk).
  destruct (check_array_Ok _ _ Hchk) as (_ & _ & n & d & Hs & _ & _).
  destruct (kneighbors_None_spec _ _ _ Hfit Hnb) as (_ & H2 & _).
  destruct (Forall2_nth_error_l _ _ _ i p H2 Hi) as (nbi & Hnbi & Hlen & _ & Hc).
  apply Exists_exists. exists (p, nbi).
  split; [exact (nth_error_combine_In _ _ i p nbi Hi Hnbi)|].
  cbn [fst snd]. apply Exists_exists.
  destruct (in_dec Nat.eq_dec j (map snd nbi)) as [Hin|Hout].
  - apply in_map_iff in Hin as (c & Hsc & Hin). exists c.
    split; [assumption|]. now rewrite Hsc.
  - destruct nbi as [|c nbi']; [simpl in Hlen; lia|].
    exists c. split; [now left|].
    destruct (Hc c (or_introl eq_refl)) as (_ & a & Ha & Hd).
    pose proof (kneighbors_None_nearest knn X_train nb Hrefl Hpos Hfit Hnb
                  i p (c :: nbi') j p c Hi Hnbi Hj (not_eq_sym Hne) Hout
                  (or_introl eq_refl)) as Hle.
    rewrite (Hrefl p) in Hle.
    assert (Hz : metric knn p a = 0%Qc).
    { apply Qcle_antisym; [now rewrite <- Hd | apply Hpos]. }
    rewrite Ha. f_equal. symmetry. apply Hsep; [|exact Hz].
    rewrite (shape_rows _ _ _ _ Hs (nth_error_In _ _ Hi)).
    rewrite (shape_rows _ _ _ _ Hs (nth_error_In _ _ Ha)). reflexivity.
Qed.

(** X3.  For a metric that is non-negative, zero from a row to itself and
    positive between different rows, a training set in which some row
    occurs twice cannot be fitted: with at least one job and a number of
    neighbours from 2 up to one less than the number of rows,
    [FastABOD.fit] raises the error "X must not contain training
    samples", although the caller passed no query rows; the index has
    then been fitted on the new rows, the threshold is the one from before
    the call, and scoring the training set raises the same error. *)
Theorem FastABOD_fit_rejects_repeated_row :
  forall (self : FastABOD.t) (X : TwoDimArray) (i j : nat) (p : OneDimArray),
    zero_on_self (metric (FastABOD._knn self)) ->
    nonnegative (metric (FastABOD._knn self)) ->
    separates (metric (FastABOD._knn self)) ->
    (1 <= FastABOD.n_jobs self)%Z ->
    2 <= n_neighbors (FastABOD._knn self) < length X ->
    check_array X = Ok X ->
    nth_error X i = Some p -> nth_error X j = Some p -> i <> j ->
    exists self',
      FastABOD.fit self X = (Raise training_sample_error, self') /\
      FastABOD.X_ self' = Ok X /\
      FastABOD.threshold_ self' = FastABOD.threshold_ self /\
      FastABOD.anomaly_score self' None = Raise training_sample_error.
Proof.
  intros self X i j p Hrefl Hpos Hsep Hjobs [Hk Hlt] HX Hi Hj Hne.
  assert (Hfit := NearestNeighbors_fit_Ok (FastABOD._knn self) X HX
                    ltac:(lia)).
  pose (mid := {| FastABOD.fpr := FastABOD.fpr self;
                  FastABOD.n_jobs := FastABOD.n_jobs self;
                  FastABOD._knn :=
                    {| n_neighbors := n_neighbors (FastABOD._knn self);
                       metric := metric (FastABOD._knn self);
                       _fit_X := Some X |};
                  FastABOD.threshold_ := FastABOD.threshold_ self |}).
  assert (Hf : fitted_on (FastABOD._knn mid) X)
    by (exists (FastABOD._knn self); exact Hfit).
  destruct (kneighbors_None_Ok (FastABOD._knn mid) X eq_refl Hlt) as (nb & Hnb).
  assert (Hs : FastABOD.anomaly_score mid None = Raise training_sample_error).
  { apply (training_sample_error_iff mid None X nb Hjobs Hk Hf Hnb).
    exact (repeated_row_coincides (FastABOD._knn mid) X nb i j p
             Hrefl Hpos Hsep Hf Hnb Hi Hj Hne). }
  exists mid. split; [|split; [reflexivity | split; [reflexivity | exact Hs]]].
  unfold FastABOD.fit. rewrite Hfit. cbv beta iota zeta.
  change (FastABOD.anomaly_score _ None)
    with (FastABOD.anomaly_score mid None).
  rewrite Hs. reflexivity.
Qed.

Lemma FastABOD_fit_rejects_repeated_row_witness :
  fst (FastABOD.fit (ex_abod_new 2 1) ex_train_dup) =
  Raise training_sample_error.
Proof.
  destruct (FastABOD_fit_rejects_repeated_row (ex_abod_new 2 1) ex_train_dup
              1 3 (row_of [1; 0]%Z)) as (self' & E & _).
  - exact sqeuclidean_refl.
  - exact sqeuclidean_nonneg.
  - exact sqeuclidean_separates.
  - simpl. lia.
  - simpl. lia.
  - reflexivity.
  - reflexivity.
  - reflexivity.
  - lia.
  - rewrite E. reflexivity.
Defined.

(** *** The number of jobs *)

(** X4.  [n_jobs] must be 1 or more: with [n_jobs < 1], which includes
    the value [-1] that the class documents as "all cores",
    [anomaly_score] returns scores for no input and [fit] does not
    return; on a fitted detector whose neighbour query goes through, the
    call raises the [ValueError] of [Parallel] for [n_jobs = 0] and the
    one of [gen_even_slices] for a negative [n_jobs]. *)
Theorem FastABOD_needs_positive_n_jobs :
  forall (self : FastABOD.t),
    (FastABOD.n_jobs self < 1)%Z ->
    (forall X scores, FastABOD.anomaly_score self X <> Ok scores) /\
    (forall X self', FastABOD.fit self X <> (Ok tt, self')) /\
    (forall X X_train nb,
        fitted_on (FastABOD._knn self) X_train ->
        kneighbors (FastABOD._knn self) X = Ok nb ->
        FastABOD.anomaly_score self X =
        Raise (ValueError
                 (if (FastABOD.n_jobs self =? 0)%Z
                  then [Lit "n_jobs == 0 in Parallel has no meaning"]
                  else [Lit "gen_even_slices got n_packs=";
                        FmtInt (FastABOD.n_jobs self); Lit ", must be >=1"]))).
Proof.
  intros self Hlt. split; [|split].
  - intros X scores H. apply anomaly_score_Ok_n_jobs in H. lia.
  - intros X self' H.
    destruct (FastABOD_fit_threshold self self' X H)
      as (scores & _ & _ & Hs & _).
    apply anomaly_score_Ok_n_jobs in Hs.
    assert (E : FastABOD.n_jobs self' = FastABOD.n_jobs self).
    { revert H. unfold FastABOD.fit.
      destruct (NearestNeighbors.fit (FastABOD._knn self) X) as [[[]|e] knn];
        [|discriminate].
      destruct (FastABOD.anomaly_score _ None); [|discriminate].
      destruct (np.percentile _ _); [|discriminate].
      intros H. injection H as <-. reflexivity. }
    lia.
  - intros X X_train nb Hf Hnb.
    destruct (fitted_on_inv _ _ Hf) as (Hfit & _ & _).
    destruct (kneighbors_fitted _ _ _ _ Hf Hnb) as (_ & (n & d & Hs & _) & _).
    unfold FastABOD.anomaly_score, FastABOD.X_. rewrite Hnb, Hfit.
    cbn [bind getattr].
    assert (G : forall Xq,
               shape Xq = Some (n, d) ->
               match shape Xq with
               | Some (n_samples, _) =>
                   result <-
                     match Parallel (FastABOD.n_jobs self)
                             (fun s => _abof X_train (slice_of Xq s)
                                         (slice_of (map (map snd) nb) s))
                             (gen_even_slices n_samples (FastABOD.n_jobs self))
                     with
                     | Raise FloatingPointError =>
                         Raise (ValueError [Lit "X must not contain training samples"])
                     | r => r
                     end ;;
                   c <- np.concatenate result ;; Ok (map Qcopp c)
               | None => Raise (ValueError [Lit "not enough values to unpack"])
               end =
               Raise (ValueError
                 (if (FastABOD.n_jobs self =? 0)%Z
                  then [Lit "n_jobs == 0 in Parallel has no meaning"]
                  else [Lit "gen_even_slices got n_packs=";
                        FmtInt (FastABOD.n_jobs self); Lit ", must be >=1"]))).
    { intros Xq E. rewrite E. unfold Parallel, gen_even_slices.
      destruct (FastABOD.n_jobs self =? 0)%Z; [reflexivity|].
      destruct (Z.ltb_spec (FastABOD.n_jobs self) 1); [reflexivity | lia]. }
    destruct X as [X|]; cbn [bind]; apply G; exact Hs.
Qed.

Lemma FastABOD_needs_positive_n_jobs_witness :
  FastABOD.anomaly_score (ex_abod 3 (-1)) (Some ex_query) =
  Raise (ValueError [Lit "gen_even_slices got n_packs="; FmtInt (-1);
                     Lit ", must be >=1"]).
Proof.
  destruct (FastABOD_needs_positive_n_jobs (ex_abod 3 (-1))) as (_ & _ & H).
  - simpl. lia.
  - apply (H (Some ex_query) ex_train
             (answer (kneighbors (ex_knn 3) (Some ex_query)))).
    + apply ex_knn_fitted. lia.
    + vm_compute. reflexivity.
Defined.


(* ------------------------------------------------------------------ *)
(** ** More on KNN: rows and neighbours, weights, known rows            *)
(* ------------------------------------------------------------------ *)

Lemma KNN_fit_Ok (self : KNN.t) X :
  check_array X = Ok X -> 0 < KNN.n_neighbors self ->
  KNN._fit self X =
  (Ok tt,
   {| KNN.contamination := KNN.contamination self;
      KNN.metric := KNN.metric self;
      KNN.n_neighbors := KNN.n_neighbors self;
      KNN.weight := KNN.weight self;
      KNN._knn := Some {| n_neighbors := KNN.n_neighbors self;
                          metric := KNN.metric self;
                          _fit_X := Some X |};
      KNN.threshold_ := KNN.threshold_ self |}).
Proof.
  intros HX Hk. unfold KNN._fit.
  rewrite (NearestNeighbors_fit_Ok _ X HX) by exact Hk. reflexivity.
Qed.

Lemma KNN_query_same X : KNN_query X X = None.
Proof.
  unfold KNN_query, np.array_equal.
  destruct (list_eq_dec (list_eq_dec Qc_eq_dec) X X); congruence.
Qed.

Lemma KNN_query_other X X_train : X <> X_train -> KNN_query X X_train = Some X.
Proof.
  intros H. unfold KNN_query, np.array_equal.
  destruct (list_eq_dec (list_eq_dec Qc_eq_dec) X X_train); congruence.
Qed.

Lemma query_rows_KNN_query X X_train :
  query_rows X_train (KNN_query X X_train) = X.
Proof.
  unfold KNN_query, np.array_equal.
  destruct (list_eq_dec (list_eq_dec Qc_eq_dec) X X_train); simpl; congruence.
Qed.

Lemma kneighbors_Some_Ok knn train X :
  _fit_X knn = Some train ->
  check_array X = Ok X ->
  n_neighbors knn <= length train ->
  Forall (fun r => Forall (fun r' => length r = length r') train) X ->
  kneighbors knn (Some X) = Ok (map (nearest knn train (n_neighbors knn)) X).
Proof.
  intros Hfit HX Hk Hw. unfold kneighbors. rewrite Hfit, HX. cbn [bind].
  destruct (Nat.ltb_spec (length train) (n_neighbors knn)); [lia|].
  assert (forallb (fun r => forallb (fun r' => length r =? length r') train) X
          = true) as ->; [|reflexivity].
  apply forallb_forall. intros r Hr. apply forallb_forall. intros r' Hr'.
  apply Nat.eqb_eq. rewrite Forall_forall in Hw. specialize (Hw r Hr).
  rewrite Forall_forall in Hw. now apply Hw.
Qed.

Lemma kneighbors_Some_Ok_inv knn train X nb :
  _fit_X knn = Some train ->
  kneighbors knn (Some X) = Ok nb ->
  nb = map (nearest knn train (n_neighbors knn)) X.
Proof.
  intros Hfit Hnb.
  destruct (kneighbors_Some_spec _ _ _ _ Hfit Hnb) as (HX & Hw & H2).
  assert (Hk : n_neighbors knn <= length train).
  { unfold kneighbors in Hnb. rewrite Hfit, HX in Hnb. cbn [bind] in Hnb.
    destruct (Nat.ltb_spec (length train) (n_neighbors knn));
      [discriminate | assumption]. }
  rewrite (kneighbors_Some_Ok knn train X Hfit HX Hk Hw) in Hnb.
  now apply Ok_inj in Hnb.
Qed.

(** The reduction of the distances: one score per row. *)
Lemma KNN_reduce_total (weight : bool) knn train Xq nb :
  0 < n_neighbors knn ->
  Forall2 (neighbours_of knn train) Xq nb ->
  exists scores,
    (if weight then Ok (map np.sum (map (map fst) nb))
     else mapM np.max (map (map fst) nb)) = Ok scores /\
    length scores = length Xq.
Proof.
  intros Hk H2. pose proof (Forall2_length H2) as Hlen.
  destruct weight.
  - eexists. split; [reflexivity|]. rewrite !length_map. now symmetry.
  - destruct (mapM_total np.max (map (map fst) nb)) as (scores & Hs).
    + intros l Hl. apply np_max_Ok.
      apply in_map_iff in Hl as (nbq & <- & Hin).
      destruct (Forall2_In_r _ _ _ _ H2 Hin) as (q & _ & Hk' & _).
      intros Hnil. apply map_eq_nil in Hnil. subst nbq. simpl in Hk'. lia.
    + exists scores. split; [exact Hs|].
      apply mapM_length in Hs. rewrite length_map in Hs. lia.
Qed.

(** X5.  [KNN._fit] on a well-formed training set, with at least one
    neighbour, returns, and [X_] is then the training set.  Scoring the
    training set afterwards needs one row more than neighbours, because a
    row is not counted among its own neighbours: with
    [n_neighbors < n] rows there is one score per row, and with
    [n_neighbors >= n] the call raises the [ValueError] of the neighbour
    query, which names [n] and [n_neighbors + 1].  New rows of the same
    width only need [n_neighbors <= n]. *)
Theorem KNN_training_set_needs_spare_row :
  forall (self : KNN.t) (X : TwoDimArray),
    check_array X = Ok X ->
    0 < KNN.n_neighbors self ->
    exists self',
      KNN._fit self X = (Ok tt, self') /\
      KNN.X_ self' = Ok X /\
      (KNN.n_neighbors self < length X ->
       exists scores,
         KNN.anomaly_score self' X = Ok scores /\
         length scores = length X) /\
      (length X <= KNN.n_neighbors self ->
       KNN.anomaly_score self' X =
       Raise (ValueError
         [Lit "Expected n_neighbors <= n_samples,  but n_samples = ";
          FmtInt (Z.of_nat (length X)); Lit ", n_neighbors = ";
          FmtInt (Z.of_nat (KNN.n_neighbors self + 1))])) /\
      (forall X',
          X' <> X ->
          check_array X' = Ok X' ->
          Forall (fun r => Forall (fun r' => length r = length r') X) X' ->
          KNN.n_neighbors self <= length X ->
          exists scores,
            KNN.anomaly_score self' X' = Ok scores /\
            length scores = length X').
Proof.
  intros self X HX Hk.
  pose (knn := {| n_neighbors := KNN.n_neighbors self;
                  metric := KNN.metric self;
                  _fit_X := Some X |}).
  pose (self' := {| KNN.contamination := KNN.contamination self;
                    KNN.metric := KNN.metric self;
                    KNN.n_neighbors := KNN.n_neighbors self;
                    KNN.weight := KNN.weight self;
                    KNN._knn := Some knn;
                    KNN.threshold_ := KNN.threshold_ self |}).
  assert (Hf : fitted_on knn X).
  { exists {| n_neighbors := KNN.n_neighbors self;
              metric := KNN.metric self; _fit_X := None |}.
    exact (NearestNeighbors_fit_Ok
             {| n_neighbors := KNN.n_neighbors self;
                metric := KNN.metric self; _fit_X := None |} X HX Hk). }
  exists self'. split; [exact (KNN_fit_Ok self X HX Hk)|].
  split; [reflexivity|]. split; [|split].
  - intros Hlt.
    rewrite (KNN_anomaly_score_unfold self' knn X X eq_refl Hf HX).
    rewrite KNN_query_same.
    destruct (kneighbors_None_Ok knn X eq_refl Hlt) as (nb & Hnb).
    rewrite Hnb. cbn [bind].
    destruct (kneighbors_None_spec knn X nb eq_refl Hnb) as (_ & H2 & _).
    exact (KNN_reduce_total (KNN.weight self') knn X X nb Hk H2).
  - intros Hle.
    rewrite (KNN_anomaly_score_unfold self' knn X X eq_refl Hf HX).
    rewrite KNN_query_same. unfold kneighbors. cbn [_fit_X knn n_neighbors].
    destruct (Nat.ltb_spec (length X) (KNN.n_neighbors self + 1)); [|lia].
    reflexivity.
  - intros X' Hne HX' Hw Hle.
    rewrite (KNN_anomaly_score_unfold self' knn X X' eq_refl Hf HX').
    rewrite (KNN_query_other _ _ Hne).
    pose proof (kneighbors_Some_Ok knn X X' eq_refl HX' Hle Hw) as Hnb.
    rewrite Hnb. cbn [bind].
    destruct (kneighbors_Some_spec knn X X' _ eq_refl Hnb) as (_ & _ & H2).
    exact (KNN_reduce_total (KNN.weight self') knn X X' _ Hk H2).
Qed.

Lemma KNN_training_set_needs_spare_row_witness :
  exists self',
    KNN._fit (ex_knn_new 5 false) ex_train = (Ok tt, self') /\
    KNN.anomaly_score self' ex_train =
    Raise (ValueError
      [Lit "Expected n_neighbors <= n_samples,  but n_samples = ";
       FmtInt 5; Lit ", n_neighbors = "; FmtInt 6]) /\
    exists scores, KNN.anomaly_score self' ex_query = Ok scores.
Proof.
  destruct (KNN_training_set_needs_spare_row (ex_knn_new 5 false) ex_train)
    as (self' & E & _ & _ & Hr & Hn).
  - reflexivity.
  - simpl. lia.
  - exists self'. split; [exact E|]. split.
    + apply Hr. simpl. lia.
    + destruct (Hn ex_query) as (scores & Hs & _).
      * intros H. apply (f_equal (@length OneDimArray)) in H. discriminate.
      * reflexivity.
      * repeat constructor.
      * simpl. lia.
      * eauto.
Defined.

(** *** Sum and maximum of the distances *)

Lemma sum_ge_member l m :
  Forall (fun d => (0 <= d)%Qc) l -> In m l -> (m <= np.sum l)%Qc.
Proof.
  induction 1 as [|x l Hx Hl IH]; simpl; [contradiction|].
  pose proof (sum_nonneg l Hl) as Hs.
  intros [->|Hin].
  - unfold Qcle in *. rewrite this_plus. change (this 0%Qc) with 0%Q in *. lra.
  - specialize (IH Hin). unfold Qcle in *. rewrite this_plus.
    change (this 0%Qc) with 0%Q in *. lra.
Qed.

Lemma neighbours_nonneg knn train q nbq :
  nonnegative (metric knn) -> neighbours_of knn train q nbq ->
  Forall (fun d => (0 <= d)%Qc) (map fst nbq).
Proof.
  intros Hpos (_ & _ & Hc). apply Forall_forall. intros d Hd.
  apply in_map_iff in Hd as (c & <- & Hin).
  destruct (Hc c Hin) as (_ & a & _ & ->). apply Hpos.
Qed.

Lemma KNN_anomaly_score_check_array (self : KNN.t) X scores :
  KNN.anomaly_score self X = Ok scores -> check_array X = Ok X.
Proof.
  unfold KNN.anomaly_score. intros Hs.
  destruct (check_is_fitted "KNN" (KNN._knn self)); [|discriminate].
  cbn [bind] in Hs.
  destruct (check_array X) as [X'|e] eqn:E; [|discriminate].
  now destruct (check_array_Ok _ _ E) as (-> & _).
Qed.

(** X6.  For a non-negative metric, two fitted [KNN] detectors that share
    the index and differ in [weight] order their scores: on every input
    that both score, each unweighted score (the distance to the farthest
    of the neighbours) is non-negative and at most the weighted score (the
    sum of the distances) of the same row. *)
Theorem KNN_weighted_score_dominates :
  forall (self_sum self_max : KNN.t) knn (X_train X : TwoDimArray)
         (s_sum s_max : OneDimArray),
    KNN._knn self_sum = Some knn -> KNN._knn self_max = Some knn ->
    KNN.weight self_sum = true -> KNN.weight self_max = false ->
    fitted_on knn X_train ->
    nonnegative (metric knn) ->
    KNN.anomaly_score self_sum X = Ok s_sum ->
    KNN.anomaly_score self_max X = Ok s_max ->
    Forall2 (fun m s => (0 <= m)%Qc /\ (m <= s)%Qc) s_max s_sum.
Proof.
  intros self_sum self_max knn X_train X s_sum s_max
         Hk1 Hk2 Hw1 Hw2 Hf Hpos Hs1 Hs2.
  pose proof (KNN_anomaly_score_check_array _ _ _ Hs1) as HX.
  rewrite (KNN_anomaly_score_unfold self_sum knn X_train X Hk1 Hf HX) in Hs1.
  rewrite (KNN_anomaly_score_unfold self_max knn X_train X Hk2 Hf HX) in Hs2.
  rewrite Hw1 in Hs1. rewrite Hw2 in Hs2.
  destruct (kneighbors knn (KNN_query X X_train)) as [nb|e] eqn:Hnb;
    [|discriminate].
  cbn [bind] in Hs1, Hs2. apply Ok_inj in Hs1. subst s_sum.
  destruct (kneighbors_fitted _ _ _ _ Hf Hnb) as (H2 & _ & _).
  rewrite query_rows_KNN_query in H2.
  apply mapM_Ok_Forall2 in Hs2.
  clear Hnb HX. revert s_max Hs2.
  induction H2 as [|q nbq Xq nb Hq _ IH]; intros s_max Hs2; simpl in *.
  - inversion Hs2. constructor.
  - inversion Hs2 as [|? m ? ms Hm Hms]; subst. constructor; [|now apply IH].
    apply np_max_spec in Hm as [Hin _].
    pose proof (neighbours_nonneg knn X_train q nbq Hpos Hq) as Hall.
    split.
    + rewrite Forall_forall in Hall. now apply Hall.
    + now apply sum_ge_member.
Qed.

Lemma KNN_weighted_score_dominates_witness :
  exists s_sum s_max,
    KNN.anomaly_score (ex_knn_fitted_detector true) ex_query = Ok s_sum /\
    KNN.anomaly_score (ex_knn_fitted_detector false) ex_query = Ok s_max /\
    Forall2 (fun m s => (0 <= m)%Qc /\ (m <= s)%Qc) s_max s_sum.
Proof.
  destruct (KNN.anomaly_score (ex_knn_fitted_detector true) ex_query)
    as [s_sum|e] eqn:E1; [|vm_compute in E1; discriminate].
  destruct (KNN.anomaly_score (ex_knn_fitted_detector false) ex_query)
    as [s_max|e] eqn:E2; [|vm_compute in E2; discriminate].
  exists s_sum, s_max. split; [reflexivity|]. split; [reflexivity|].
  apply (KNN_weighted_score_dominates (ex_knn_fitted_detector true)
           (ex_knn_fitted_detector false) (ex_knn 2) ex_train ex_query
           s_sum s_max eq_refl eq_refl eq_refl eq_refl
           (ex_knn_fitted 2 (Nat.lt_0_succ 1))).
  - exact sqeuclidean_nonneg.
  - exact E1.
  - exact E2.
Defined.

(** *** A known row among new rows *)

Lemma In_nth_error_ex {A} (l : list A) a :
  In a l -> exists j, nth_error l j = Some a.
Proof. apply In_nth_error. Qed.

(** A query row that is a reference row has a neighbour at distance
    zero, when it is looked up among new rows. *)
Lemma nearest_of_known_row knn train q :
  zero_on_self (metric knn) -> nonnegative (metric knn) ->
  In q train -> 0 < n_neighbors knn <= length train ->
  exists c, In c (nearest knn train (n_neighbors knn) q) /\ fst c = 0%Qc.
Proof.
  intros Hrefl Hpos Hin [Hk Hle].
  destruct (In_nth_error_ex _ _ Hin) as (j & Hj).
  destruct (in_dec Nat.eq_dec j
              (map snd (nearest knn train (n_neighbors knn) q))) as [Hsel|Hout].
  - apply in_map_iff in Hsel as (c & Hsc & Hc). exists c.
    split; [assumption|].
    destruct (nearest_In knn train _ q c Hc) as (_ & a & Ha & ->).
    rewrite Hsc, Hj in Ha. injection Ha as <-. apply Hrefl.
  - pose proof (nearest_length knn train (n_neighbors knn) q Hle) as Hlen.
    destruct (nearest knn train (n_neighbors knn) q) as [|c rest] eqn:E;
      [simpl in Hlen; lia|].
    exists c. split; [now left|].
    assert (Hc : In c (nearest knn train (n_neighbors knn) q))
      by (rewrite E; now left).
    rewrite <- E in Hout.
    pose proof (nearest_are_nearest knn train _ q j q c Hj Hout Hc) as Hle0.
    rewrite (Hrefl q) in Hle0.
    destruct (nearest_In knn train _ q c Hc) as (_ & a & _ & Hd).
    apply Qcle_antisym; [exact Hle0 | rewrite Hd; apply Hpos].
Qed.

(** X7.  Only the training set as a whole is scored without self-matches.
    When a fitted [KNN] scores rows [X] that are not exactly the training
    matrix, a row of [X] that is equal to a training row is matched with
    it: for a non-negative metric that is zero from a row to itself, one of
    its neighbours is at distance zero, and with [n_neighbors = 1] its
    score is 0, whatever [weight] is. *)
Theorem KNN_known_row_among_new_rows_matches_itself :
  forall (self : KNN.t) knn (X_train X : TwoDimArray) (scores : OneDimArray)
         (i : nat) (q : OneDimArray),
    KNN._knn self = Some knn ->
    fitted_on knn X_train ->
    zero_on_self (metric knn) -> nonnegative (metric knn) ->
    X <> X_train ->
    KNN.anomaly_score self X = Ok scores ->
    nth_error X i = Some q -> In q X_train ->
    exists nb nbi c,
      kneighbors knn (Some X) = Ok nb /\
      nth_error nb i = Some nbi /\
      In c nbi /\ fst c = 0%Qc /\
      (n_neighbors knn = 1 -> nth_error scores i = Some 0%Qc).
Proof.
  intros self knn X_train X scores i q Hk Hf Hrefl Hpos Hne Hs Hi Hin.
  destruct (fitted_on_inv _ _ Hf) as (Hfit & _ & Hk0).
  pose proof (KNN_anomaly_score_check_array _ _ _ Hs) as HX.
  rewrite (KNN_anomaly_score_unfold self knn X_train X Hk Hf HX) in Hs.
  rewrite (KNN_query_other _ _ Hne) in Hs.
  destruct (kneighbors knn (Some X)) as [nb|e] eqn:Hnb; [|discriminate].
  cbn [bind] in Hs.
  pose proof (kneighbors_Some_Ok_inv knn X_train X nb Hfit Hnb) as Enb.
  assert (Hle : n_neighbors knn <= length X_train).
  { unfold kneighbors in Hnb. rewrite Hfit, HX in Hnb. cbn [bind] in Hnb.
    destruct (Nat.ltb_spec (length X_train) (n_neighbors knn));
      [discriminate | assumption]. }
  destruct (nearest_of_known_row knn X_train q Hrefl Hpos Hin (conj Hk0 Hle))
    as (c & Hc & Hz).
  set (nbi := nearest knn X_train (n_neighbors knn) q) in *.
  assert (Hnbi : nth_error nb i = Some nbi).
  { rewrite Enb, nth_error_map, Hi. reflexivity. }
  exists nb, nbi, c. split; [reflexivity|]. split; [exact Hnbi|].
  split; [exact Hc|]. split; [exact Hz|].
  intros H1.
  pose proof (nearest_length knn X_train (n_neighbors knn) q Hle) as Hlen.
  fold nbi in Hlen. rewrite H1 in Hlen.
  destruct nbi as [|c0 [|c1 rest]] eqn:E; try discriminate.
  destruct Hc as [<-|[]].
  destruct (KNN.weight self).
  - apply Ok_inj in Hs. subst scores.
    rewrite !nth_error_map, Hnbi. simpl. rewrite Hz. reflexivity.
  - apply mapM_Ok_Forall2 in Hs.
    destruct (Forall2_nth_error_l _ _ _ i (map fst [c0]) Hs) as (s & Hsi & Hm).
    + rewrite nth_error_map, Hnbi. reflexivity.
    + rewrite Hsi. simpl in Hm. apply Ok_inj in Hm. rewrite <- Hm, Hz.
      reflexivity.
Qed.

Lemma KNN_known_row_among_new_rows_matches_itself_witness :
  exists scores,
    KNN.anomaly_score (ex_knn1_fitted_detector false) ex_query_known
    = Ok scores /\
    nth_error scores 1 = Some 0%Qc.
Proof.
  destruct (KNN.anomaly_score (ex_knn1_fitted_detector false) ex_query_known)
    as [scores|e] eqn:E; [|vm_compute in E; discriminate].
  exists scores. split; [reflexivity|].
  destruct (KNN_known_row_among_new_rows_matches_itself
              (ex_knn1_fitted_detector false) (ex_knn 1) ex_train
              ex_query_known scores 1 (row_of [1; 1]%Z) eq_refl
              (ex_knn_fitted 1 (Nat.lt_0_succ 0)))
    as (nb & nbi & c & _ & _ & _ & _ & H).
  - exact sqeuclidean_refl.
  - exact sqeuclidean_nonneg.
  - intros H. apply (f_equal (@length OneDimArray)) in H. discriminate.
  - exact E.
  - reflexivity.
  - simpl. auto.
  - apply H. reflexivity.
Defined.


(* ------------------------------------------------------------------ *)
(** ** More on OneTimeSampling: the sample and the scores               *)
(* ------------------------------------------------------------------ *)

Lemma insert_index_sorted x l :
  Sorted le l -> Sorted le (OneTimeSampling.insert_index x l).
Proof.
  induction l as [|y t IH]; simpl; intros Hs.
  - repeat constructor.
  - destruct (Nat.leb_spec x y) as [Hle|Hgt].
    + constructor; [assumption|]. now constructor.
    + inversion Hs as [|? ? Ht Hd]; subst.
      constructor; [now apply IH|].
      destruct t as [|z t]; simpl.
      * constructor. lia.
      * destruct (x <=? z); constructor; [lia | now inversion Hd].
Qed.

Lemma sort_index_sorted l : Sorted le (OneTimeSampling.sort_index l).
Proof.
  induction l as [|x t IH]; simpl; [constructor|].
  now apply insert_index_sorted.
Qed.

(** Two ascending lists with the same members, counted with their
    multiplicity, are the same list. *)
Lemma sorted_perm_eq (l l' : list nat) :
  StronglySorted le l -> StronglySorted le l' -> Permutation l l' -> l = l'.
Proof.
  intros Hs; revert l'.
  induction Hs as [|x l Hs IH Hall]; intros l' Hs' Hp.
  - apply Permutation_nil in Hp. now subst.
  - destruct Hs' as [|y l' Hs' Hall'].
    + apply Permutation_sym, Permutation_nil in Hp. discriminate.
    + assert (x = y) as <-.
      { assert (Hx : In x (y :: l'))
          by (apply (Permutation_in _ Hp); now left).
        assert (Hy : In y (x :: l))
          by (apply (Permutation_in _ (Permutation_sym Hp)); now left).
        rewrite Forall_forall in Hall, Hall'.
        destruct Hx as [->|Hx]; [reflexivity|].
        destruct Hy as [->|Hy]; [reflexivity|].
        specialize (Hall y Hy). specialize (Hall' x Hx). lia. }
      f_equal. apply IH; [assumption|].
      eapply Permutation_cons_inv; eassumption.
Qed.

Lemma sort_index_strongly_sorted l :
  StronglySorted le (OneTimeSampling.sort_index l).
Proof.
  apply Sorted_StronglySorted; [|apply sort_index_sorted].
  intros a b c Hab Hbc. lia.
Qed.

(** The sorted sample does not depend on the order of the draw. *)
Lemma sort_index_of_perm l l' :
  Permutation l l' ->
  OneTimeSampling.sort_index l = OneTimeSampling.sort_index l'.
Proof.
  intros Hp. apply sorted_perm_eq; try apply sort_index_strongly_sorted.
  rewrite (sort_index_perm l), (sort_index_perm l'). exact Hp.
Qed.

(** X8.  [OneTimeSampling._fit] on [n] rows with [0 <= n_samples < n]
    returns, with [X_] the training set, [_metric] the configured metric,
    the threshold untouched, and [sampled_] the indices drawn by the
    generator in ascending order: the same indices, each as often as
    drawn.  The sample therefore does not depend on the order in which the
    generator yields the indices: two generators whose draws are
    permutations of one another leave the same [sampled_]. *)
Theorem OneTimeSampling_sample_is_sorted_draw :
  forall (self : OneTimeSampling.t) (X : TwoDimArray) (n d : nat),
    shape X = Some (n, d) ->
    (0 <= OneTimeSampling.n_samples self < Z.of_nat n)%Z ->
    let m := Z.to_nat (OneTimeSampling.n_samples self) in
    (exists self' sampled,
        OneTimeSampling._fit self X = (Ok tt, self') /\
        OneTimeSampling.X_ self' = Some X /\
        OneTimeSampling._metric self' = Some (OneTimeSampling.metric self) /\
        OneTimeSampling.threshold_ self' = OneTimeSampling.threshold_ self /\
        OneTimeSampling.sampled_ self' = Some sampled /\
        Sorted le sampled /\
        Permutation sampled (OneTimeSampling.random_state self n m)) /\
    (forall rnd,
        Permutation (rnd n m) (OneTimeSampling.random_state self n m) ->
        OneTimeSampling._fit (with_random_state self rnd) X =
        (Ok tt,
         with_random_state (snd (OneTimeSampling._fit self X)) rnd)).
Proof.
  intros self X n d Hs Hm m. split.
  - eexists. eexists.
    split; [exact (OneTimeSampling_fit_Ok self X n d Hs Hm)|].
    cbn [OneTimeSampling.X_ OneTimeSampling._metric OneTimeSampling.threshold_
         OneTimeSampling.sampled_ OneTimeSampling.set__metric
         OneTimeSampling.set_sampled_ OneTimeSampling.set_X_].
    repeat (split; [reflexivity|]).
    split; [apply sort_index_sorted | apply sort_index_perm].
  - intros rnd Hp.
    rewrite (OneTimeSampling_fit_Ok (with_random_state self rnd) X n d Hs Hm).
    rewrite (OneTimeSampling_fit_Ok self X n d Hs Hm).
    cbn [snd with_random_state OneTimeSampling.X_ OneTimeSampling._metric
         OneTimeSampling.threshold_ OneTimeSampling.sampled_
         OneTimeSampling.set__metric OneTimeSampling.set_sampled_
         OneTimeSampling.set_X_ OneTimeSampling.contamination
         OneTimeSampling.metric OneTimeSampling.n_samples
         OneTimeSampling.random_state].
    fold m. rewrite (sort_index_of_perm _ _ Hp). reflexivity.
Qed.

Lemma OneTimeSampling_sample_is_sorted_draw_witness :
  OneTimeSampling._fit (with_random_state (ex_ots 2) ex_draw_reversed) ex_train
  = (Ok tt,
     with_random_state (snd (OneTimeSampling._fit (ex_ots 2) ex_train))
       ex_draw_reversed).
Proof.
  destruct (OneTimeSampling_sample_is_sorted_draw (ex_ots 2) ex_train 5 2)
    as [_ H].
  - reflexivity.
  - simpl. lia.
  - apply H. change (Permutation [1; 0] [0; 1]). apply perm_swap.
Defined.

(** *** The score is the distance to the nearest sampled row *)

Lemma fold_min_spec t x :
  let m := fold_left (fun m v => if Qc_leb v m then v else m) t x in
  (m = x \/ In m t) /\ (m <= x)%Qc /\ Forall (fun d => (m <= d)%Qc) t.
Proof.
  revert x; induction t as [|v t IH]; intros x; simpl.
  - split; [now left|]. split; [apply Qcle_refl | constructor].
  - destruct (Qc_leb v x) eqn:E.
    + destruct (IH v) as (Hin & Hle & Hall).
      apply Qc_leb_le in E.
      split; [destruct Hin; auto|].
      split; [eapply Qcle_trans; eassumption|].
      constructor; assumption.
    + destruct (IH x) as (Hin & Hle & Hall).
      apply Qc_leb_false in E.
      split; [destruct Hin; auto|]. split; [assumption|].
      constructor; [eapply Qcle_trans; eassumption | assumption].
Qed.

Lemma np_min_spec l m : np.min l = Ok m -> is_min m l.
Proof.
  destruct l as [|x t]; simpl; [discriminate|].
  intros H. apply Ok_inj in H. subst m.
  destruct (fold_min_spec t x) as (Hin & Hle & Hall).
  split.
  - destruct Hin as [->|Hin]; [now left | now right].
  - constructor; assumption.
Qed.

Lemma OneTimeSampling_scores_spec (self : OneTimeSampling.t)
  X_train sampled m X :
  OneTimeSampling.X_ self = Some X_train ->
  OneTimeSampling.sampled_ self = Some sampled ->
  OneTimeSampling._metric self = Some m ->
  in_range X_train sampled -> sampled <> [] ->
  check_array X = Ok X ->
  (forall x i, In x X -> In i sampled ->
               length x = length (nth i X_train [])) ->
  exists scores,
    OneTimeSampling.anomaly_score self X = Ok scores /\
    Forall2 (fun x s => is_min s (distances_to_samples m X_train sampled x))
            X scores.
Proof.
  intros HX_ Hsam Hmet Hr Hne HX Hw.
  unfold OneTimeSampling.anomaly_score, OneTimeSampling.X_sampled_.
  rewrite Hmet, HX_, Hsam. simpl. rewrite HX. simpl.
  rewrite (take_in_range X_train sampled [] Hr). simpl.
  unfold DistanceMetric.pairwise.
  assert (forallb (fun x => forallb (fun y => length x =? length y)
                              (map (fun i => nth i X_train []) sampled)) X
          = true) as ->.
  { apply forallb_forall. intros x Hx. apply forallb_forall. intros y Hy.
    apply in_map_iff in Hy as (i & <- & Hi). apply Nat.eqb_eq.
    now apply Hw. }
  simpl.
  destruct (mapM_total np.min
              (map (fun x => map (m x) (map (fun i => nth i X_train []) sampled))
                   X)) as (scores & Hscores).
  - intros l Hl. apply np_min_Ok.
    apply in_map_iff in Hl as (x & <- & _).
    intros Hnil. apply map_eq_nil in Hnil. apply map_eq_nil in Hnil.
    contradiction.
  - exists scores. split; [exact Hscores|].
    apply mapM_Ok_Forall2, Forall2_map_l in Hscores.
    eapply Forall2_impl; [|exact Hscores].
    intros x s Hmin. apply np_min_spec in Hmin.
    unfold distances_to_samples. now rewrite map_map in Hmin.
Qed.

(** X9.  On a fitted [OneTimeSampling] whose sample is not empty,
    [anomaly_score] returns one score for each row of a well-formed [X]
    of the training width, and the score of a row is its distance to the
    nearest sampled training row: one of the distances to the sampled
    rows, and at most each of them. *)
Theorem OneTimeSampling_score_is_distance_to_nearest_sample :
  forall (self : OneTimeSampling.t) (X_train : TwoDimArray)
         (sampled : list nat) (m : OneDimArray -> OneDimArray -> Qc)
         (X : TwoDimArray),
    OneTimeSampling.X_ self = Some X_train ->
    OneTimeSampling.sampled_ self = Some sampled ->
    OneTimeSampling._metric self = Some m ->
    in_range X_train sampled -> sampled <> [] ->
    check_array X = Ok X ->
    (forall x i, In x X -> In i sampled ->
                 length x = length (nth i X_train [])) ->
    exists scores,
      OneTimeSampling.anomaly_score self X = Ok scores /\
      length scores = length X /\
      Forall2 (fun x s => is_min s (distances_to_samples m X_train sampled x))
              X scores.
Proof.
  intros self X_train sampled m X HX_ Hsam Hmet Hr Hne HX Hw.
  destruct (OneTimeSampling_scores_spec self X_train sampled m X
              HX_ Hsam Hmet Hr Hne HX Hw) as (scores & Hs & H2).
  exists scores. split; [exact Hs|]. split; [|exact H2].
  symmetry. exact (Forall2_length H2).
Qed.

Lemma OneTimeSampling_score_is_distance_to_nearest_sample_witness :
  exists scores,
    OneTimeSampling.anomaly_score
      (snd (OneTimeSampling._fit (ex_ots 2) ex_train)) ex_query = Ok scores /\
    length scores = 2.
Proof.
  destruct (OneTimeSampling_score_is_distance_to_nearest_sample
              (snd (OneTimeSampling._fit (ex_ots 2) ex_train)) ex_train
              [0; 1] sqeuclidean ex_query) as (scores & Hs & Hlen & _).
  - reflexivity.
  - reflexivity.
  - reflexivity.
  - repeat constructor.
  - discriminate.
  - reflexivity.
  - intros x i Hx Hi. simpl in Hx, Hi.
    destruct Hx as [<-|[<-|[]]]; destruct Hi as [<-|[<-|[]]]; reflexivity.
  - exists scores. split; [exact Hs | exact Hlen].
Defined.

Lemma is_min_zero l s :
  Forall (fun d => (0 <= d)%Qc) l -> In 0%Qc l -> is_min s l -> s = 0%Qc.
Proof.
  intros Hpos H0 [Hin Hall]. rewrite Forall_forall in Hpos, Hall.
  apply Qcle_antisym; [now apply Hall | now apply Hpos].
Qed.

Lemma is_min_nonneg l s :
  Forall (fun d => (0 <= d)%Qc) l -> is_min s l -> (0 <= s)%Qc.
Proof.
  intros Hpos [Hin _]. rewrite Forall_forall in Hpos. now apply Hpos.
Qed.

(** X10.  After [OneTimeSampling._fit], scoring the training set gives
    every sampled row the score 0, for a non-negative metric that is zero
    from a row to itself: a sampled row is its own nearest sample.  All
    scores are non-negative, so that at least the sampled rows are never
    above the threshold of any rate. *)
Theorem OneTimeSampling_sampled_rows_score_zero
  (self : OneTimeSampling.t) (X : TwoDimArray) (n d : nat) :
  shape X = Some (n, d) -> 0 < d ->
  (0 < OneTimeSampling.n_samples self < Z.of_nat n)%Z ->
  draws_indices (OneTimeSampling.random_state self) ->
  zero_on_self (OneTimeSampling.metric self) ->
  nonnegative (OneTimeSampling.metric self) ->
  exists scores,
    OneTimeSampling.anomaly_score (snd (OneTimeSampling._fit self X)) X
    = Ok scores /\
    length scores = n /\
    Forall (fun s => (0 <= s)%Qc) scores /\
    forall i,
      In i (OneTimeSampling.random_state self n
              (Z.to_nat (OneTimeSampling.n_samples self))) ->
      nth_error scores i = Some 0%Qc.
Proof.
  intros Hs Hd Hm Hrnd Hrefl Hpos.
  rewrite (OneTimeSampling_fit_Ok self X n d Hs) by lia. cbn [snd].
  set (k := Z.to_nat (OneTimeSampling.n_samples self)).
  set (draw := OneTimeSampling.random_state self n k).
  set (sampled := OneTimeSampling.sort_index draw).
  destruct (Hrnd n k) as [Hlen Hin]; [unfold k; lia|]. fold draw in Hlen, Hin.
  pose proof (sort_index_perm draw) as Hp. fold sampled in Hp.
  pose proof (shape_length _ _ _ Hs) as Hn.
  assert (HX : check_array X = Ok X).
  { unfold check_array. rewrite Hs.
    destruct (Nat.eqb_spec n 0); [lia|]. destruct (Nat.eqb_spec d 0); [lia|].
    reflexivity. }
  assert (Hr : in_range X sampled).
  { apply Forall_forall. intros i Hi. rewrite <- Hn.
    rewrite Forall_forall in Hin. apply Hin.
    eapply Permutation_in; eassumption. }
  assert (Hne : sampled <> []).
  { intros Hnil. rewrite Hnil in Hp. apply Permutation_length in Hp.
    simpl in Hp. unfold k in *. lia. }
  destruct (OneTimeSampling_scores_spec
              (OneTimeSampling.set__metric
                 (OneTimeSampling.set_sampled_
                    (OneTimeSampling.set_sampled_
                       (OneTimeSampling.set_X_ self X) draw) sampled)
                 (OneTimeSampling.metric self))
              X sampled (OneTimeSampling.metric self) X
              eq_refl eq_refl eq_refl Hr Hne HX)
    as (scores & Hscores & H2).
  { intros x i Hx Hi.
    rewrite (shape_rows _ _ _ _ Hs Hx). symmetry.
    apply (shape_rows _ _ _ _ Hs). apply nth_In.
    unfold in_range in Hr. rewrite Forall_forall in Hr. now apply Hr. }
  exists scores. split; [exact Hscores|].
  assert (Hnonneg : forall x,
             Forall (fun d0 => (0 <= d0)%Qc)
               (distances_to_samples (OneTimeSampling.metric self) X sampled x)).
  { intros x. apply Forall_forall. intros d0 Hd0.
    apply in_map_iff in Hd0 as (i & <- & _). apply Hpos. }
  split; [rewrite Hn; symmetry; exact (Forall2_length H2)|]. split.
  - apply Forall_forall. intros s Hin_s.
    destruct (Forall2_In_r _ _ _ _ H2 Hin_s) as (x & _ & Hmin).
    exact (is_min_nonneg _ _ (Hnonneg x) Hmin).
  - intros i Hi.
    assert (Hi' : In i sampled)
      by (eapply Permutation_in; [apply Permutation_sym|]; eassumption).
    assert (Hlt : i < length X).
    { unfold in_range in Hr. rewrite Forall_forall in Hr. now apply Hr. }
    destruct (nth_error X i) as [x|] eqn:Hx;
      [|apply nth_error_None in Hx; lia].
    destruct (Forall2_nth_error_l _ _ _ i x H2 Hx) as (s & Hsi & Hmin).
    rewrite Hsi. f_equal.
    apply (is_min_zero _ s (Hnonneg x)); [|exact Hmin].
    apply in_map_iff. exists i. split; [|exact Hi'].
    replace (nth i X []) with x
      by (symmetry; exact (nth_error_nth _ _ [] Hx)).
    apply Hrefl.
Qed.

Lemma ex_ots_draws_indices m :
  draws_indices (OneTimeSampling.random_state (ex_ots m)).
Proof.
  intros n k Hk. simpl. rewrite length_seq. split; [reflexivity|].
  apply Forall_forall. intros i Hi. apply in_seq in Hi. lia.
Qed.

Lemma OneTimeSampling_sampled_rows_score_zero_witness :
  exists scores,
    OneTimeSampling.anomaly_score
      (snd (OneTimeSampling._fit (ex_ots 2) ex_train)) ex_train = Ok scores /\
    nth_error scores 0 = Some 0%Qc /\ nth_error scores 1 = Some 0%Qc.
Proof.
  destruct (OneTimeSampling_sampled_rows_score_zero (ex_ots 2) ex_train 5 2)
    as (scores & Hs & _ & _ & H0).
  - reflexivity.
  - lia.
  - simpl. lia.
  - apply ex_ots_draws_indices.
  - exact sqeuclidean_refl.
  - exact sqeuclidean_nonneg.
  - exists scores. split; [exact Hs|].
    split; apply H0; simpl; auto.
Defined.


(* ------------------------------------------------------------------ *)
(** ** Pipeline: the transforms in front of the final estimator        *)
(* ------------------------------------------------------------------ *)

Lemma transform_steps_app s1 s2 X :
  Pipeline.transform_steps (s1 ++ s2) X =
  (X1 <- Pipeline.transform_steps s1 X ;; Pipeline.transform_steps s2 X1).
Proof.
  revert X; induction s1 as [|[name [t|]] s1 IH]; intros X; simpl.
  - reflexivity.
  - destruct (Pipeline.transform t X) as [X'|e]; simpl; [apply IH | reflexivity].
  - apply IH.
Qed.

Lemma transform_steps_effective steps X :
  Pipeline.transform_steps (effective_steps steps) X =
  Pipeline.transform_steps steps X.
Proof.
  revert X; induction steps as [|[name [t|]] steps IH]; intros X; simpl.
  - reflexivity.
  - destruct (Pipeline.transform t X) as [X'|e]; simpl; [apply IH | reflexivity].
  - apply IH.
Qed.

Lemma transform_steps_raises pre name t post X X1 e :
  Pipeline.transform_steps pre X = Ok X1 ->
  Pipeline.transform t X1 = Raise e ->
  Pipeline.transform_steps (pre ++ (name, Some t) :: post) X = Raise e.
Proof.
  intros Hpre Ht. rewrite transform_steps_app, Hpre. simpl. now rewrite Ht.
Qed.

(** X11.  The pipeline hands the data through its transforms in the
    order of the steps: once a first part of the steps has turned [X]
    into [X1], each of the four methods answers as the pipeline of the
    remaining steps does on [X1], so that with no step left the answer is
    the final estimator's on the transformed data; and a step set to
    [None] can be removed without changing any answer. *)
Theorem Pipeline_chains_transforms :
  forall (Axes Kwargs Attr : Type) (self : Pipeline.t Axes Kwargs Attr)
         (s1 s2 : list (string * option Pipeline.transformer))
         (X X1 : TwoDimArray),
    Pipeline.steps self = s1 ++ s2 ->
    Pipeline.transform_steps s1 X = Ok X1 ->
    (Pipeline.anomaly_score self (Some X) =
     Pipeline.anomaly_score (with_steps self s2) (Some X1)) /\
    (Pipeline.feature_wise_anomaly_score self (Some X) =
     Pipeline.feature_wise_anomaly_score (with_steps self s2) (Some X1)) /\
    (forall kwargs,
        Pipeline.plot_anomaly_score self (Some X) kwargs =
        Pipeline.plot_anomaly_score (with_steps self s2) (Some X1) kwargs) /\
    (forall y kwargs,
        Pipeline.plot_roc_curve self X y kwargs =
        Pipeline.plot_roc_curve (with_steps self s2) X1 y kwargs) /\
    (forall X',
        Pipeline.anomaly_score
          (with_steps self (effective_steps (Pipeline.steps self))) X' =
        Pipeline.anomaly_score self X').
Proof.
  intros Axes Kwargs Attr self s1 s2 X X1 Hsteps H1.
  unfold Pipeline.anomaly_score, Pipeline.feature_wise_anomaly_score,
    Pipeline.plot_anomaly_score, Pipeline.plot_roc_curve,
    Pipeline.if_delegate_has_method.
  cbn [with_steps Pipeline.steps Pipeline._final_estimator].
  rewrite Hsteps.
  repeat split; intros;
    try (destruct X' as [X'|]);
    try rewrite transform_steps_effective;
    try rewrite transform_steps_app, H1; reflexivity.
Qed.

Lemma Pipeline_chains_transforms_witness :
  Pipeline.anomaly_score
    (ex_pipeline [("shift"%string, Some ex_shift); ("skip"%string, None)])
    (Some ex_query) =
  FastABOD.anomaly_score (ex_abod 3 1)
    (Some (matrix_of [[6; 6]; [3; 1]]%Z)).
Proof.
  destruct (Pipeline_chains_transforms unit unit unit
              (ex_pipeline [("shift"%string, Some ex_shift);
                            ("skip"%string, None)])
              [("shift"%string, Some ex_shift); ("skip"%string, None)] []
              ex_query (matrix_of [[6; 6]; [3; 1]]%Z)) as (H & _).
  - reflexivity.
  - simpl; f_equal;
      repeat (f_equal; try (apply Qc_is_canon; reflexivity)).
  - rewrite H. reflexivity.
Defined.

(** X12.  A transform that raises stops the call: when the steps before
    it go through and it raises [e], each of the four methods raises [e],
    provided that the final estimator has the method, and the final
    estimator is not asked.  The transforms run only on data that is
    passed: with [X] omitted, [anomaly_score] is the final estimator's
    answer to the omitted [X], whatever the steps are.  And a method that
    the final estimator does not have raises [AttributeError] for every
    argument, before any transform runs. *)
Theorem Pipeline_failing_transform_stops_the_call :
  forall (Axes Kwargs Attr : Type) (self : Pipeline.t Axes Kwargs Attr)
         (pre post : list (string * option Pipeline.transformer))
         (name : string) (t : Pipeline.transformer)
         (X X1 : TwoDimArray) (e : exn),
    Pipeline.steps self = pre ++ (name, Some t) :: post ->
    Pipeline.transform_steps pre X = Ok X1 ->
    Pipeline.transform t X1 = Raise e ->
    (forall f,
        Pipeline.est_anomaly_score (Pipeline._final_estimator self) = Some f ->
        Pipeline.anomaly_score self (Some X) = Raise e /\
        Pipeline.anomaly_score self None = f None) /\
    (forall f,
        Pipeline.est_feature_wise_anomaly_score (Pipeline._final_estimator self)
        = Some f ->
        Pipeline.feature_wise_anomaly_score self (Some X) = Raise e /\
        Pipeline.feature_wise_anomaly_score self None = f None) /\
    (forall f kwargs,
        Pipeline.est_plot_anomaly_score (Pipeline._final_estimator self)
        = Some f ->
        Pipeline.plot_anomaly_score self (Some X) kwargs = Raise e /\
        Pipeline.plot_anomaly_score self None kwargs = f None kwargs) /\
    (forall f y kwargs,
        Pipeline.est_plot_roc_curve (Pipeline._final_estimator self) = Some f ->
        Pipeline.plot_roc_curve self X y kwargs = Raise e) /\
    (Pipeline.est_anomaly_score (Pipeline._final_estimator self) = None ->
     forall X', Pipeline.anomaly_score self X' =
                Raise (AttributeError "anomaly_score")).
Proof.
  intros Axes Kwargs Attr self pre post name t X X1 e Hsteps Hpre Ht.
  pose proof (transform_steps_raises pre name t post X X1 e Hpre Ht) as Hr.
  rewrite <- Hsteps in Hr.
  unfold Pipeline.anomaly_score, Pipeline.feature_wise_anomaly_score,
    Pipeline.plot_anomaly_score, Pipeline.plot_roc_curve,
    Pipeline.if_delegate_has_method.
  repeat split; intros; try rewrite H; try rewrite Hr; reflexivity.
Qed.

Lemma Pipeline_failing_transform_stops_the_call_witness :
  Pipeline.anomaly_score
    (ex_pipeline [("shift"%string, Some ex_shift);
                  ("fail"%string, Some ex_failing)])
    (Some ex_query) =
  Raise (ValueError [Lit "operands could not be broadcast together"]) /\
  Pipeline.anomaly_score
    (ex_pipeline [("shift"%string, Some ex_shift);
                  ("fail"%string, Some ex_failing)])
    None = FastABOD.anomaly_score (ex_abod 3 1) None.
Proof.
  destruct (Pipeline_failing_transform_stops_the_call unit unit unit
              (ex_pipeline [("shift"%string, Some ex_shift);
                            ("fail"%string, Some ex_failing)])
              [("shift"%string, Some ex_shift)] [] "fail"%string ex_failing
              ex_query (map (map (fun v => (v + 1)%Qc)) ex_query)
              (ValueError [Lit "operands could not be broadcast together"]))
    as (H & _).
  - reflexivity.
  - reflexivity.
  - reflexivity.
  - exact (H (FastABOD.anomaly_score (ex_abod 3 1)) eq_refl).
Defined.


(* ------------------------------------------------------------------ *)
(** ** _abof: moving all points together                               *)
(* ------------------------------------------------------------------ *)

Lemma vsub_vadd a p v :
  length a = length v -> length p = length v ->
  vsub (vadd a v) (vadd p v) = vsub a p.
Proof.
  revert p v; induction a as [|x a IH]; intros [|y p] [|z v] Ha Hp;
    try discriminate; [reflexivity|].
  injection Ha as Ha. injection Hp as Hp.
  unfold vsub, vadd in *. cbn [combine map fst snd].
  f_equal; [ring | now apply IH].
Qed.

Lemma take_map {A B} (f : A -> B) (X : list A) ind :
  take (map f X) ind = (r <- take X ind ;; Ok (map f r)).
Proof.
  unfold take. induction ind as [|i ind IH]; [reflexivity|].
  cbn [mapM]. rewrite nth_error_map, IH.
  destruct (nth_error X i) as [r|]; cbn [option_map bind]; [|reflexivity].
  destruct (mapM (fun i0 => match nth_error X i0 with
                            | Some r0 => Ok r0
                            | None => Raise IndexError
                            end) ind); reflexivity.
Qed.

Lemma take_In {A} (X : list A) ind r :
  take X ind = Ok r -> forall a, In a r -> In a X.
Proof.
  unfold take. intros H a Ha. apply mapM_Ok_Forall2 in H.
  destruct (Forall2_In_r _ _ _ _ H Ha) as (i & _ & Hi).
  destruct (nth_error X i) as [a'|] eqn:E; [|discriminate].
  apply Ok_inj in Hi. subst a'. eapply nth_error_In; eassumption.
Qed.

Lemma abof_row_translate v X_train p ind_p :
  Forall (fun a => length a = length v) X_train ->
  length p = length v ->
  abof_row (translate v X_train) (vadd p v, ind_p) =
  abof_row X_train (p, ind_p).
Proof.
  intros Hw Hp. unfold abof_row, translate. rewrite take_map.
  unfold TwoDimArray, OneDimArray in *.
  destruct (take X_train ind_p) as [neigh|e] eqn:E; cbn [bind];
    [|reflexivity].
  rewrite map_map. f_equal. f_equal. apply map_ext_in. intros a Ha.
  apply vsub_vadd; [|exact Hp].
  rewrite Forall_forall in Hw. apply Hw. eapply take_In; eassumption.
Qed.

Lemma combine_map_l {A B C} (f : A -> C) (X : list A) (Y : list B) :
  combine (map f X) Y = map (fun xy => (f (fst xy), snd xy)) (combine X Y).
Proof.
  revert Y; induction X as [|x X IH]; intros [|y Y]; simpl;
    [reflexivity | reflexivity | reflexivity |]. now rewrite IH.
Qed.

(** X13.  The angle-based factor depends on the positions of the points
    relative to one another only: adding one vector [v] to every
    training row and to every query row, all of the width of [v], leaves
    the result of [_abof] as it is for the same neighbour indices, values
    and exceptions alike (the arithmetic is exact here). *)
Theorem abof_translation_invariant :
  forall (v : OneDimArray) (X_train X : TwoDimArray) (ind : list (list nat)),
    Forall (fun a => length a = length v) X_train ->
    Forall (fun p => length p = length v) X ->
    _abof (translate v X_train) (translate v X) ind = _abof X_train X ind.
Proof.
  intros v X_train X ind Hw HX. unfold _abof.
  assert (E : mapM (abof_row (translate v X_train))
                (combine (translate v X) ind) =
              mapM (abof_row X_train) (combine X ind)).
  { unfold translate at 2. rewrite combine_map_l, mapM_map.
    apply mapM_ext_in. intros [p ind_p] Hin. cbn [fst snd].
    apply abof_row_translate; [exact Hw|].
    rewrite Forall_forall in HX. apply HX.
    eapply in_combine_l; eassumption. }
  now rewrite E.
Qed.

Lemma abof_translation_invariant_witness :
  _abof (translate (row_of [7; -3]%Z) ex_train)
        (translate (row_of [7; -3]%Z) ex_query) [[0; 1; 2]; [1; 3; 4]] =
  _abof ex_train ex_query [[0; 1; 2]; [1; 3; 4]].
Proof.
  apply abof_translation_invariant; repeat constructor.
Defined.


(* ------------------------------------------------------------------ *)
(** ** Samples, larger samples, and the nearest neighbour              *)
(* ------------------------------------------------------------------ *)

Lemma take_Ok_in_range {A} (X : list A) ind r :
  take X ind = Ok r -> Forall (fun i => i < length X) ind.
Proof.
  unfold take. intros H. apply mapM_Ok_Forall2 in H.
  induction H as [|i a ind r Hi _ IH]; constructor; [|exact IH].
  destruct (nth_error X i) eqn:E; [|discriminate].
  apply nth_error_Some. congruence.
Qed.

(** What the scores of a fitted [OneTimeSampling] are, whenever there are
    scores. *)
Lemma OneTimeSampling_scores_inv (self : OneTimeSampling.t)
  X_train sampled m X scores :
  OneTimeSampling.X_ self = Some X_train ->
  OneTimeSampling.sampled_ self = Some sampled ->
  OneTimeSampling._metric self = Some m ->
  OneTimeSampling.anomaly_score self X = Ok scores ->
  in_range X_train sampled /\
  Forall2 (fun x s => is_min s (distances_to_samples m X_train sampled x))
          X scores.
Proof.
  intros HX_ Hsam Hmet.
  unfold OneTimeSampling.anomaly_score, OneTimeSampling.X_sampled_.
  rewrite Hmet, HX_, Hsam. cbn [check_is_fitted getattr bind].
  destruct (check_array X) as [X'|e] eqn:HX; cbn [bind]; [|discriminate].
  destruct (check_array_Ok _ _ HX) as (-> & _).
  destruct (take X_train sampled) as [Xs|e] eqn:Ht; cbn [bind];
    [|discriminate].
  pose proof (take_Ok_in_range _ _ _ Ht) as Hr.
  rewrite (take_in_range X_train sampled [] Hr) in Ht.
  apply Ok_inj in Ht. subst Xs.
  unfold DistanceMetric.pairwise.
  destruct (forallb (fun x => forallb (fun y => length x =? length y)
                              (map (fun i => nth i X_train []) sampled)) X);
    cbn [bind]; [|discriminate].
  intros Hs. split; [exact Hr|].
  apply mapM_Ok_Forall2, Forall2_map_l in Hs.
  eapply Forall2_impl; [|exact Hs].
  intros x s Hmin. apply np_min_spec in Hmin.
  unfold distances_to_samples. now rewrite map_map in Hmin.
Qed.

Lemma Forall2_same_left {A B C} (P : A -> B -> Prop) (Q : A -> C -> Prop)
  (R : B -> C -> Prop) l lb lc :
  (forall a b c, P a b -> Q a c -> R b c) ->
  Forall2 P l lb -> Forall2 Q l lc -> Forall2 R lb lc.
Proof.
  intros H HP; revert lc; induction HP as [|a b l lb Hab _ IH];
    intros lc HQ; inversion HQ; subst; constructor; eauto.
Qed.

(** X14.  Sampling more rows never raises a score: of two fitted
    [OneTimeSampling] detectors with the same training set and metric,
    the one whose sample includes the sample of the other gives every row
    of any input that both score a score that is at most the other's. *)
Theorem OneTimeSampling_larger_sample_never_raises_a_score :
  forall (self self' : OneTimeSampling.t) (X_train : TwoDimArray)
         (m : OneDimArray -> OneDimArray -> Qc) (sampled sampled' : list nat)
         (X : TwoDimArray) (scores scores' : OneDimArray),
    OneTimeSampling.X_ self = Some X_train ->
    OneTimeSampling.X_ self' = Some X_train ->
    OneTimeSampling._metric self = Some m ->
    OneTimeSampling._metric self' = Some m ->
    OneTimeSampling.sampled_ self = Some sampled ->
    OneTimeSampling.sampled_ self' = Some sampled' ->
    incl sampled sampled' ->
    OneTimeSampling.anomaly_score self X = Ok scores ->
    OneTimeSampling.anomaly_score self' X = Ok scores' ->
    Forall2 (fun s' s => (s' <= s)%Qc) scores' scores.
Proof.
  intros self self' X_train m sampled sampled' X scores scores'
         HX HX' Hm Hm' Hsam Hsam' Hincl Hs Hs'.
  destruct (OneTimeSampling_scores_inv self X_train sampled m X scores
              HX Hsam Hm Hs) as (_ & H2).
  destruct (OneTimeSampling_scores_inv self' X_train sampled' m X scores'
              HX' Hsam' Hm' Hs') as (_ & H2').
  refine (Forall2_same_left _ _ _ X scores' scores _ H2' H2).
  cbv beta. intros x s' s Hmin' Hmin.
  destruct Hmin' as [_ Hall]. destruct Hmin as [Hin _].
  rewrite Forall_forall in Hall. apply Hall.
  apply in_map_iff in Hin as (i & <- & Hi).
  apply in_map_iff. exists i. split; [reflexivity | now apply Hincl].
Qed.

Lemma OneTimeSampling_larger_sample_never_raises_a_score_witness :
  exists scores scores',
    OneTimeSampling.anomaly_score (ex_ots_fitted [0; 1]) ex_query = Ok scores /\
    OneTimeSampling.anomaly_score (ex_ots_fitted [0; 1; 4]) ex_query
    = Ok scores' /\
    Forall2 (fun s' s => (s' <= s)%Qc) scores' scores.
Proof.
  destruct (OneTimeSampling.anomaly_score (ex_ots_fitted [0; 1]) ex_query)
    as [scores|e] eqn:E; [|vm_compute in E; discriminate].
  destruct (OneTimeSampling.anomaly_score (ex_ots_fitted [0; 1; 4]) ex_query)
    as [scores'|e] eqn:E'; [|vm_compute in E'; discriminate].
  exists scores, scores'. split; [reflexivity|]. split; [reflexivity|].
  apply (OneTimeSampling_larger_sample_never_raises_a_score
           (ex_ots_fitted [0; 1]) (ex_ots_fitted [0; 1; 4]) ex_train
           sqeuclidean [0; 1] [0; 1; 4] ex_query scores scores'
           eq_refl eq_refl eq_refl eq_refl eq_refl eq_refl).
  - intros i Hi. simpl in *. tauto.
  - exact E.
  - exact E'.
Defined.

(** With a single neighbour, the score of a new row is the distance to
    the nearest reference row, whatever [weight] is. *)
Lemma KNN_single_neighbour_scores (weight : bool) knn train X scores :
  1 <= length train ->
  (if weight
   then Ok (map np.sum (map (map fst) (map (nearest knn train 1) X)))
   else mapM np.max (map (map fst) (map (nearest knn train 1) X)))
  = Ok scores ->
  Forall2 (fun x k => exists c, nearest knn train 1 x = [c] /\ k = fst c)
          X scores.
Proof.
  intros Hlen.
  assert (Hone : forall x, exists c, nearest knn train 1 x = [c]).
  { intros x. pose proof (nearest_length knn train 1 x Hlen) as H.
    destruct (nearest knn train 1 x) as [|c [|c' rest]]; try discriminate.
    eauto. }
  destruct weight.
  - intros H. apply Ok_inj in H. subst scores.
    induction X as [|x X IH]; simpl; constructor; [|exact IH].
    destruct (Hone x) as (c & E). exists c. split; [exact E|].
    rewrite E. simpl. ring.
  - revert scores. induction X as [|x X IH]; intros scores H; simpl in H.
    + apply Ok_inj in H. subst scores. constructor.
    + apply bind_Ok_inv in H as (k & Hk & H).
      apply bind_Ok_inv in H as (ks & Hks & H). apply Ok_inj in H.
      subst scores. constructor; [|now apply IH].
      destruct (Hone x) as (c & E). exists c. split; [exact E|].
      rewrite E in Hk. simpl in Hk. apply Ok_inj in Hk. now symmetry.
Qed.

(** The single nearest neighbour is at most as far as any reference
    row. *)
Lemma nearest_single_le knn train q c j a :
  nearest knn train 1 q = [c] ->
  nth_error train j = Some a ->
  (fst c <= metric knn q a)%Qc.
Proof.
  intros E Hj.
  assert (Hc : In c (nearest knn train 1 q)) by (rewrite E; now left).
  destruct (Nat.eq_dec (snd c) j) as [Heq|Hne].
  - destruct (nearest_In knn train 1 q c Hc) as (_ & a' & Ha' & ->).
    rewrite Heq, Hj in Ha'. injection Ha' as <-. apply Qcle_refl.
  - apply (nearest_are_nearest knn train 1 q j a c Hj); [|exact Hc].
    rewrite E. simpl. intros [H|[]]. contradiction.
Qed.

(** X15.  On rows that are not the training matrix itself, the score of
    [OneTimeSampling] is never below the score of a [KNN] with one
    neighbour fitted on the same training set with the same metric: the
    nearest sampled row is at least as far as the nearest row. *)
Theorem OneTimeSampling_score_at_least_nearest_neighbour_distance :
  forall (det : KNN.t) knn (ots : OneTimeSampling.t)
         (X_train : TwoDimArray) (sampled : list nat) (X : TwoDimArray)
         (s_knn s_ots : OneDimArray),
    KNN._knn det = Some knn ->
    fitted_on knn X_train ->
    n_neighbors knn = 1 ->
    OneTimeSampling.X_ ots = Some X_train ->
    OneTimeSampling._metric ots = Some (metric knn) ->
    OneTimeSampling.sampled_ ots = Some sampled ->
    X <> X_train ->
    KNN.anomaly_score det X = Ok s_knn ->
    OneTimeSampling.anomaly_score ots X = Ok s_ots ->
    Forall2 (fun k o => (k <= o)%Qc) s_knn s_ots.
Proof.
  intros det knn ots X_train sampled X s_knn s_ots
         Hk Hf H1 HX_ Hmet Hsam Hne Hs Ho.
  destruct (fitted_on_inv _ _ Hf) as (Hfit & _ & _).
  pose proof (KNN_anomaly_score_check_array _ _ _ Hs) as HX.
  rewrite (KNN_anomaly_score_unfold det knn X_train X Hk Hf HX) in Hs.
  rewrite (KNN_query_other _ _ Hne) in Hs.
  destruct (kneighbors knn (Some X)) as [nb|e] eqn:Hnb; [|discriminate].
  cbn [bind] in Hs.
  pose proof (kneighbors_Some_Ok_inv knn X_train X nb Hfit Hnb) as Enb.
  assert (Hle : 1 <= length X_train).
  { unfold kneighbors in Hnb. rewrite Hfit, HX in Hnb. cbn [bind] in Hnb.
    destruct (Nat.ltb_spec (length X_train) (n_neighbors knn));
      [discriminate | lia]. }
  rewrite Enb, H1 in Hs.
  pose proof (KNN_single_neighbour_scores (KNN.weight det) knn X_train X s_knn
                Hle Hs) as Hknn.
  destruct (OneTimeSampling_scores_inv ots X_train sampled (metric knn) X s_ots
              HX_ Hsam Hmet Ho) as (Hr & Hots).
  refine (Forall2_same_left _ _ _ X s_knn s_ots _ Hknn Hots).
  cbv beta. intros x k o (c & Ec & ->) [Hin _].
  apply in_map_iff in Hin as (i & <- & Hi).
  unfold in_range in Hr. rewrite Forall_forall in Hr. specialize (Hr i Hi).
  destruct (nth_error X_train i) as [a|] eqn:Ha;
    [|apply nth_error_None in Ha; lia].
  replace (nth i X_train []) with a
    by (symmetry; exact (nth_error_nth _ _ [] Ha)).
  exact (nearest_single_le knn X_train x c i a Ec Ha).
Qed.

Lemma OneTimeSampling_score_at_least_nearest_neighbour_distance_witness :
  exists s_knn s_ots,
    KNN.anomaly_score (ex_knn1_fitted_detector true) ex_query = Ok s_knn /\
    OneTimeSampling.anomaly_score (ex_ots_fitted [0; 1]) ex_query = Ok s_ots /\
    Forall2 (fun k o => (k <= o)%Qc) s_knn s_ots.
Proof.
  destruct (KNN.anomaly_score (ex_knn1_fitted_detector true) ex_query)
    as [s_knn|e] eqn:E; [|vm_compute in E; discriminate].
  destruct (OneTimeSampling.anomaly_score (ex_ots_fitted [0; 1]) ex_query)
    as [s_ots|e] eqn:E'; [|vm_compute in E'; discriminate].
  exists s_knn, s_ots. split; [reflexivity|]. split; [reflexivity|].
  apply (OneTimeSampling_score_at_least_nearest_neighbour_distance
           (ex_knn1_fitted_detector true) (ex_knn 1) (ex_ots_fitted [0; 1])
           ex_train [0; 1] ex_query s_knn s_ots eq_refl
           (ex_knn_fitted 1 (Nat.lt_0_succ 0)) eq_refl eq_refl eq_refl eq_refl).
  - intros H. apply (f_equal (@length OneDimArray)) in H. discriminate.
  - exact E.
  - exact E'.
Defined.
